(** * The file registry of the upload service

    A shallow embedding of [core.go]: the [FileManager] with its record
    table, the handlers that read and mutate it, the metadata snapshot and
    the sweeper.  Records live in a pointer store, as the Go map holds
    [*FileInfo]; the file system, the reader/writer mutex and the I/O a
    handler performs are explicit in the state, so that the order of lock
    operations and I/O can be read off the log a handler leaves. *)

From Stdlib Require Import ZArith Lia String Ascii.
From Stdlib.Strings Require Import Byte.
From stdpp Require Import base option gmap strings list fin_maps sorting.

Local Open Scope Z_scope.

(** ** Strings: the functions of package [strings] and [strconv] the handlers call *)

Module Str.

Fixpoint map_ascii (f : ascii → ascii) (s : string) : string :=
  match s with
  | EmptyString => EmptyString
  | String c s' => String (f c) (map_ascii f s')
  end.

Fixpoint filter_ascii (keep : ascii → bool) (s : string) : string :=
  match s with
  | EmptyString => EmptyString
  | String c s' =>
      if keep c then String c (filter_ascii keep s') else filter_ascii keep s'
  end.

(** [unicode.ToLower] on one byte; bytes outside [A-Z] are kept, so the
    model agrees with Go on ASCII text. *)
Definition lower_ascii (c : ascii) : ascii :=
  let n := N_of_ascii c in
  if ((65 <=? n) && (n <=? 90))%N then ascii_of_N (n + 32) else c.

Definition ToLower (s : string) : string := map_ascii lower_ascii s.

(** [strings.EqualFold] on ASCII text. *)
Definition EqualFold (s t : string) : bool := String.eqb (ToLower s) (ToLower t).

(** [strings.Contains s sub]. *)
Fixpoint Contains (s sub : string) : bool :=
  String.prefix sub s ||
  match s with
  | EmptyString => false
  | String _ s' => Contains s' sub
  end.

Fixpoint strip_prefix (s p : string) {struct p} : option string :=
  match p, s with
  | EmptyString, _ => Some s
  | String a p', String b s' => if Ascii.eqb a b then strip_prefix s' p' else None
  | String _ _, EmptyString => None
  end.

(** [strings.TrimPrefix s p]. *)
Definition TrimPrefix (s p : string) : string := default s (strip_prefix s p).

(** [strings.ReplaceAll s " " "_"] and [strings.ReplaceAll s " " ""]. *)
Definition spaces_to_underscores (s : string) : string :=
  map_ascii (λ c, if Ascii.eqb c " " then "_"%char else c) s.

Definition remove_spaces (s : string) : string :=
  filter_ascii (λ c, negb (Ascii.eqb c " ")) s.

(** [strings.Split s ","]: always at least one piece. *)
Fixpoint Split (sep : ascii) (s : string) : list string :=
  match s with
  | EmptyString => [EmptyString]
  | String c s' =>
      if Ascii.eqb c sep then EmptyString :: Split sep s'
      else match Split sep s' with
           | [] => [String c EmptyString]
           | h :: t => String c h :: t
           end
  end.

Definition digit_of (c : ascii) : option Z :=
  let n := Z.of_N (N_of_ascii c) in
  if (48 <=? n) && (n <=? 57) then Some (n - 48) else None.

Fixpoint digits (s : string) (acc : Z) : option Z :=
  match s with
  | EmptyString => Some acc
  | String c s' =>
      match digit_of c with
      | Some d => digits s' (10 * acc + d)
      | None => None
      end
  end.

Definition in_int (z : Z) : bool := (- 2 ^ 63 <=? z) && (z <? 2 ^ 63).

Definition checked (o : option Z) : option Z :=
  match o with
  | Some z => if in_int z then Some z else None
  | None => None
  end.

(** [strconv.Atoi] for a 64-bit [int]: optional sign, decimal digits,
    [None] for a syntax or range error. *)
Definition Atoi (s : string) : option Z :=
  match s with
  | EmptyString => None
  | String c s' =>
      if Ascii.eqb c "-" then
        match s' with
        | EmptyString => None
        | _ => checked (Z.opp <$> digits s' 0)
        end
      else if Ascii.eqb c "+" then
        match s' with
        | EmptyString => None
        | _ => checked (digits s' 0)
        end
      else checked (digits s 0)
  end.

Definition hex_digit (n : N) : ascii :=
  if (n <? 10)%N then ascii_of_N (48 + n) else ascii_of_N (87 + n).

(** [hex.EncodeToString]. *)
Fixpoint hex_encode (bs : list byte) : string :=
  match bs with
  | [] => EmptyString
  | b :: bs' =>
      let n := Byte.to_N b in
      String (hex_digit (n / 16)) (String (hex_digit (n mod 16)) (hex_encode bs'))
  end.

(** [filepath.Join dir name] for a directory and a base name; the
    cleaning of [.] and [..] segments is not modelled. *)
Definition Join (dir name : string) : string := dir +:+ "/" +:+ name.

End Str.

(** Go's [int] and [int64] wrap around at 64 bits. *)
Definition wrap64 (z : Z) : Z := (z + 2 ^ 63) mod 2 ^ 64 - 2 ^ 63.

(** ** Data model *)

Record Config := mkConfig {
  Port : string;
  UploadDir : string;
  MetadataFile : string;
  DefaultTTL : Z;
  MaxFileSize : Z;
  AllowedOrigins : list string;
  CleanupInterval : Z;
  ConfigMaxDownloads : Z;
  RequirePassword : bool;
  AdminPassword : string;
  AllowedTypes : list string
}.

(** Times are instants in nanoseconds; a nil slice or map is [None]. *)
Record FileInfo := mkFileInfo {
  ID : string;
  Filename : string;
  OriginalName : string;
  Size : Z;
  ContentType : string;
  Checksum : string;
  UploadTime : Z;
  ExpiresAt : Z;
  Downloads : Z;
  MaxDownloads : Z;
  Password : string;
  UploaderIP : string;
  Tags : option (list string);
  Description : string;
  Path : string;
  Metadata : option (gmap string string)
}.

Definition set_Downloads (d : Z) (f : FileInfo) : FileInfo :=
  mkFileInfo (ID f) (Filename f) (OriginalName f) (Size f) (ContentType f)
    (Checksum f) (UploadTime f) (ExpiresAt f) d (MaxDownloads f)
    (Password f) (UploaderIP f) (Tags f) (Description f) (Path f) (Metadata f).

Record UploadStats := mkStats {
  TotalFiles : Z;
  TotalSize : Z;
  TotalDownloads : Z;
  ActiveFiles : Z
}.

(** [time.Time.After] and [time.Time.Before]. *)
Definition After (t u : Z) : bool := u <? t.
Definition Before (t u : Z) : bool := t <? u.

(** ** JSON documents

    [encoding/json] is modelled on document trees, not on text.  [JTime t]
    stands for the string that renders the instant [t] in RFC 3339.
    Strings are taken to be valid UTF-8, which the encoder writes and the
    decoder reads back unchanged; the decoder's matching of field names
    without regard to case is left out, field names are matched exactly. *)

#[warnings="-register-all"] Inductive json :=
  | JNull
  | JBool (b : bool)
  | JNum (n : Z)
  | JStr (s : string)
  | JTime (t : Z)
  | JArr (items : list json)
  | JObj (fields : list (string * json)).

Module Json.

Definition of_tags (t : option (list string)) : json :=
  match t with
  | None => JNull
  | Some l => JArr (JStr <$> l)
  end.

Definition of_strmap (m : option (gmap string string)) : json :=
  match m with
  | None => JNull
  | Some m => JObj (prod_map id JStr <$> map_to_list m)
  end.

(** [json.Marshal] of a [FileInfo]: the struct tags of [core.go], with
    [omitempty] on the password. *)
Definition of_FileInfo (f : FileInfo) : json :=
  JObj ([ ("id", JStr (ID f));
          ("filename", JStr (Filename f));
          ("original_name", JStr (OriginalName f));
          ("size", JNum (Size f));
          ("content_type", JStr (ContentType f));
          ("checksum", JStr (Checksum f));
          ("upload_time", JTime (UploadTime f));
          ("expires_at", JTime (ExpiresAt f));
          ("downloads", JNum (Downloads f));
          ("max_downloads", JNum (MaxDownloads f)) ]
        ++ (if decide (Password f = "") then [] else [("password", JStr (Password f))])
        ++ [ ("uploader_ip", JStr (UploaderIP f));
             ("tags", of_tags (Tags f));
             ("description", JStr (Description f));
             ("path", JStr (Path f));
             ("metadata", of_strmap (Metadata f)) ]).

(** A nil pointer marshals as [null]. *)
Definition of_ptr (o : option FileInfo) : json :=
  match o with
  | Some f => of_FileInfo f
  | None => JNull
  end.

Definition of_UploadStats (s : UploadStats) : json :=
  JObj [ ("total_files", JNum (TotalFiles s));
         ("total_size", JNum (TotalSize s));
         ("total_downloads", JNum (TotalDownloads s));
         ("active_files", JNum (ActiveFiles s)) ].

(** The value of the last field named [k], as the decoder keeps the
    last of duplicate keys. *)
Fixpoint field (k : string) (fs : list (string * json)) : option json :=
  match fs with
  | [] => None
  | (k', v) :: fs' =>
      match field k fs' with
      | Some v' => Some v'
      | None => if String.eqb k k' then Some v else None
      end
  end.

(** Decoding one field into a Go value: an absent field or [null] leaves
    the zero value, a value of the wrong kind is an error ([None]). *)
Definition to_string (o : option json) : option string :=
  match o with
  | None | Some JNull => Some EmptyString
  | Some (JStr s) => Some s
  | Some _ => None
  end.

Definition to_int (o : option json) : option Z :=
  match o with
  | None | Some JNull => Some 0
  | Some (JNum n) => if Str.in_int n then Some n else None
  | Some _ => None
  end.

Definition to_time (o : option json) : option Z :=
  match o with
  | None | Some JNull => Some 0
  | Some (JTime t) => Some t
  | Some _ => None
  end.

Definition elem_string (j : json) : option string := to_string (Some j).

Definition to_tags (o : option json) : option (option (list string)) :=
  match o with
  | None | Some JNull => Some None
  | Some (JArr l) => Some <$> mapM elem_string l
  | Some _ => None
  end.

Definition entry_string (kv : string * json) : option (string * string) :=
  pair kv.1 <$> elem_string kv.2.

Definition to_strmap (o : option json) : option (option (gmap string string)) :=
  match o with
  | None | Some JNull => Some None
  | Some (JObj l) =>
      (λ kvs, Some (foldl (λ m kv, <[kv.1 := kv.2]> m) ∅ kvs)) <$> mapM entry_string l
  | Some _ => None
  end.

(** [json.Unmarshal] into a [FileInfo]. *)
Definition to_FileInfo (fs : list (string * json)) : option FileInfo :=
  id ← to_string (field "id" fs);
  filename ← to_string (field "filename" fs);
  original ← to_string (field "original_name" fs);
  size ← to_int (field "size" fs);
  ctype ← to_string (field "content_type" fs);
  checksum ← to_string (field "checksum" fs);
  uploaded ← to_time (field "upload_time" fs);
  expires ← to_time (field "expires_at" fs);
  downloads ← to_int (field "downloads" fs);
  maxd ← to_int (field "max_downloads" fs);
  password ← to_string (field "password" fs);
  ip ← to_string (field "uploader_ip" fs);
  tags ← to_tags (field "tags" fs);
  description ← to_string (field "description" fs);
  path ← to_string (field "path" fs);
  metadata ← to_strmap (field "metadata" fs);
  Some (mkFileInfo id filename original size ctype checksum uploaded expires
          downloads maxd password ip tags description path metadata).

(** A map element of type [*FileInfo]: [null] gives a nil pointer. *)
Definition to_ptr (j : json) : option (option FileInfo) :=
  match j with
  | JNull => Some None
  | JObj fs => Some <$> to_FileInfo fs
  | _ => None
  end.

Definition to_entry (kv : string * json) : option (string * option FileInfo) :=
  pair kv.1 <$> to_ptr kv.2.

(** [json.Unmarshal] into a [map[string]*FileInfo]: the entries in
    document order; top-level [null] leaves the map nil. *)
Definition to_table (j : json) : option (list (string * option FileInfo)) :=
  match j with
  | JNull => Some []
  | JObj l => mapM to_entry l
  | _ => None
  end.

End Json.

(** ** The world a handler runs in

    The [FileManager] (configuration, record table, mutex), the store its
    record pointers point into, the file system, and the log of what the
    handlers did. *)

Definition loc := nat.

(** What a file holds: raw bytes, or the text of a JSON document. *)
Inductive fdata :=
  | Bytes (content : list byte)
  | Doc (j : json).

Inductive diskop :=
  | OpCreateTemp | OpWriteTemp | OpReadTemp | OpRemoveTemp
  | OpMkdirAll | OpCreate | OpWrite | OpRemove | OpStat
  | OpReadFile | OpWriteFile | OpServeFile.

Inductive event :=
  | EvLock | EvUnlock | EvRLock | EvRUnlock
  | EvInsert (id : string)
  | EvDelete (id : string)
  | EvIncr (p : loc)
  | EvDisk (op : diskop) (path : string)
  | EvNet
  | EvGo (task : string).

(** [sync.RWMutex]: free, held by [readers] readers, or held by a writer. *)
Inductive RWMutex :=
  | Unlocked
  | RLocked (readers : nat)
  | WLocked.

Record world := mkWorld {
  config : Config;
  files : gmap string loc;
  heap : gmap loc FileInfo;
  mutex : RWMutex;
  disk : gmap string fdata;
  denied : gset string;
  log : list event
}.

Definition set_files (m : gmap string loc) (w : world) : world :=
  mkWorld (config w) m (heap w) (mutex w) (disk w) (denied w) (log w).
Definition set_heap (h : gmap loc FileInfo) (w : world) : world :=
  mkWorld (config w) (files w) h (mutex w) (disk w) (denied w) (log w).
Definition set_mutex (mu : RWMutex) (w : world) : world :=
  mkWorld (config w) (files w) (heap w) mu (disk w) (denied w) (log w).
Definition set_disk (d : gmap string fdata) (w : world) : world :=
  mkWorld (config w) (files w) (heap w) (mutex w) d (denied w) (log w).
Definition add_log (e : event) (w : world) : world :=
  mkWorld (config w) (files w) (heap w) (mutex w) (disk w) (denied w) (e :: log w).

(** The events of a run, oldest first. *)
Definition trace (w : world) : list event := reverse (log w).

(** The record table as values: every id with the record its pointer
    points to. *)
Definition records (w : world) : gmap string FileInfo :=
  omap (λ p, heap w !! p) (files w).

(** ** Handlers as state transformers

    A handler returns, blocks for ever on the mutex ([Hang]), or panics on
    a nil pointer ([Panic]). *)

Inductive outcome (A : Type) : Type :=
  | Ret (a : A) (w : world)
  | Hang (w : world)
  | Panic (w : world).
Arguments Ret {A} a w.
Arguments Hang {A} w.
Arguments Panic {A} w.

Definition M (A : Type) : Type := world → outcome A.

Definition ret {A} (a : A) : M A := λ w, Ret a w.

Definition bind {A B} (m : M A) (k : A → M B) : M B :=
  λ w, match m w with
       | Ret a w' => k a w'
       | Hang w' => Hang w'
       | Panic w' => Panic w'
       end.

Declare Scope fm_scope.
Delimit Scope fm_scope with fm.
Notation "x <- m ;; k" := (bind m (λ x, k))
  (at level 100, m at next level, right associativity) : fm_scope.
Notation "m ;;; k" := (bind m (λ _, k))
  (at level 100, right associativity) : fm_scope.
Local Open Scope fm_scope.

Definition final {A} (o : outcome A) : world :=
  match o with
  | Ret _ w | Hang w | Panic w => w
  end.

Definition returned {A} (o : outcome A) : option A :=
  match o with
  | Ret a _ => Some a
  | _ => None
  end.

Fixpoint foldM {A B} (f : B → A → M B) (b : B) (l : list A) : M B :=
  match l with
  | [] => ret b
  | x :: l' => b' <- f b x ;; foldM f b' l'
  end.

Definition get_world : M world := λ w, Ret w w.
Definition modify (f : world → world) : M unit := λ w, Ret tt (f w).
Definition emit (e : event) : M unit := modify (add_log e).
Definition panic {A} : M A := λ w, Panic w.

(** *** The mutex *)

Definition Lock : M unit :=
  λ w, match mutex w with
       | Unlocked => Ret tt (add_log EvLock (set_mutex WLocked w))
       | _ => Hang w
       end.

Definition Unlock : M unit :=
  modify (λ w, add_log EvUnlock (set_mutex Unlocked w)).

Definition RLock : M unit :=
  λ w, match mutex w with
       | Unlocked => Ret tt (add_log EvRLock (set_mutex (RLocked 1) w))
       | RLocked n => Ret tt (add_log EvRLock (set_mutex (RLocked (S n)) w))
       | WLocked => Hang w
       end.

Definition RUnlock : M unit :=
  modify (λ w, add_log EvRUnlock
                 (set_mutex (match mutex w with
                             | RLocked (S (S n)) => RLocked (S n)
                             | _ => Unlocked
                             end) w)).

(** *** The record table and the pointer store *)

Definition files_lookup (id : string) : M (option loc) := λ w, Ret (files w !! id) w.

Definition files_insert (id : string) (p : loc) : M unit :=
  modify (λ w, add_log (EvInsert id) (set_files (<[id := p]> (files w)) w)).

Definition files_delete (id : string) : M unit :=
  modify (λ w, add_log (EvDelete id) (set_files (delete id (files w)) w)).

(** [for id, fileInfo := range fm.files]: the entries in some order. *)
Definition range_files : M (list (string * loc)) := λ w, Ret (map_to_list (files w)) w.

(** [&FileInfo{...}]: a fresh object. *)
Definition new (r : FileInfo) : M loc :=
  λ w, let p := fresh (dom (heap w)) in Ret p (set_heap (<[p := r]> (heap w)) w).

(** Reading through a pointer; a nil pointer panics. *)
Definition deref (p : loc) : M FileInfo :=
  λ w, match heap w !! p with
       | Some r => Ret r w
       | None => Panic w
       end.

(** [fileInfo.Downloads++]. *)
Definition incr_Downloads (p : loc) : M unit :=
  r <- deref p ;;
  modify (λ w, add_log (EvIncr p)
                 (set_heap (<[p := set_Downloads (wrap64 (Downloads r + 1)) r]> (heap w)) w)).

(** *** The file system

    Creating, writing and removing fail on the paths in [denied]; every
    call returns whether it succeeded ([err == nil]). *)

Definition os_Stat (path : string) : M bool :=
  emit (EvDisk OpStat path) ;;;
  w <- get_world ;; ret (bool_decide (is_Some (disk w !! path))).

Definition os_ReadFile (path : string) : M (option fdata) :=
  emit (EvDisk OpReadFile path) ;;;
  w <- get_world ;; ret (disk w !! path).

Definition os_WriteFile (path : string) (d : fdata) : M bool :=
  emit (EvDisk OpWriteFile path) ;;;
  w <- get_world ;;
  if decide (path ∈ denied w) then ret false
  else modify (set_disk (<[path := d]> (disk w))) ;;; ret true.

Definition os_Remove (path : string) : M bool :=
  emit (EvDisk OpRemove path) ;;;
  w <- get_world ;;
  if decide (path ∈ denied w) then ret false
  else match disk w !! path with
       | Some _ => modify (set_disk (delete path (disk w))) ;;; ret true
       | None => ret false
       end.

Definition os_MkdirAll (dir : string) : M bool :=
  emit (EvDisk OpMkdirAll dir) ;;;
  w <- get_world ;; ret (bool_decide (dir ∉ denied w)).

(** [os.Create]: the file exists and is empty afterwards. *)
Definition os_Create (path : string) : M bool :=
  emit (EvDisk OpCreate path) ;;;
  w <- get_world ;;
  if decide (path ∈ denied w) then ret false
  else modify (set_disk (<[path := Bytes []]> (disk w))) ;;; ret true.

(** [io.Copy dst src] into an open file; [written = Some n] is a copy
    that fails after [n] bytes. *)
Definition io_Copy (path : string) (src : list byte) (written : option nat) : M bool :=
  emit (EvDisk OpWrite path) ;;;
  w <- get_world ;;
  match written with
  | None => modify (set_disk (<[path := Bytes src]> (disk w))) ;;; ret true
  | Some n => modify (set_disk (<[path := Bytes (take n src)]> (disk w))) ;;; ret false
  end.

(** ** Persistence *)

(** [json.MarshalIndent fm.files]: one field per entry of the table. *)
Definition marshal_files (w : world) : json :=
  JObj ((λ kp, (kp.1, Json.of_ptr (heap w !! kp.2))) <$> map_to_list (files w)).

(** [saveMetadata]: the read lock is held, by [defer], until the file is
    written. *)
Definition saveMetadata : M bool :=
  RLock ;;;
  w <- get_world ;;
  ok <- os_WriteFile (MetadataFile (config w)) (Doc (marshal_files w)) ;;
  RUnlock ;;;
  ret ok.

(** [json.Unmarshal data &files]: [None] for a document that does not
    decode. *)
Definition unmarshal (d : fdata) : option (list (string * option FileInfo)) :=
  match d with
  | Doc j => Json.to_table j
  | Bytes _ => None
  end.

(** The decoder allocates one record per entry; a later entry with the
    same key replaces an earlier one. *)
Definition alloc_entry (m : gmap string (option loc)) (kv : string * option FileInfo)
  : M (gmap string (option loc)) :=
  match kv.2 with
  | None => ret (<[kv.1 := None]> m)
  | Some r => p <- new r ;; ret (<[kv.1 := Some p]> m)
  end.

(** One round of the loop that verifies files still exist on disk. *)
Definition keep_existing (valid : gmap string loc) (kv : string * option loc)
  : M (gmap string loc) :=
  match kv.2 with
  | None => panic
  | Some p =>
      r <- deref p ;;
      ok <- os_Stat (Path r) ;;
      ret (if ok then <[kv.1 := p]> valid else valid)
  end.

Definition loadMetadata : M unit :=
  w <- get_world ;;
  data <- os_ReadFile (MetadataFile (config w)) ;;
  match data with
  | None => ret tt
  | Some d =>
      match unmarshal d with
      | None => ret tt
      | Some entries =>
          decoded <- foldM alloc_entry ∅ entries ;;
          validFiles <- foldM keep_existing ∅ (map_to_list decoded) ;;
          modify (set_files validFiles)
      end
  end.

(** [NewFileManager]: an empty table, then the snapshot; the sweeper and
    the periodic save are started as goroutines. *)
Definition NewFileManager (cfg : Config) (dsk : gmap string fdata) (den : gset string)
  : outcome unit :=
  (loadMetadata ;;;
   emit (EvGo "cleanupRoutine") ;;;
   emit (EvGo "saveMetadataPeriodically"))
    (mkWorld cfg ∅ ∅ Unlocked dsk den []).

(** ** The sweeper *)

Definition eligible (now : Z) (r : FileInfo) : bool :=
  After now (ExpiresAt r) || ((0 <? MaxDownloads r) && (MaxDownloads r <=? Downloads r)).

Definition sweep_one (now : Z) (cleaned : Z) (kv : string * loc) : M Z :=
  r <- deref kv.2 ;;
  if eligible now r then
    os_Remove (Path r) ;;;
    files_delete kv.1 ;;;
    ret (cleaned + 1)
  else ret cleaned.

(** [cleanup]: the write lock is held, by [defer], to the end, also
    across the call of [saveMetadata]. *)
Definition cleanup (now : Z) : M unit :=
  Lock ;;;
  entries <- range_files ;;
  cleaned <- foldM (sweep_one now) 0 entries ;;
  (if 0 <? cleaned then saveMetadata ;;; ret tt else ret tt) ;;;
  Unlock.

(** ** Requests and responses *)

Inductive multipart :=
  | BadForm
  | NoFile
  | FormFile (filename ctype : string) (content : list byte).

Record request := mkRequest {
  Method : string;
  URLPath : string;
  Query : list (string * string);
  FormValues : list (string * string);
  Accept : string;
  Host : string;
  RemoteAddr : string;
  Multipart : multipart;
  Body : option json
}.

Fixpoint assoc (k : string) (l : list (string * string)) : string :=
  match l with
  | [] => EmptyString
  | (k', v) :: l' => if String.eqb k k' then v else assoc k l'
  end.

(** [r.URL.Query().Get k] and [r.FormValue k]: the first value, or the
    empty string. *)
Definition QueryGet (r : request) (k : string) : string := assoc k (Query r).
Definition FormValue (r : request) (k : string) : string := assoc k (FormValues r).

Definition wants_json (r : request) : bool := Str.Contains (Accept r) "application/json".

(** One row of the management page; [href] is the target of its
    download link as the template writes it. *)
Record TemplateFile := mkTemplateFile {
  row : FileInfo;
  IsExpired : bool;
  NearLimit : bool;
  href : string
}.

Inductive response :=
  | HttpError (code : Z) (msg : string)
  | JsonBody (body : json)
  | Uploaded (downloadURL : string) (expires : Z) (checksum : string)
  | Served (name ctype checksum : string) (content : fdata)
  | Redirect (code : Z) (target : string)
  | ManagePage (rows : list TemplateFile) (stats : UploadStats) (query tagFilter : string).

(** Writing the response is network I/O. *)
Definition respond (r : response) : M response := emit EvNet ;;; ret r.

Fixpoint forM {A B} (f : A → M B) (l : list A) : M (list B) :=
  match l with
  | [] => ret []
  | x :: l' => y <- f x ;; ys <- forM f l' ;; ret (y :: ys)
  end.

(** [sort.Slice l less]: a sorted rearrangement; the order of elements
    that [less] does not separate is not specified by Go, here it is
    the one of a merge sort. *)
Definition in_order {A} (less : A → A → bool) : relation A :=
  λ x y, less y x = false.

Global Instance in_order_dec {A} (less : A → A → bool) x y : Decision (in_order less x y).
Proof. unfold in_order. apply _. Defined.

Definition sort_Slice {A} (less : A → A → bool) (l : list A) : list A :=
  merge_sort (in_order less) l.

Definition by_upload_time (a b : FileInfo) : bool := After (UploadTime a) (UploadTime b).
Definition by_size (a b : FileInfo) : bool := Size b <? Size a.
Definition by_downloads (a b : FileInfo) : bool := Downloads b <? Downloads a.

(** ** Upload *)

Inductive upload_fault :=
  | NoFault
  | CreateTempFails
  | CopyTempFails
  | ChecksumFails
  | CopyFails (written : nat).

(** What the environment decides during one upload: the random bytes of
    the id, the two clock readings, and which I/O call fails. *)
Record upload_env := mkUploadEnv {
  rnd : list byte;
  now_upload : Z;
  now_expiry : Z;
  fault : upload_fault
}.

(** [generateID]: a buffer of 16 zero bytes, filled with what
    [rand.Read] delivers, in hex. *)
Definition generateID (random : list byte) : string :=
  Str.hex_encode (resize 16 x00 random).

Definition temp_name : string := "upload_*".

Definition type_allowed (allowedTypes : list string) (contentType : string) : bool :=
  match allowedTypes with
  | [] => true
  | _ => existsb (λ allowedType, Str.Contains contentType allowedType) allowedTypes
  end.

Definition parse_ttl (cfg : Config) (ttlStr : string) : Z :=
  if decide (ttlStr = "") then DefaultTTL cfg
  else match Str.Atoi ttlStr with
       | Some ttlInt => wrap64 (ttlInt * 1000000000)
       | None => DefaultTTL cfg
       end.

Definition parse_max_downloads (maxDownloadsStr : string) : Z :=
  if decide (maxDownloadsStr = "") then 0
  else default 0 (Str.Atoi maxDownloadsStr).

Definition parse_tags (tagsStr : string) : option (list string) :=
  if decide (tagsStr = "") then None
  else Some (Str.Split "," (Str.remove_spaces tagsStr)).

Definition upload_response (r : request) (fileID : string) (f : FileInfo) : response :=
  let downloadURL := "http://" +:+ Host r +:+ "/download/" +:+ fileID in
  if wants_json r then
    JsonBody (JObj [ ("checksum", JStr (Checksum f));
                     ("download_url", JStr downloadURL);
                     ("expires_at", JTime (ExpiresAt f));
                     ("filename", JStr (Filename f));
                     ("id", JStr fileID);
                     ("max_downloads", JNum (MaxDownloads f));
                     ("original_name", JStr (OriginalName f));
                     ("size", JNum (Size f)) ])
  else Uploaded downloadURL (ExpiresAt f) (Checksum f).

Section Upload.

(** [sha256.New] with [hash.Sum]: the digest of a byte sequence. *)
Variable sha256_Sum : list byte → list byte.

Definition calculateChecksum (content : list byte) : string :=
  Str.hex_encode (sha256_Sum content).

(** The part of [uploadFile] that runs once the temporary file exists;
    the deferred removal of that file follows it on every path. *)
Definition upload_stored (env : upload_env) (r : request)
    (filename ctype : string) (content : list byte) : M response :=
  w <- get_world ;;
  let cfg := config w in
  let fileID := generateID (rnd env) in
  let safeFilename := Str.spaces_to_underscores filename in
  let storedFilename := fileID +:+ "_" +:+ safeFilename in
  emit (EvDisk OpWriteTemp temp_name) ;;;
  match fault env with
  | CopyTempFails => respond (HttpError 500 "Server error")
  | _ =>
  emit (EvDisk OpReadTemp temp_name) ;;;
  match fault env with
  | ChecksumFails => respond (HttpError 500 "Server error")
  | _ =>
  let fileInfo :=
    mkFileInfo fileID safeFilename filename (Z.of_nat (length content)) ctype
      (calculateChecksum content) (now_upload env)
      (now_expiry env + parse_ttl cfg (FormValue r "ttl")) 0
      (parse_max_downloads (FormValue r "max_downloads"))
      (FormValue r "password") (RemoteAddr r)
      (parse_tags (FormValue r "tags")) (FormValue r "description")
      (Str.Join (UploadDir cfg) storedFilename) (Some ∅) in
  p <- new fileInfo ;;
  made <- os_MkdirAll (UploadDir cfg) ;;
  if negb made then respond (HttpError 500 "Server error") else
  created <- os_Create (Path fileInfo) ;;
  if negb created then respond (HttpError 500 "Server error") else
  emit (EvDisk OpReadTemp temp_name) ;;;
  copied <- io_Copy (Path fileInfo) content
              (match fault env with CopyFails n => Some n | _ => None end) ;;
  if negb copied then respond (HttpError 500 "Server error") else
  Lock ;;;
  files_insert fileID p ;;;
  Unlock ;;;
  saveMetadata ;;;
  respond (upload_response r fileID fileInfo)
  end
  end.

Definition uploadFile (env : upload_env) (r : request) : M response :=
  if negb (String.eqb (Method r) "POST") then respond (HttpError 405 "Method not allowed")
  else match Multipart r with
  | BadForm => respond (HttpError 400 "File too large")
  | NoFile => respond (HttpError 400 "No file provided")
  | FormFile filename ctype content =>
      w <- get_world ;;
      if negb (type_allowed (AllowedTypes (config w)) ctype)
      then respond (HttpError 400 "File type not allowed")
      else
        emit (EvDisk OpCreateTemp temp_name) ;;;
        match fault env with
        | CreateTempFails => respond (HttpError 500 "Server error")
        | _ =>
            resp <- upload_stored env r filename ctype content ;;
            emit (EvDisk OpRemoveTemp temp_name) ;;;
            ret resp
        end
  end.

End Upload.

(** ** Download

    The handler in the four stretches between which other requests can
    run: the lookup under the read lock, the unlocked checks, the
    increment under the write lock, the transfer. *)

Inductive gate :=
  | Unauthorized
  | Expired
  | LimitReached
  | Granted.

Definition dl_lookup (fileID : string) : M (option loc) :=
  RLock ;;;
  p <- files_lookup fileID ;;
  RUnlock ;;;
  ret p.

(** The checks, in the order of the source: password, expiration,
    download limit; each reads the record through the pointer. *)
Definition dl_check (password : string) (now : Z) (p : loc) : M gate :=
  fileInfo <- deref p ;;
  if negb (String.eqb (Password fileInfo) "") && negb (String.eqb (Password fileInfo) password)
  then ret Unauthorized
  else if After now (ExpiresAt fileInfo) then ret Expired
  else if (0 <? MaxDownloads fileInfo) && (MaxDownloads fileInfo <=? Downloads fileInfo)
  then ret LimitReached
  else ret Granted.

Definition dl_expire (fileID : string) (p : loc) : M response :=
  fileInfo <- deref p ;;
  Lock ;;;
  files_delete fileID ;;;
  Unlock ;;;
  os_Remove (Path fileInfo) ;;;
  saveMetadata ;;;
  respond (HttpError 404 "File expired").

Definition dl_count (p : loc) : M unit :=
  Lock ;;;
  incr_Downloads p ;;;
  Unlock.

(** [http.ServeFile] answers 404 when the file is not there; the
    snapshot is then saved by a goroutine of its own. *)
Definition dl_serve (p : loc) : M response :=
  fileInfo <- deref p ;;
  emit (EvDisk OpServeFile (Path fileInfo)) ;;;
  w <- get_world ;;
  resp <- respond (match disk w !! Path fileInfo with
                   | Some d => Served (OriginalName fileInfo) (ContentType fileInfo)
                                 (Checksum fileInfo) d
                   | None => HttpError 404 "404 page not found"
                   end) ;;
  emit (EvGo "saveMetadata") ;;;
  ret resp.

Definition downloadFile (now : Z) (r : request) : M response :=
  let fileID := Str.TrimPrefix (URLPath r) "/download/" in
  let password := QueryGet r "password" in
  found <- dl_lookup fileID ;;
  match found with
  | None => respond (HttpError 404 "File not found")
  | Some p =>
      g <- dl_check password now p ;;
      match g with
      | Unauthorized => respond (HttpError 401 "Password required")
      | Expired => dl_expire fileID p
      | LimitReached => respond (HttpError 403 "Download limit reached")
      | Granted => dl_count p ;;; dl_serve p
      end
  end.

(** Two downloads of the same registry served at once: each request is
    at one of the points between its stretches, and a schedule says
    which one runs its next stretch. *)
Inductive dl_thread :=
  | AtLookup
  | AtCheck (p : loc)
  | AtCount (p : loc)
  | AtServe (p : loc)
  | Finished (resp : response).

Definition dl_step (now : Z) (r : request) (t : dl_thread) : M dl_thread :=
  let fileID := Str.TrimPrefix (URLPath r) "/download/" in
  let password := QueryGet r "password" in
  match t with
  | AtLookup =>
      found <- dl_lookup fileID ;;
      match found with
      | None => resp <- respond (HttpError 404 "File not found") ;; ret (Finished resp)
      | Some p => ret (AtCheck p)
      end
  | AtCheck p =>
      g <- dl_check password now p ;;
      match g with
      | Unauthorized =>
          resp <- respond (HttpError 401 "Password required") ;; ret (Finished resp)
      | Expired => resp <- dl_expire fileID p ;; ret (Finished resp)
      | LimitReached =>
          resp <- respond (HttpError 403 "Download limit reached") ;; ret (Finished resp)
      | Granted => ret (AtCount p)
      end
  | AtCount p => dl_count p ;;; ret (AtServe p)
  | AtServe p => resp <- dl_serve p ;; ret (Finished resp)
  | Finished resp => ret (Finished resp)
  end.

Inductive turn := First | Second.

Fixpoint run_schedule (now1 : Z) (r1 : request) (now2 : Z) (r2 : request)
    (schedule : list turn) (t1 t2 : dl_thread) : M (dl_thread * dl_thread) :=
  match schedule with
  | [] => ret (t1, t2)
  | First :: rest =>
      t1' <- dl_step now1 r1 t1 ;; run_schedule now1 r1 now2 r2 rest t1' t2
  | Second :: rest =>
      t2' <- dl_step now2 r2 t2 ;; run_schedule now1 r1 now2 r2 rest t1 t2'
  end.

(** ** Search, statistics and listings *)

Definition tag_list (f : FileInfo) : list string := default [] (Tags f).

Definition matches (query tag : string) (f : FileInfo) : bool :=
  let m := true in
  let m := if decide (query = "") then m
           else m && (Str.Contains (Str.ToLower (Filename f)) (Str.ToLower query)
                      || Str.Contains (Str.ToLower (Description f)) (Str.ToLower query)) in
  let m := if decide (tag = "") then m
           else m && existsb (λ t, Str.EqualFold t tag) (tag_list f) in
  m.

Definition collect_match (query tag : string) (matchingFiles : list loc)
    (kv : string * loc) : M (list loc) :=
  fileInfo <- deref kv.2 ;;
  ret (if matches query tag fileInfo then matchingFiles ++ [kv.2] else matchingFiles).

Definition less_for (sortBy : string) : FileInfo → FileInfo → bool :=
  if String.eqb sortBy "size" then by_size
  else if String.eqb sortBy "downloads" then by_downloads
  else by_upload_time.

(** A nil slice encodes as [null], an empty one as an empty array. *)
Definition encode_nilable (l : list FileInfo) : json :=
  match l with
  | [] => JNull
  | _ => JArr (Json.of_FileInfo <$> l)
  end.

Definition encode_files (l : list FileInfo) : json := JArr (Json.of_FileInfo <$> l).

Definition searchFiles (r : request) : M response :=
  let query := QueryGet r "q" in
  let tag := QueryGet r "tag" in
  let sortBy := QueryGet r "sort" in
  RLock ;;;
  entries <- range_files ;;
  matchingFiles <- foldM (collect_match query tag) [] entries ;;
  RUnlock ;;;
  found <- forM deref matchingFiles ;;
  respond (JsonBody (encode_nilable (sort_Slice (less_for sortBy) found))).

Definition count_stats (now : Z) (stats : UploadStats) (kv : string * loc) : M UploadStats :=
  fileInfo <- deref kv.2 ;;
  ret (mkStats (wrap64 (TotalFiles stats + 1))
         (wrap64 (TotalSize stats + Size fileInfo))
         (wrap64 (TotalDownloads stats + Downloads fileInfo))
         (if Before now (ExpiresAt fileInfo) then wrap64 (ActiveFiles stats + 1)
          else ActiveFiles stats)).

(** [getStats]: the read lock is held, by [defer], until the response
    is written. *)
Definition getStats (now : Z) : M response :=
  RLock ;;;
  entries <- range_files ;;
  stats <- foldM (count_stats now) (mkStats 0 0 0 0) entries ;;
  resp <- respond (JsonBody (Json.of_UploadStats stats)) ;;
  RUnlock ;;;
  ret resp.

(** All record pointers, copied out under the read lock. *)
Definition snapshot : M (list loc) :=
  RLock ;;;
  entries <- range_files ;;
  RUnlock ;;;
  ret (entries.*2).

Definition download_href (f : FileInfo) : string :=
  "/download/" +:+ ID f +:+
  (if decide (Password f = "") then EmptyString else "?password=" +:+ Password f).

Definition template_row (now : Z) (f : FileInfo) : TemplateFile :=
  let isExpired := After now (ExpiresAt f) in
  let nearLimit := (0 <? MaxDownloads f) && (wrap64 (MaxDownloads f - 1) <=? Downloads f) in
  mkTemplateFile f isExpired (nearLimit && negb isExpired) (download_href f).

(** [manageFiles]; the clock is read once for the page. *)
Definition manageFiles (now : Z) (r : request) : M response :=
  ptrs <- snapshot ;;
  all <- forM deref ptrs ;;
  let sorted := sort_Slice by_upload_time all in
  if wants_json r then respond (JsonBody (encode_files sorted))
  else
    RLock ;;;
    entries <- range_files ;;
    stats <- foldM (count_stats now) (mkStats 0 0 0 0) entries ;;
    RUnlock ;;;
    respond (ManagePage (template_row now <$> sorted) stats (QueryGet r "q") (QueryGet r "tag")).

(** [fileInfo]: the record as it stands, whatever its expiry. *)
Definition fileInfo (r : request) : M response :=
  let fileID := Str.TrimPrefix (URLPath r) "/info/" in
  RLock ;;;
  found <- files_lookup fileID ;;
  RUnlock ;;;
  match found with
  | None => respond (HttpError 404 "File not found")
  | Some p => f <- deref p ;; respond (JsonBody (Json.of_FileInfo f))
  end.

Definition parse_limit (l : string) : Z :=
  if decide (l = "") then 50
  else match Str.Atoi l with
       | Some parsed => if (0 <? parsed) && (parsed <=? 1000) then parsed else 50
       | None => 50
       end.

Definition parse_offset (o : string) : Z :=
  if decide (o = "") then 0
  else match Str.Atoi o with
       | Some parsed => if 0 <=? parsed then parsed else 0
       | None => 0
       end.

(** [files[offset:end]] with the bounds the handler computes. *)
Definition paginate {A} (offset limit : Z) (l : list A) : list A :=
  let total := Z.of_nat (length l) in
  let end_ := wrap64 (offset + limit) in
  let end_ := if total <? end_ then total else end_ in
  if total <=? offset then []
  else take (Z.to_nat (end_ - offset)) (drop (Z.to_nat offset) l).

Definition listFilesAPI (r : request) : M response :=
  let limit := parse_limit (QueryGet r "limit") in
  let offset := parse_offset (QueryGet r "offset") in
  ptrs <- snapshot ;;
  all <- forM deref ptrs ;;
  let sorted := sort_Slice by_upload_time all in
  respond (JsonBody (JObj [ ("files", encode_files (paginate offset limit sorted));
                            ("limit", JNum limit);
                            ("offset", JNum offset);
                            ("total", JNum (Z.of_nat (length sorted))) ])).

Definition healthCheck (now : Z) (uptime : string) : M response :=
  RLock ;;;
  w <- get_world ;;
  RUnlock ;;;
  respond (JsonBody (JObj [ ("file_count", JNum (Z.of_nat (size (files w))));
                            ("status", JStr "healthy");
                            ("timestamp", JTime now);
                            ("uptime", JStr uptime) ])).

(** ** Deletion *)

Definition deleteFile (r : request) : M response :=
  let fileID := Str.TrimPrefix (URLPath r) "/delete/" in
  Lock ;;;
  found <- files_lookup fileID ;;
  match found with
  | Some _ => files_delete fileID
  | None => ret tt
  end ;;;
  Unlock ;;;
  match found with
  | Some p =>
      f <- deref p ;;
      os_Remove (Path f) ;;;
      saveMetadata ;;;
      if wants_json r then respond (JsonBody (JObj [("status", JStr "deleted")]))
      else respond (Redirect 303 "/manage")
  | None => respond (HttpError 404 "File not found")
  end.

(** The body of a bulk delete: an object whose [file_ids] are strings. *)
Definition decode_file_ids (body : option json) : option (list string) :=
  match body with
  | Some JNull => Some []
  | Some (JObj fs) => default [] <$> Json.to_tags (Json.field "file_ids" fs)
  | _ => None
  end.

Definition bulk_delete_one (deleted : Z) (fileID : string) : M Z :=
  found <- files_lookup fileID ;;
  match found with
  | Some p =>
      f <- deref p ;;
      os_Remove (Path f) ;;;
      files_delete fileID ;;;
      ret (deleted + 1)
  | None => ret deleted
  end.

Definition bulkDelete (r : request) : M response :=
  if negb (String.eqb (Method r) "POST") then respond (HttpError 405 "Method not allowed")
  else match decode_file_ids (Body r) with
  | None => respond (HttpError 400 "Invalid request")
  | Some fileIDs =>
      Lock ;;;
      deleted <- foldM bulk_delete_one 0 fileIDs ;;
      Unlock ;;;
      (if 0 <? deleted then saveMetadata ;;; ret tt else ret tt) ;;;
      respond (JsonBody (JObj [ ("deleted", JNum deleted);
                                ("total", JNum (Z.of_nat (length fileIDs))) ]))
  end.

(** * Properties *)

(** ** Predicates the properties are stated with *)

(** Two worlds that differ at most in their log. *)
Definition same_state (w w' : world) : Prop :=
  config w' = config w ∧ files w' = files w ∧ heap w' = heap w ∧
  mutex w' = mutex w ∧ disk w' = disk w ∧ denied w' = denied w.

(** The world after the events [evs], newest first, were logged. *)
Definition logged (evs : list event) (w : world) : world :=
  mkWorld (config w) (files w) (heap w) (mutex w) (disk w) (denied w) (evs ++ log w).

(** Every pointer of the record table points to a record. *)
Definition valid_ptrs (w : world) : Prop :=
  ∀ id p, files w !! id = Some p → is_Some (heap w !! p).

(** The field a sort order compares. *)
Definition sort_key (sortBy : string) : FileInfo → Z :=
  if String.eqb sortBy "size" then Size
  else if String.eqb sortBy "downloads" then Downloads
  else UploadTime.

Definition defaults : Config :=
  mkConfig "8080" "./files" "./metadata.json" 3600000000000 104857600 ["*"%string]
    300000000000 0 false "" [].

(** One stored file: limited to one download, expiring at instant 20. *)
Definition report : FileInfo :=
  mkFileInfo "ab" "report.txt" "report.txt" 2 "text/plain" "cafe" 10 20 0 1
    "" "10.0.0.1:4000" None "quarterly" "./files/ab_report.txt" (Some ∅).

Definition one_file : world :=
  mkWorld defaults {["ab" := 0%nat]} {[0%nat := report]} Unlocked
    {["./files/ab_report.txt" := Bytes ["h"%byte; "i"%byte]]} ∅ [].

Definition empty_world : world := mkWorld defaults ∅ ∅ Unlocked ∅ ∅ [].

Definition get_request (path : string) (query : list (string * string)) : request :=
  mkRequest "GET" path query [] "application/json" "localhost:8080" "10.0.0.2:5000" NoFile None.

Definition bulk_request (ids : list string) : request :=
  mkRequest "POST" "/bulk-delete" [] [] "application/json" "localhost:8080"
    "10.0.0.2:5000" NoFile (Some (JObj [("file_ids", JArr (JStr <$> ids))])).

(** The records a search selects. *)
Definition selected (query tag : string) (w : world) : gmap string FileInfo :=
  filter (λ kv, matches query tag kv.2 = true) (records w).

(** A JSON object discloses [pw] when its password field holds it. *)
Definition discloses (pw : string) (j : json) : Prop :=
  ∃ fs, j = JObj fs ∧ Json.field "password" fs = Some (JStr pw).

(** A second stored file, protected by a password and tagged. *)
Definition secret : FileInfo :=
  mkFileInfo "cd" "plan.pdf" "plan.pdf" 5 "application/pdf" "beef" 12 1000 0 0
    "abc" "10.0.0.1:4000" (Some ["Work"%string]) "roadmap" "./files/cd_plan.pdf" (Some ∅).

Definition two_files : world :=
  mkWorld defaults {["ab" := 0%nat; "cd" := 1%nat]} {[0%nat := report; 1%nat := secret]}
    Unlocked
    {["./files/ab_report.txt" := Bytes ["h"%byte; "i"%byte];
      "./files/cd_plan.pdf" := Bytes ["p"%byte]]} ∅ [].

Definition html_request (path : string) (query : list (string * string)) : request :=
  mkRequest "GET" path query [] "text/html" "localhost:8080" "10.0.0.2:5000" NoFile None.

(** Keys in descending order along the list. *)
Definition descending (key : FileInfo → Z) (l : list FileInfo) : Prop :=
  Sorted (λ a b, key b ≤ key a) l.

(** The page a listing request asks for. *)
Definition page_limit (r : request) : Z := parse_limit (QueryGet r "limit").
Definition page_offset (r : request) : Z := parse_offset (QueryGet r "offset").

(** Both requests look the record up, both pass the checks, then both
    count and serve. *)
Definition both_pass_then_count : list turn :=
  [First; Second; First; Second; First; Second; First; Second].




(** What the sweep logs for the entries it visits: for each eligible
    record the removal of its file, then the removal of its entry. *)
Definition sweep_events (now : Z) (h : gmap loc FileInfo) (entries : list (string * loc))
  : list event :=
  flat_map (λ kv, match h !! kv.2 with
                  | Some f => if eligible now f
                              then [EvDisk OpRemove (Path f); EvDelete kv.1]
                              else []
                  | None => []
                  end) entries.

(** The state after the sweep visited the entries [l], starting in [w]
    with [c] records cleaned. *)
Definition swept (now : Z) (l : list (string * loc)) (w : world) (c : Z)
    (w' : world) (c' : Z) : Prop :=
  config w' = config w ∧ heap w' = heap w ∧ mutex w' = mutex w ∧ denied w' = denied w ∧
  log w' = reverse (sweep_events now (heap w) l) ++ log w ∧
  c ≤ c' ∧
  (c' = c ↔ ∀ k p f, (k, p) ∈ l → heap w !! p = Some f → eligible now f = false) ∧
  (∀ k, files w !! k = None → files w' !! k = None) ∧
  (∀ path, disk w !! path = None → disk w' !! path = None) ∧
  (∀ k p f, (k, p) ∈ l → heap w !! p = Some f → eligible now f = true →
            files w' !! k = None) ∧
  (∀ k, (∀ p f, (k, p) ∈ l → heap w !! p = Some f → eligible now f = false) →
        files w' !! k = files w !! k) ∧
  (∀ k p f, (k, p) ∈ l → heap w !! p = Some f → eligible now f = true →
            Path f ∉ denied w → disk w' !! Path f = None) ∧
  (∀ path, (∀ k p f, (k, p) ∈ l → heap w !! p = Some f → eligible now f = true →
                     Path f ≠ path) →
           disk w' !! path = disk w !! path).

(** The checksum a response carries: the field of the upload response,
    or the [X-Checksum] header of a download. *)
Definition checksum_of (resp : response) : option string :=
  match resp with
  | Uploaded _ _ c => Some c
  | Served _ _ c _ => Some c
  | JsonBody (JObj fs) =>
      match Json.field "checksum" fs with
      | Some (JStr c) => Some c
      | _ => None
      end
  | _ => None
  end.

(** Where an upload stores its file. *)
Definition stored_path (cfg : Config) (env : upload_env) (filename : string) : string :=
  Str.Join (UploadDir cfg)
    (generateID (rnd env) +:+ "_" +:+ Str.spaces_to_underscores filename).

Definition is_error (resp : response) : bool :=
  match resp with
  | HttpError _ _ => true
  | _ => false
  end.

Definition upload_request (accept filename ctype : string) (content : list byte)
    (form : list (string * string)) : request :=
  mkRequest "POST" "/upload" [] form accept "localhost:8080" "10.0.0.2:5000"
    (FormFile filename ctype content) None.

(** A stand-in digest for running an upload on a concrete input. *)
Definition toy_digest (content : list byte) : list byte := take 2 content.

(** The integer fields hold 64-bit values, as every Go value does. *)
Definition ints_in_range (f : FileInfo) : Prop :=
  Str.in_int (Size f) = true ∧ Str.in_int (Downloads f) = true ∧
  Str.in_int (MaxDownloads f) = true.

(** Every entry of the table points to a record of 64-bit fields. *)
Definition well_typed (w : world) : Prop :=
  ∀ id p, files w !! id = Some p → ∃ f, heap w !! p = Some f ∧ ints_in_range f.

(** The decoded table as records. *)
Definition resolve (h : gmap loc FileInfo) (d : gmap string (option loc))
  : gmap string FileInfo :=
  omap (λ o, o ≫= λ p, h !! p) d.

(** What one round of the reconciliation loop adds. *)
Definition kept (h : gmap loc FileInfo) (dsk : gmap string fdata) (o : option loc)
  : option loc :=
  p ← o; f ← h !! p; if bool_decide (is_Some (dsk !! Path f)) then Some p else None.

(** One round of a loop that keeps what [g] picks of an entry. *)
Definition pick {V W} (g : V → option W) (acc : gmap string W) (kv : string * V)
  : gmap string W :=
  match g kv.2 with
  | Some x => <[kv.1 := x]> acc
  | None => acc
  end.

(** Every entry of a decoded table is a pointer to a record. *)
Definition tidy (d : gmap string (option loc)) (h : gmap loc FileInfo) : Prop :=
  ∀ k o, d !! k = Some o → ∃ p f, o = Some p ∧ h !! p = Some f.

(** The entries of the table with the records they point to. *)
Definition record_entries (w : world) : list (string * FileInfo) :=
  omap (λ kp, pair kp.1 <$> heap w !! kp.2) (map_to_list (files w)).

(** Every record of the registry has its file on disk. *)
Definition backed (w : world) : Prop :=
  ∀ id f, records w !! id = Some f → is_Some (disk w !! Path f).

(** Every record is stored under its id: the id has 32 characters and
    the path is the upload directory joined with id, underscore and
    stored name. *)
Definition keyed (w : world) : Prop :=
  ∀ id f, records w !! id = Some f →
          String.length id = 32%nat ∧
          Path f = Str.Join (UploadDir (config w)) (id +:+ "_" +:+ Filename f).

Definition sound (w : world) : Prop := valid_ptrs w ∧ keyed w ∧ backed w.

(** [w'] comes from [w] by steps that keep the registry sound: records
    keep path and name or are new and stored, and a file disappears only
    together with a record that had it. *)
Definition evolves (w w' : world) : Prop :=
  config w' = config w ∧ valid_ptrs w' ∧
  (∀ id f', records w' !! id = Some f' →
            (∃ f, records w !! id = Some f ∧ Path f' = Path f ∧ Filename f' = Filename f) ∨
            (String.length id = 32%nat ∧
             Path f' = Str.Join (UploadDir (config w)) (id +:+ "_" +:+ Filename f') ∧
             is_Some (disk w' !! Path f'))) ∧
  (∀ path, is_Some (disk w !! path) →
           is_Some (disk w' !! path) ∨
           ∃ id f, records w !! id = Some f ∧ Path f = path ∧ records w' !! id = None).

(** Every file of [d] is a file of [d']. *)
Definition grows (d d' : gmap string fdata) : Prop :=
  ∀ path, is_Some (d !! path) → is_Some (d' !! path).

(** Every file of [d] but possibly [q] is a file of [d']. *)
Definition shrinks (q : string) (d d' : gmap string fdata) : Prop :=
  ∀ path, is_Some (d !! path) → is_Some (d' !! path) ∨ path = q.

(** Whether every entry made in a trace comes after a write of file
    content. *)
Fixpoint inserts_follow_writes (written : bool) (tr : list event) : bool :=
  match tr with
  | [] => true
  | EvDisk OpWrite _ :: tr' => inserts_follow_writes true tr'
  | EvInsert _ :: tr' => written && inserts_follow_writes written tr'
  | _ :: tr' => inserts_follow_writes written tr'
  end.

(** What the reconciliation loop has verified of the entries it kept. *)
Definition verified (v : gmap string loc) (w : world) : Prop :=
  ∀ k p, v !! k = Some p → ∃ f, heap w !! p = Some f ∧ is_Some (disk w !! Path f).

(** A world in which the file of the one record cannot be removed. *)
Definition stuck_file : world :=
  mkWorld defaults {["ab" := 0%nat]} {[0%nat := report]} Unlocked
    {["./files/ab_report.txt" := Bytes ["h"%byte; "i"%byte]]}
    {["./files/ab_report.txt"]} [].

(** A file as an upload stores it. *)
Definition notes : FileInfo :=
  mkFileInfo "01ab0000000000000000000000000000" "notes.txt" "notes.txt" 2 "text/plain"
    "6869" 100 3600000000101 0 0 "" "10.0.0.2:5000" None ""
    "./files/01ab0000000000000000000000000000_notes.txt" (Some ∅).

Definition stored_world : world :=
  mkWorld defaults {["01ab0000000000000000000000000000" := 0%nat]} {[0%nat := notes]}
    Unlocked
    {["./files/01ab0000000000000000000000000000_notes.txt" := Bytes ["h"%byte; "i"%byte]]}
    ∅ [].

(** * The rest of the service

    The dispatcher of the API paths, the two background routines and
    the functions of the management page's template. *)

Section Api.

Variable sha256_Sum : list byte → list byte.

(** [apiHandler]: the first segment of the path after [/api/] selects
    the handler. *)
Definition apiHandler (env : upload_env) (now : Z) (uptime : string) (r : request)
  : M response :=
  let path := Str.TrimPrefix (URLPath r) "/api/" in
  let parts := Str.Split "/" path in
  match parts with
  | [] => respond (HttpError 404 "Invalid API endpoint")
  | part0 :: _ =>
      if String.eqb part0 "files" then
        if String.eqb (Method r) "GET" then listFilesAPI r
        else respond (HttpError 405 "Method not allowed")
      else if String.eqb part0 "upload" then
        if String.eqb (Method r) "POST" then uploadFile sha256_Sum env r
        else respond (HttpError 405 "Method not allowed")
      else if String.eqb part0 "health" then healthCheck now uptime
      else respond (HttpError 404 "Unknown API endpoint")
  end.

End Api.

(** [cleanupRoutine]: one sweep per tick of its ticker; [ticks] are the
    clock readings of the sweeps. *)
Definition cleanupRoutine (ticks : list Z) : M unit :=
  foldM (λ _ now, cleanup now) tt ticks.

(** [saveMetadataPeriodically]: one save per tick; an error is logged
    and the loop goes on. *)
Fixpoint saveMetadataPeriodically (ticks : nat) : M unit :=
  match ticks with
  | O => ret tt
  | S ticks' => saveMetadata ;;; saveMetadataPeriodically ticks'
  end.

(** *** The template functions of the management page *)

(** What [formatBytes] prints: [Sprintf("%d B", n)], or
    [Sprintf("%.1f %cB", float64(bytes)/float64(div), unit)]. *)
Inductive size_text :=
  | PlainBytes (n : Z)
  | ScaledBytes (bytes div : Z) (unit : ascii).

(** The loop [for n := bytes / unit; n >= unit; n /= unit]: [n] loses
    ten bits in every round. *)
Fixpoint scale (rounds : nat) (n div : Z) (exp : nat) : option (Z * nat) :=
  match rounds with
  | O => None
  | S rounds' =>
      if 1024 <=? n then scale rounds' (n ÷ 1024) (wrap64 (div * 1024)) (S exp)
      else Some (div, exp)
  end.

(** [formatBytes]; [None] is the panic of an index out of the range of
    ["KMGTPE"]. *)
Definition formatBytes (bytes : Z) : option size_text :=
  if bytes <? 1024 then Some (PlainBytes bytes)
  else
    '(div, exp) ← scale 64 (bytes ÷ 1024) 1024 0;
    unit ← String.get exp "KMGTPE";
    Some (ScaledBytes bytes div unit).

(** [substr]; [None] is the panic of a slice whose bounds are out of
    range. *)
Definition substr (s : string) (start length : Z) : option string :=
  let len := Z.of_nat (String.length s) in
  if len <=? start then Some EmptyString
  else
    let end_ := wrap64 (start + length) in
    let end_ := if len <? end_ then len else end_ in
    if (0 <=? start) && (start <=? end_)
    then Some (String.substring (Z.to_nat start) (Z.to_nat (end_ - start)) s)
    else None.

(** The cells of a row that the template computes: the size, and the
    first twelve characters of the checksum. *)
Definition size_cell (tf : TemplateFile) : option size_text := formatBytes (Size (row tf)).
Definition checksum_cell (tf : TemplateFile) : option string :=
  substr (Checksum (row tf)) 0 12.

(** Every answer a handler can return satisfies [P]. *)
Definition answers {A} (P : A → Prop) (m : M A) : Prop :=
  ∀ w a w', m w = Ret a w' → P a.









(** *** Options that are read nowhere *)

(** The configuration with the options [allowed_origins],
    [max_downloads], [require_password] and [admin_password] set anew. *)
Definition with_options (origins : list string) (maxDownloads : Z)
    (requirePassword : bool) (adminPassword : string) (c : Config) : Config :=
  mkConfig (Port c) (UploadDir c) (MetadataFile c) (DefaultTTL c) (MaxFileSize c)
    origins (CleanupInterval c) maxDownloads requirePassword adminPassword (AllowedTypes c).

Definition reconfigured (g : Config → Config) (w : world) : world :=
  mkWorld (g (config w)) (files w) (heap w) (mutex w) (disk w) (denied w) (log w).

Definition outcome_map {A} (g : world → world) (o : outcome A) : outcome A :=
  match o with
  | Ret a w => Ret a (g w)
  | Hang w => Hang (g w)
  | Panic w => Panic (g w)
  end.

(** Running [m] after the change [g] of the state is running [m] and
    changing the state then. *)
Definition commutes {A} (g : world → world) (m : M A) : Prop :=
  ∀ w, m (g w) = outcome_map g (m w).

(** ** The routes of [main]

    [http.HandleFunc] registers a pattern with the default [ServeMux];
    the mux cleans the path of a request, redirects a path whose pattern
    is registered with a trailing slash only, redirects a path that was
    not clean, and otherwise picks the pattern that matches: the same
    string, or the longest registered pattern ending in a slash that is a
    prefix of the path.  Patterns are matched without a host, and the
    method CONNECT, which the mux does not clean, is left out.  A
    redirect is given by the path it leads to; the mux sends the query
    of the request along with it. *)

Inductive route :=
  | ToUpload | ToDownload | ToDelete | ToManage | ToSearch | ToStats | ToInfo
  | ToBulkDelete | ToApi.

(** The patterns of [main.go], in the order of their registration. *)
Definition routes : list (string * route) :=
  [ ("/upload", ToUpload); ("/download/", ToDownload); ("/delete/", ToDelete);
    ("/manage", ToManage); ("/search", ToSearch); ("/stats", ToStats);
    ("/info/", ToInfo); ("/bulk-delete", ToBulkDelete); ("/api/", ToApi);
    ("/", ToManage) ].

Module Mux.

Fixpoint ends_with_slash (p : string) : bool :=
  match p with
  | EmptyString => false
  | String c EmptyString => Ascii.eqb c "/"
  | String _ p' => ends_with_slash p'
  end.

(** One element of a path in [path.Clean]: empty elements and [.] are
    dropped, [..] takes the element before it away, if there is one. *)
Definition clean_step (kept : list string) (element : string) : list string :=
  if String.eqb element "" || String.eqb element "." then kept
  else if String.eqb element ".." then removelast kept
  else kept ++ [element].

(** [path.Clean] of a path that begins with a slash. *)
Definition path_Clean (p : string) : string :=
  "/" +:+ String.concat "/" (foldl clean_step [] (Str.Split "/" p)).

(** [cleanPath] of [net/http]: the cleaned path, with the trailing slash
    that [path.Clean] takes away put back. *)
Definition cleanPath (p : string) : string :=
  if String.eqb p "" then "/"
  else
    let p := if String.prefix "/" p then p else "/" +:+ p in
    let np := path_Clean p in
    if ends_with_slash p && negb (String.eqb np "/") then
      if Nat.eqb (String.length p) (String.length np + 1) && String.prefix np p
      then p else np +:+ "/"
    else np.

Definition registered {H} (rs : list (string * H)) (pattern : string) : option (string * H) :=
  List.find (λ r, String.eqb r.1 pattern) rs.

(** A path whose pattern is registered with a trailing slash only. *)
Definition shouldRedirect {H} (rs : list (string * H)) (path : string) : bool :=
  match registered rs path with
  | Some _ => false
  | None =>
      if String.eqb path "" then false
      else match registered rs (path +:+ "/") with
           | Some _ => negb (ends_with_slash path)
           | None => false
           end
  end.

Definition longer_prefix {H} (path : string) (best : option (string * H)) (r : string * H)
  : option (string * H) :=
  if ends_with_slash r.1 && String.prefix r.1 path then
    match best with
    | Some b => if (String.length b.1 <? String.length r.1)%nat then Some r else best
    | None => Some r
    end
  else best.

(** [mux.match]: the pattern equal to the path, or else the longest
    pattern ending in a slash that is a prefix of it. *)
Definition match_ {H} (rs : list (string * H)) (path : string) : option (string * H) :=
  match registered rs path with
  | Some r => Some r
  | None => foldl (longer_prefix path) None rs
  end.

Inductive routed (H : Type) :=
  | Handled (pattern : string) (to : H)
  | MovedPermanently (target : string)
  | NotFound.
Arguments Handled {H} pattern to.
Arguments MovedPermanently {H} target.
Arguments NotFound {H}.

(** [ServeMux.Handler]. *)
Definition Handler {H} (rs : list (string * H)) (path : string) : routed H :=
  let cleaned := cleanPath path in
  if shouldRedirect rs cleaned then MovedPermanently (cleaned +:+ "/")
  else if negb (String.eqb cleaned path) then MovedPermanently cleaned
  else match match_ rs path with
       | Some (pattern, to) => Handled pattern to
       | None => NotFound
       end.

End Mux.

Section Serve.

Variable sha256_Sum : list byte → list byte.

(** One request to the server of [main]: the mux picks the handler. *)
Definition serve (env : upload_env) (now : Z) (uptime : string) (r : request) : M response :=
  match Mux.Handler routes (URLPath r) with
  | Mux.Handled _ ToUpload => uploadFile sha256_Sum env r
  | Mux.Handled _ ToDownload => downloadFile now r
  | Mux.Handled _ ToDelete => deleteFile r
  | Mux.Handled _ ToManage => manageFiles now r
  | Mux.Handled _ ToSearch => searchFiles r
  | Mux.Handled _ ToStats => getStats now
  | Mux.Handled _ ToInfo => fileInfo r
  | Mux.Handled _ ToBulkDelete => bulkDelete r
  | Mux.Handled _ ToApi => apiHandler sha256_Sum env now uptime r
  | Mux.MovedPermanently target => respond (Redirect 301 target)
  | Mux.NotFound => respond (HttpError 404 "404 page not found")
  end.

End Serve.

(** [k] downloads of the same request, one after the other, each at its
    own instant. *)
Definition downloads_in_a_row (instants : list Z) (r : request) : M (list response) :=
  forM (λ now, downloadFile now r) instants.

(** Whether every character of a string satisfies [test]. *)
Fixpoint all_chars (test : ascii → bool) (s : string) : bool :=
  match s with
  | EmptyString => true
  | String c s' => test c && all_chars test s'
  end.

(** The digits of lower-case hexadecimal. *)
Definition is_hex (c : ascii) : bool :=
  let n := N_of_ascii c in
  (((48 <=? n) && (n <=? 57)) || ((97 <=? n) && (n <=? 102)))%N.

Definition unhex (c : ascii) : N :=
  let n := N_of_ascii c in
  if (n <=? 57)%N then (n - 48)%N else (n - 87)%N.

(** The bytes a string of hexadecimal digits stands for. *)
Fixpoint hex_decode (s : string) : list byte :=
  match s with
  | String hi (String lo s') =>
      default x00 (Byte.of_N (16 * unhex hi + unhex lo)) :: hex_decode s'
  | _ => []
  end.

(** The link an upload answers with. *)
Definition link_of (resp : response) : option string :=
  match resp with
  | Uploaded url _ _ => Some url
  | JsonBody (JObj fs) =>
      match Json.field "download_url" fs with
      | Some (JStr url) => Some url
      | _ => None
      end
  | _ => None
  end.

(** ** Further predicates *)

(** A handler has returned and the mutex is free. *)
Definition settled {A} (o : outcome A) : Prop :=
  match o with
  | Ret _ w' => mutex w' = Unlocked
  | _ => False
  end.

(** The sum of a field over the records of a table. *)
Definition total (key : FileInfo → Z) (m : gmap string FileInfo) : Z :=
  foldr Z.add 0 (key <$> (map_to_list m).*2).

(** The statistics of a list of records at the instant [now]. *)
Definition tally (now : Z) (l : list FileInfo) : UploadStats :=
  mkStats (wrap64 (Z.of_nat (length l)))
    (wrap64 (foldr Z.add 0 (Size <$> l)))
    (wrap64 (foldr Z.add 0 (Downloads <$> l)))
    (wrap64 (Z.of_nat (length (filter (λ f, now < ExpiresAt f) l)))).


(** ** Auxiliary lemmas *)

Lemma strip_prefix_app p s : Str.strip_prefix (p +:+ s) p = Some s.
Proof.
  induction p as [|c p IH]; simpl; [done|].
  by rewrite Ascii.eqb_refl.
Qed.

Lemma TrimPrefix_app p s : Str.TrimPrefix (p +:+ s) p = s.
Proof. unfold Str.TrimPrefix. by rewrite strip_prefix_app. Qed.

Lemma records_lookup w id :
  records w !! id = files w !! id ≫= λ p, heap w !! p.
Proof. unfold records. by rewrite lookup_omap. Qed.

Lemma records_lookup_Some w id r :
  records w !! id = Some r ↔ ∃ p, files w !! id = Some p ∧ heap w !! p = Some r.
Proof.
  rewrite records_lookup. destruct (files w !! id) as [p|]; simpl.
  - split; [by exists p|]. by intros (? & [= <-] & ?).
  - split; [done|]. by intros (? & ? & ?).
Qed.

(** Unfolding a handler down to the state it returns. *)
Ltac run :=
  cbv beta iota zeta delta
    [bind ret get_world modify emit panic respond Lock Unlock RLock RUnlock
     files_lookup files_insert files_delete range_files deref incr_Downloads
     os_Stat os_ReadFile os_WriteFile os_Remove os_MkdirAll os_Create io_Copy
     add_log set_mutex set_files set_heap set_disk
     config files heap mutex disk denied log].

Ltac open_world w :=
  let cfg := fresh "cfg" in let fs := fresh "fs" in let hp := fresh "hp" in
  let mu := fresh "mu" in let dk := fresh "dk" in let dn := fresh "dn" in
  let lg := fresh "lg" in
  destruct w as [cfg fs hp mu dk dn lg]; simpl in *; subst.

Lemma forM_deref ps w :
  Forall (λ p, is_Some (heap w !! p)) ps →
  forM deref ps w = Ret (omap (λ p, heap w !! p) ps) w.
Proof.
  induction 1 as [|p ps [r Hr] _ IH]; [done|].
  cbn [forM omap list_omap]. unfold bind at 1. unfold deref at 1.
  rewrite Hr. unfold bind at 1. rewrite IH. done.
Qed.

Lemma snapshot_run w :
  mutex w = Unlocked →
  snapshot w = Ret ((map_to_list (files w)).*2)
                 (add_log EvRUnlock (add_log EvRLock w)).
Proof.
  intros Hmu. open_world w. unfold snapshot. run. done.
Qed.


Lemma omap_snd_pairs {B} (h : loc → option B) (l : list (string * loc)) :
  omap h (l.*2) = (omap (λ kv, pair kv.1 <$> h kv.2) l).*2.
Proof.
  induction l as [|[k p] l IH]; [done|].
  cbn. destruct (h p); cbn; by rewrite IH.
Qed.

Lemma omap_keys_sublist {B} (h : loc → option B) (l : list (string * loc)) :
  (omap (λ kv, pair kv.1 <$> h kv.2) l).*1 `sublist_of` l.*1.
Proof.
  induction l as [|[k p] l IH]; [done|].
  cbn. destruct (h p); cbn; by constructor.
Qed.

(** Reading every pointer of the table gives the records of the table,
    in some order. *)
Lemma omap_map_to_list {B} (h : loc → option B) (m : gmap string loc) :
  omap h (map_to_list m).*2 ≡ₚ (map_to_list (omap h m)).*2.
Proof.
  rewrite omap_snd_pairs. apply fmap_Permutation.
  apply NoDup_Permutation.
  - apply (NoDup_fmap_1 fst).
    eapply sublist_NoDup; [|apply omap_keys_sublist]. apply NoDup_fst_map_to_list.
  - apply NoDup_map_to_list.
  - intros [k b]. rewrite list_elem_of_omap, elem_of_map_to_list, lookup_omap.
    split.
    + intros ([k' p] & Hin & Heq). apply elem_of_map_to_list in Hin.
      cbn in Heq. destruct (h p) as [b'|] eqn:Hp; [|done].
      cbn in Heq. injection Heq as -> ->. by rewrite Hin.
    + destruct (m !! k) as [p|] eqn:Hk; [|done]. cbn. intros Hp.
      exists (k, p). split; [by apply elem_of_map_to_list|].
      cbn. by rewrite Hp.
Qed.

Section sorting.
Context {A : Type} (key : A → Z) (less : A → A → bool).
Hypothesis less_key : ∀ a b, less a b = (key b <? key a).

Local Instance in_order_total : Total (in_order less).
Proof.
  intros x y. unfold in_order. rewrite !less_key.
  destruct (Z.ltb_spec (key x) (key y)); [right|left]; [|done].
  apply Z.ltb_ge. lia.
Qed.

Lemma Sorted_weaken (R1 R2 : relation A) l :
  (∀ x y, R1 x y → R2 x y) → Sorted R1 l → Sorted R2 l.
Proof.
  intros HR. induction 1 as [|x l _ IH Hd]; constructor; [done|].
  destruct Hd; constructor; auto.
Qed.

(** The list comes out with its keys in descending order. *)
Lemma sort_Slice_descending l :
  Sorted (λ a b, key b ≤ key a) (sort_Slice less l).
Proof.
  apply Sorted_weaken with (R1 := in_order less).
  - intros x y. unfold in_order. rewrite less_key. intros H.
    by apply Z.ltb_ge in H.
  - apply Sorted_merge_sort, _.
Qed.

Lemma sort_Slice_Permutation l : sort_Slice less l ≡ₚ l.
Proof. apply merge_sort_Permutation. Qed.
End sorting.


Lemma less_for_key sortBy a b :
  less_for sortBy a b = (sort_key sortBy b <? sort_key sortBy a).
Proof.
  unfold less_for, sort_key.
  destruct (String.eqb sortBy "size"); [done|].
  destruct (String.eqb sortBy "downloads"); done.
Qed.

Lemma decode_file_ids_bulk ids : decode_file_ids (Body (bulk_request ids)) = Some ids.
Proof.
  cbn. induction ids as [|i ids IH]; [done|].
  cbn in *. destruct (mapM Json.elem_string (JStr <$> ids)); [|done].
  cbn in *. by injection IH as ->.
Qed.

Lemma bulk_delete_absent ids deleted w :
  (∀ i, i ∈ ids → files w !! i = None) →
  foldM bulk_delete_one deleted ids w = Ret deleted w.
Proof.
  induction ids as [|i ids IH]; intros Habs; [done|].
  cbn [foldM]. unfold bind at 1, bulk_delete_one at 1.
  unfold bind at 1, files_lookup at 1.
  rewrite Habs by apply list_elem_of_here.
  unfold ret at 1. apply IH. intros j Hj. apply Habs. by apply list_elem_of_further.
Qed.

(** C7, as the code has it: deleting an id that is not in the registry
    changes nothing in the registry, the store or the file system; the
    single delete answers 404 "File not found", the bulk delete answers
    without error and counts nothing as deleted. *)
Theorem delete_absent_changes_nothing w r id ids :
  mutex w = Unlocked →
  URLPath r = "/delete/" +:+ id →
  files w !! id = None →
  (∀ i, i ∈ ids → files w !! i = None) →
  (∃ w', deleteFile r w = Ret (HttpError 404 "File not found") w' ∧ same_state w w') ∧
  (∃ w', bulkDelete (bulk_request ids) w
         = Ret (JsonBody (JObj [ ("deleted", JNum 0);
                                 ("total", JNum (Z.of_nat (length ids))) ])) w'
         ∧ same_state w w').
Proof.
  intros Hmu Hpath Hid Hids. split.
  - unfold deleteFile. rewrite Hpath, TrimPrefix_app.
    open_world w. run. rewrite Hid. run.
    eexists; split; [reflexivity|]. by repeat split.
  - unfold bulkDelete. rewrite decode_file_ids_bulk.
    open_world w. cbn [Method bulk_request String.eqb Ascii.eqb Bool.eqb negb].
    unfold bind at 1. unfold Lock at 1. cbn [mutex].
    unfold bind at 1. rewrite bulk_delete_absent by done.
    run. eexists; split; [reflexivity|]. by repeat split.
Qed.

Lemma delete_absent_changes_nothing_witness :
  (∃ w', deleteFile (get_request "/delete/zz" []) one_file
         = Ret (HttpError 404 "File not found") w' ∧ same_state one_file w') ∧
  (∃ w', bulkDelete (bulk_request ["zz"; "yy"]) one_file
         = Ret (JsonBody (JObj [ ("deleted", JNum 0); ("total", JNum 2) ])) w'
         ∧ same_state one_file w').
Proof.
  apply (delete_absent_changes_nothing one_file (get_request "/delete/zz" []) "zz" ["zz"; "yy"]).
  - reflexivity.
  - reflexivity.
  - reflexivity.
  - intros i Hi. apply list_elem_of_In in Hi. simpl in Hi.
    destruct Hi as [<-|[<-|[]]]; reflexivity.
Defined.

(** C7 as stated fails for the single delete: an absent id is answered
    with the error 404 "File not found". *)
Lemma delete_absent_reports_not_found :
  files one_file !! "zz" = None ∧
  returned (deleteFile (get_request "/delete/zz" []) one_file)
  = Some (HttpError 404 "File not found").
Proof. split; reflexivity. Qed.

Lemma valid_ptrs_Forall w :
  valid_ptrs w → Forall (λ p, is_Some (heap w !! p)) (map_to_list (files w)).*2.
Proof.
  intros Hv. apply Forall_forall. intros p Hp.
  apply list_elem_of_fmap in Hp as ([k p'] & -> & Hin).
  apply elem_of_map_to_list in Hin. by apply (Hv k).
Qed.

(** Copying the pointers out under the read lock and reading each. *)
Lemma read_all_run w :
  mutex w = Unlocked → valid_ptrs w →
  (ptrs <- snapshot ;; forM deref ptrs) w
  = Ret (omap (λ p, heap w !! p) (map_to_list (files w)).*2)
      (add_log EvRUnlock (add_log EvRLock w)).
Proof.
  intros Hmu Hv. unfold bind. rewrite snapshot_run by done.
  rewrite (forM_deref _ (add_log EvRUnlock (add_log EvRLock w))); [done|].
  exact (valid_ptrs_Forall w Hv).
Qed.

Lemma same_state_logged evs w : same_state w (logged evs w).
Proof. by repeat split. Qed.

(** The JSON listing of the management page: all records, newest first. *)
Lemma manageFiles_json now r w :
  mutex w = Unlocked → valid_ptrs w → wants_json r = true →
  ∃ l, manageFiles now r w
       = Ret (JsonBody (encode_files l)) (logged [EvNet; EvRUnlock; EvRLock] w) ∧
       l ≡ₚ (map_to_list (records w)).*2 ∧
       Sorted (λ a b, UploadTime b ≤ UploadTime a) l.
Proof.
  intros Hmu Hv Hjson. unfold manageFiles.
  pose proof (read_all_run w Hmu Hv) as Hread. unfold bind in Hread |- *.
  destruct (snapshot w) as [ptrs w1| |]; [|done..].
  rewrite Hread, Hjson.
  exists (sort_Slice by_upload_time (omap (λ p, heap w !! p) (map_to_list (files w)).*2)).
  split; [|split].
  - by open_world w.
  - rewrite sort_Slice_Permutation. apply omap_map_to_list.
  - by apply (sort_Slice_descending UploadTime).
Qed.

(** Case analysis on what the file system answers. *)
Ltac split_io :=
  repeat (run;
          match goal with
          | |- context [decide (?x ∈ ?s)] => destruct (decide (x ∈ s))
          | |- context [match ?m !! ?k with _ => _ end] => destruct (m !! k) eqn:?
          end);
  run.

(** C2, as the code has it: for a record past its expiry that is still
    in the registry, a download that passes the password check answers
    404 "File expired" and removes the record, so that no later lookup or
    listing has it; a download with a wrong password answers 401 and
    leaves the record; the info lookup does not look at the expiry and
    answers with the record; the listing still shows the record. *)
Theorem expired_record_lazy_removal w now rd ri rm id pw p f :
  mutex w = Unlocked → valid_ptrs w →
  URLPath rd = "/download/" +:+ id → QueryGet rd "password" = pw →
  URLPath ri = "/info/" +:+ id →
  wants_json rm = true →
  files w !! id = Some p → heap w !! p = Some f →
  After now (ExpiresAt f) = true →
  (Password f = "" ∨ Password f = pw →
   ∃ w', downloadFile now rd w = Ret (HttpError 404 "File expired") w' ∧
         files w' = delete id (files w) ∧ records w' !! id = None ∧
         mutex w' = Unlocked) ∧
  (Password f ≠ "" → Password f ≠ pw →
   ∃ w', downloadFile now rd w = Ret (HttpError 401 "Password required") w' ∧
         same_state w w') ∧
  (∃ w', fileInfo ri w = Ret (JsonBody (Json.of_FileInfo f)) w' ∧ same_state w w') ∧
  (∃ l w', manageFiles now rm w = Ret (JsonBody (encode_files l)) w' ∧
           f ∈ l ∧ same_state w w').
Proof.
  intros Hmu Hv Hrd Hpw Hri Hrm Hid Hp Hexp. repeat split.
  - intros Hpass. unfold downloadFile, dl_lookup, dl_check, dl_expire, saveMetadata.
    rewrite Hrd, TrimPrefix_app, Hpw. open_world w. run. rewrite Hid. run.
    rewrite Hp. run.
    assert (negb (Password f =? "")%string && negb (Password f =? QueryGet rd "password")%string
            = false) as ->.
    { destruct Hpass as [-> | ->]; [done|]. rewrite String.eqb_refl.
      by rewrite andb_false_r. }
    rewrite Hexp. run. rewrite Hp. run.
    split_io.
    all: eexists; split; [reflexivity|]; split; [done|]; split; [|done].
    all: by rewrite records_lookup; cbn [files]; rewrite lookup_delete_eq.
  - intros Hne1 Hne2. unfold downloadFile, dl_lookup, dl_check.
    rewrite Hrd, TrimPrefix_app, Hpw. open_world w. run. rewrite Hid. run.
    rewrite Hp. run.
    apply String.eqb_neq in Hne1, Hne2. rewrite Hne1, Hne2. run.
    eexists; split; [reflexivity|]. by repeat split.
  - unfold fileInfo. rewrite Hri, TrimPrefix_app. open_world w. run.
    rewrite Hid. run. rewrite Hp. run.
    eexists; split; [reflexivity|]. by repeat split.
  - destruct (manageFiles_json now rm w Hmu Hv Hrm) as (l & Hrun & Hperm & _).
    exists l, (logged [EvNet; EvRUnlock; EvRLock] w).
    split; [done|]. split; [|apply same_state_logged].
    rewrite Hperm. apply list_elem_of_fmap. exists (id, f). split; [done|].
    apply elem_of_map_to_list, records_lookup_Some. eauto.
Qed.

Lemma one_file_valid : valid_ptrs one_file.
Proof.
  intros id p H. cbn in H. apply lookup_singleton_Some in H as [_ <-]. by exists report.
Qed.

Lemma expired_record_lazy_removal_witness :
  (∃ w', downloadFile 25 (get_request "/download/ab" [("password", "")]) one_file
         = Ret (HttpError 404 "File expired") w' ∧
         files w' = delete "ab" (files one_file) ∧ records w' !! "ab" = None ∧
         mutex w' = Unlocked) ∧
  (∃ w', fileInfo (get_request "/info/ab" []) one_file
         = Ret (JsonBody (Json.of_FileInfo report)) w' ∧ same_state one_file w') ∧
  (∃ l w', manageFiles 25 (get_request "/manage" []) one_file
           = Ret (JsonBody (encode_files l)) w' ∧ report ∈ l ∧ same_state one_file w').
Proof.
  destruct (expired_record_lazy_removal one_file 25
              (get_request "/download/ab" [("password", "")])
              (get_request "/info/ab" []) (get_request "/manage" [])
              "ab" "" 0%nat report) as (Hdl & _ & Hinfo & Hlist).
  - reflexivity.
  - exact one_file_valid.
  - reflexivity.
  - reflexivity.
  - reflexivity.
  - reflexivity.
  - reflexivity.
  - reflexivity.
  - reflexivity.
  - split; [|split]; [apply Hdl; by left|exact Hinfo|exact Hlist].
Defined.

(** C2 as stated fails for the info lookup: at instant 25 the record,
    expired at 20, is still answered in full. *)
Lemma expired_info_lookup_answers_record :
  After 25 (ExpiresAt report) = true ∧
  returned (fileInfo (get_request "/info/ab" []) one_file)
  = Some (JsonBody (Json.of_FileInfo report)).
Proof. split; reflexivity. Qed.

Lemma collect_match_run query tag l acc w :
  Forall (λ p, is_Some (heap w !! p)) l.*2 →
  foldM (collect_match query tag) acc l w
  = Ret (acc ++ omap (λ p, f ← heap w !! p;
                           if matches query tag f then Some p else None) l.*2) w.
Proof.
  revert acc. induction l as [|[k p] l IH]; intros acc Hv.
  { cbn. by rewrite app_nil_r. }
  apply Forall_cons in Hv as [[f Hf] Hv]. cbn [snd] in Hf.
  cbn [foldM]. unfold bind at 1, collect_match at 1, bind at 1, deref at 1.
  cbv beta iota delta [snd]. rewrite Hf. unfold ret at 1. rewrite IH by done.
  cbn [fmap list_fmap omap list_omap snd]. rewrite Hf. cbn.
  destruct (matches query tag f); [|done]. by rewrite <- app_assoc.
Qed.

Lemma omap_selected (h : loc → option FileInfo) (P : FileInfo → bool) (ps : list loc) :
  omap h (omap (λ p, f ← h p; if P f then Some p else None) ps)
  = omap (λ p, f ← h p; if P f then Some f else None) ps.
Proof.
  induction ps as [|p ps IH]; [done|].
  cbn. destruct (h p) as [f|] eqn:Hp; cbn; [|done].
  destruct (P f); cbn; [|done]. by rewrite Hp, IH.
Qed.

Lemma selected_omap query tag w :
  omap (λ p, f ← heap w !! p; if matches query tag f then Some f else None) (files w)
  = selected query tag w.
Proof.
  apply map_eq. intros k. unfold selected, records.
  rewrite lookup_omap, map_lookup_filter, lookup_omap.
  destruct (files w !! k) as [p|]; [|done]. cbn.
  destruct (heap w !! p) as [f|]; [|done]. cbn.
  destruct (matches query tag f) eqn:Hm; cbn.
  - by rewrite option_guard_True.
  - by rewrite option_guard_False.
Qed.

Lemma omap_valid_Forall {B} (h : loc → option B) (g : loc → option loc) (ps : list loc) :
  (∀ p q, g p = Some q → is_Some (h q)) → Forall (λ p, is_Some (h p)) (omap g ps).
Proof.
  intros Hg. induction ps as [|p ps IH]; [constructor|].
  cbn. destruct (g p) as [q|] eqn:Hq; [|done]. constructor; eauto.
Qed.

(** The search handler: the selected records, sorted by the requested
    key in descending order, and the state as it was. *)
Lemma searchFiles_run r w :
  mutex w = Unlocked → valid_ptrs w →
  ∃ l, searchFiles r w
       = Ret (JsonBody (encode_nilable l)) (logged [EvNet; EvRUnlock; EvRLock] w) ∧
       l ≡ₚ (map_to_list (selected (QueryGet r "q") (QueryGet r "tag") w)).*2 ∧
       Sorted (λ a b, sort_key (QueryGet r "sort") b ≤ sort_key (QueryGet r "sort") a) l.
Proof.
  intros Hmu Hv. unfold searchFiles.
  set (query := QueryGet r "q"). set (tag := QueryGet r "tag").
  set (sortBy := QueryGet r "sort").
  unfold bind at 1. unfold RLock at 1. rewrite Hmu.
  unfold bind at 1. unfold range_files at 1.
  unfold bind at 1.
  rewrite (collect_match_run query tag _ [] (add_log EvRLock (set_mutex (RLocked 1) w)))
    by exact (valid_ptrs_Forall w Hv).
  unfold bind at 1. unfold RUnlock at 1, modify at 1.
  unfold bind at 1. rewrite forM_deref.
  2:{ apply omap_valid_Forall. intros p q Hq. cbn in Hq |- *.
      destruct (heap w !! p) as [f|] eqn:Hp; [|done]. cbn in Hq.
      destruct (matches query tag f); [|done]. injection Hq as <-. by rewrite Hp. }
  cbn [app heap add_log set_mutex files]. rewrite omap_selected.
  exists (sort_Slice (less_for sortBy)
            (omap (λ p, f ← heap w !! p; if matches query tag f then Some f else None)
               (map_to_list (files w)).*2)).
  split; [|split].
  - by open_world w.
  - rewrite sort_Slice_Permutation, omap_map_to_list.
    by rewrite selected_omap.
  - apply (sort_Slice_descending (sort_key sortBy)), less_for_key.
Qed.

Lemma count_stats_run now l stats w :
  Forall (λ p, is_Some (heap w !! p)) l.*2 →
  ∃ stats', foldM (count_stats now) stats l w = Ret stats' w.
Proof.
  revert stats. induction l as [|[k p] l IH]; intros stats Hv; [by eexists|].
  apply Forall_cons in Hv as [[f Hf] Hv]. cbn [snd] in Hf.
  cbn [foldM]. unfold bind at 1, count_stats at 1, bind at 1, deref at 1.
  cbv beta iota delta [snd]. rewrite Hf. unfold ret at 1. by apply IH.
Qed.

(** The HTML management page: one row per record, newest first. *)
Lemma manageFiles_html now r w :
  mutex w = Unlocked → valid_ptrs w → wants_json r = false →
  ∃ l stats, manageFiles now r w
             = Ret (ManagePage (template_row now <$> l) stats
                      (QueryGet r "q") (QueryGet r "tag"))
                 (logged [EvNet; EvRUnlock; EvRLock; EvRUnlock; EvRLock] w) ∧
             l ≡ₚ (map_to_list (records w)).*2.
Proof.
  intros Hmu Hv Hjson. unfold manageFiles.
  pose proof (read_all_run w Hmu Hv) as Hread. unfold bind in Hread.
  unfold bind at 1. unfold bind at 1.
  destruct (snapshot w) as [ptrs w1| |]; [|done..].
  rewrite Hread, Hjson.
  unfold bind at 1. unfold RLock at 1. cbn [mutex add_log]. rewrite Hmu.
  unfold bind at 1. unfold range_files at 1.
  unfold bind at 1.
  match goal with
  | |- context [foldM (count_stats now) ?s ?l ?w0] =>
      destruct (count_stats_run now l s w0) as [stats Hstats];
        [exact (valid_ptrs_Forall w Hv)|rewrite Hstats]
  end.
  exists (sort_Slice by_upload_time (omap (λ p, heap w !! p) (map_to_list (files w)).*2)), stats.
  split.
  - by open_world w.
  - rewrite sort_Slice_Permutation. apply omap_map_to_list.
Qed.

Lemma of_FileInfo_discloses f :
  Password f ≠ "" → discloses (Password f) (Json.of_FileInfo f).
Proof.
  intros Hpw. unfold discloses, Json.of_FileInfo.
  destruct (decide (Password f = "")); [done|].
  eexists. split; [reflexivity|]. reflexivity.
Qed.

Lemma two_files_valid : valid_ptrs two_files.
Proof.
  intros id p H. cbn in H.
  apply lookup_insert_Some in H as [[_ <-]|[_ H]]; [by exists report|].
  apply lookup_singleton_Some in H as [_ <-]. by exists secret.
Qed.

(** C10: a record with a password has it in every serialized form the
    read-only handlers produce: the JSON of the info lookup, of a search
    that selects the record and of the management listing, and the
    download link of its row on the management page. *)
Theorem password_in_serialized_output w now ri rs rm rh id p f :
  mutex w = Unlocked → valid_ptrs w →
  URLPath ri = "/info/" +:+ id →
  matches (QueryGet rs "q") (QueryGet rs "tag") f = true →
  wants_json rm = true → wants_json rh = false →
  files w !! id = Some p → heap w !! p = Some f →
  Password f ≠ "" →
  discloses (Password f) (Json.of_FileInfo f) ∧
  (∃ w', fileInfo ri w = Ret (JsonBody (Json.of_FileInfo f)) w') ∧
  (∃ js w', searchFiles rs w = Ret (JsonBody (JArr js)) w' ∧ Json.of_FileInfo f ∈ js) ∧
  (∃ js w', manageFiles now rm w = Ret (JsonBody (JArr js)) w' ∧ Json.of_FileInfo f ∈ js) ∧
  (∃ rows stats q t w', manageFiles now rh w = Ret (ManagePage rows stats q t) w' ∧
     ∃ tf, tf ∈ rows ∧ row tf = f ∧
           href tf = "/download/" +:+ ID f +:+ "?password=" +:+ Password f).
Proof.
  intros Hmu Hv Hri Hsel Hrm Hrh Hid Hp Hpw.
  assert (records w !! id = Some f) as Hrec by (apply records_lookup_Some; eauto).
  split; [by apply of_FileInfo_discloses|]. split; [|split; [|split]].
  - unfold fileInfo. rewrite Hri, TrimPrefix_app. open_world w. run.
    rewrite Hid. run. rewrite Hp. run. by eexists.
  - destruct (searchFiles_run rs w Hmu Hv) as (l & Hrun & Hperm & _).
    assert (f ∈ l) as Hin.
    { rewrite Hperm. apply list_elem_of_fmap. exists (id, f). split; [done|].
      apply elem_of_map_to_list. unfold selected.
      by apply map_lookup_filter_Some. }
    destruct l as [|f0 l]; [by apply elem_of_nil in Hin|].
    eexists (Json.of_FileInfo <$> f0 :: l), _. split; [exact Hrun|].
    apply list_elem_of_fmap. eauto.
  - destruct (manageFiles_json now rm w Hmu Hv Hrm) as (l & Hrun & Hperm & _).
    eexists (Json.of_FileInfo <$> l), _. split; [exact Hrun|].
    apply list_elem_of_fmap. exists f. split; [done|].
    rewrite Hperm. apply list_elem_of_fmap. exists (id, f). split; [done|].
    by apply elem_of_map_to_list.
  - destruct (manageFiles_html now rh w Hmu Hv Hrh) as (l & stats & Hrun & Hperm).
    eexists _, _, _, _, _. split; [exact Hrun|].
    exists (template_row now f). split; [|split].
    + apply list_elem_of_fmap. exists f. split; [done|].
      rewrite Hperm. apply list_elem_of_fmap. exists (id, f). split; [done|].
      by apply elem_of_map_to_list.
    + done.
    + cbn. unfold download_href. by destruct (decide (Password f = "")).
Qed.

Lemma password_in_serialized_output_witness :
  discloses "abc" (Json.of_FileInfo secret) ∧
  (∃ w', fileInfo (get_request "/info/cd" []) two_files
         = Ret (JsonBody (Json.of_FileInfo secret)) w') ∧
  (∃ js w', searchFiles (get_request "/search" [("tag", "work")]) two_files
            = Ret (JsonBody (JArr js)) w' ∧ Json.of_FileInfo secret ∈ js) ∧
  (∃ js w', manageFiles 15 (get_request "/manage" []) two_files
            = Ret (JsonBody (JArr js)) w' ∧ Json.of_FileInfo secret ∈ js) ∧
  (∃ rows stats q t w', manageFiles 15 (html_request "/manage" []) two_files
                        = Ret (ManagePage rows stats q t) w' ∧
     ∃ tf, tf ∈ rows ∧ row tf = secret ∧ href tf = "/download/cd?password=abc").
Proof.
  apply (password_in_serialized_output two_files 15 (get_request "/info/cd" [])
           (get_request "/search" [("tag", "work")]) (get_request "/manage" [])
           (html_request "/manage" []) "cd" 1%nat secret).
  - reflexivity.
  - exact two_files_valid.
  - reflexivity.
  - reflexivity.
  - reflexivity.
  - reflexivity.
  - reflexivity.
  - reflexivity.
  - discriminate.
Defined.

Lemma matches_spec query tag f :
  matches query tag f = true ↔
  (query = "" ∨
   Str.Contains (Str.ToLower (Filename f)) (Str.ToLower query) = true ∨
   Str.Contains (Str.ToLower (Description f)) (Str.ToLower query) = true) ∧
  (tag = "" ∨ ∃ t, t ∈ tag_list f ∧ Str.EqualFold t tag = true).
Proof.
  unfold matches.
  assert (existsb (λ t, Str.EqualFold t tag) (tag_list f) = true
          ↔ ∃ t, t ∈ tag_list f ∧ Str.EqualFold t tag = true) as Htag.
  { rewrite existsb_exists. split; intros (t & Ht & He); exists t;
      (split; [by apply list_elem_of_In|done]). }
  destruct (decide (query = "")) as [->|Hq], (decide (tag = "")) as [->|Ht]; cbn.
  - split; [intros _; split; by left|done].
  - rewrite Htag. split; [intros H; split; [by left|by right]|].
    intros [_ [?|?]]; done.
  - rewrite orb_true_iff. split; [intros H; split; [by right|by left]|].
    intros [[?|?] _]; done.
  - rewrite andb_true_iff, orb_true_iff, Htag.
    split; [intros [H1 H2]; split; by right|].
    intros [[?|?] [?|?]]; done.
Qed.

Lemma in_int_bounds z : Str.in_int z = true ↔ - 2 ^ 63 ≤ z < 2 ^ 63.
Proof. unfold Str.in_int. rewrite andb_true_iff, Z.leb_le, Z.ltb_lt. done. Qed.

Lemma parse_limit_bounds s : 1 ≤ parse_limit s ≤ 1000.
Proof.
  unfold parse_limit. destruct (decide (s = "")) as [_|_]; [lia|].
  destruct (Str.Atoi s) as [n|]; [|lia].
  destruct (Z.ltb_spec 0 n), (Z.leb_spec n 1000); cbn; lia.
Qed.

Lemma Atoi_empty : Str.Atoi "" = None.
Proof. reflexivity. Qed.

(** A requested limit is taken when it is between 1 and 1000; any other
    request falls back to 50. *)
Lemma parse_limit_spec s :
  parse_limit s = match Str.Atoi s with
                  | Some n => if (0 <? n) && (n <=? 1000) then n else 50
                  | None => 50
                  end.
Proof. unfold parse_limit. destruct (decide (s = "")) as [->|]; done. Qed.

Lemma parse_offset_spec s :
  parse_offset s = match Str.Atoi s with
                   | Some n => if 0 <=? n then n else 0
                   | None => 0
                   end.
Proof. unfold parse_offset. destruct (decide (s = "")) as [->|]; done. Qed.

Lemma Atoi_in_int s n : Str.Atoi s = Some n → - 2 ^ 63 ≤ n < 2 ^ 63.
Proof.
  unfold Str.Atoi, Str.checked. intros H. apply in_int_bounds.
  repeat case_match; simplify_eq; done.
Qed.

Lemma parse_offset_bounds s : 0 ≤ parse_offset s < 2 ^ 63.
Proof.
  rewrite parse_offset_spec. destruct (Str.Atoi s) as [n|] eqn:Hn; [|lia].
  apply Atoi_in_int in Hn. destruct (Z.leb_spec 0 n); lia.
Qed.

Lemma wrap64_small z : - 2 ^ 63 ≤ z < 2 ^ 63 → wrap64 z = z.
Proof. intros Hz. unfold wrap64. rewrite Z.mod_small; lia. Qed.

(** Inside the 64-bit range, a page is [limit] entries from [offset] on. *)
Lemma paginate_take_drop {A} offset limit (l : list A) :
  0 ≤ offset → 0 < limit → offset + limit < 2 ^ 63 →
  paginate offset limit l = take (Z.to_nat limit) (drop (Z.to_nat offset) l).
Proof.
  intros Ho Hl Hsum. unfold paginate. rewrite wrap64_small by lia.
  destruct (Z.leb_spec (Z.of_nat (length l)) offset) as [Hge|Hlt].
  { rewrite drop_ge by lia. by rewrite take_nil. }
  destruct (Z.ltb_spec (Z.of_nat (length l)) (offset + limit)) as [Hend|Hend].
  - rewrite !take_ge; [done|rewrite length_drop; lia|rewrite length_drop; lia].
  - f_equal. lia.
Qed.

(** The listing of the API: all records, newest first, cut to the page. *)
Lemma listFilesAPI_run r w :
  mutex w = Unlocked → valid_ptrs w →
  ∃ l, listFilesAPI r w
       = Ret (JsonBody (JObj [ ("files", encode_files (paginate (page_offset r) (page_limit r) l));
                               ("limit", JNum (page_limit r));
                               ("offset", JNum (page_offset r));
                               ("total", JNum (Z.of_nat (length l))) ]))
           (logged [EvNet; EvRUnlock; EvRLock] w) ∧
       l ≡ₚ (map_to_list (records w)).*2 ∧
       descending UploadTime l.
Proof.
  intros Hmu Hv. unfold listFilesAPI.
  pose proof (read_all_run w Hmu Hv) as Hread. unfold bind in Hread |- *.
  destruct (snapshot w) as [ptrs w1| |]; [|done..].
  rewrite Hread.
  exists (sort_Slice by_upload_time (omap (λ p, heap w !! p) (map_to_list (files w)).*2)).
  split; [|split].
  - by open_world w.
  - rewrite sort_Slice_Permutation. apply omap_map_to_list.
  - by apply (sort_Slice_descending UploadTime).
Qed.

(** C9, as the code has it: the search answers exactly the records that
    match all supplied filters (the query is looked for, ignoring case,
    in the stored file name and the description; the tag must equal one
    of the record's tags ignoring case), sorted in descending order of
    size, of downloads or, by default, of upload time, and it is not
    paginated.  The listing of the API answers all records, newest first,
    cut to a page: the offset is 0 unless a non-negative one is given, the
    limit is the requested one when that is between 1 and 1000 and 50
    otherwise.  Neither changes the registry. *)
Theorem search_and_listing r w :
  mutex w = Unlocked → valid_ptrs w →
  (∃ l w', searchFiles r w = Ret (JsonBody (encode_nilable l)) w' ∧
           l ≡ₚ (map_to_list (selected (QueryGet r "q") (QueryGet r "tag") w)).*2 ∧
           descending (sort_key (QueryGet r "sort")) l ∧
           same_state w w') ∧
  (∀ id f, selected (QueryGet r "q") (QueryGet r "tag") w !! id = Some f ↔
           records w !! id = Some f ∧
           (QueryGet r "q" = "" ∨
            Str.Contains (Str.ToLower (Filename f)) (Str.ToLower (QueryGet r "q")) = true ∨
            Str.Contains (Str.ToLower (Description f)) (Str.ToLower (QueryGet r "q")) = true) ∧
           (QueryGet r "tag" = "" ∨
            ∃ t, t ∈ tag_list f ∧ Str.EqualFold t (QueryGet r "tag") = true)) ∧
  (∃ l w', listFilesAPI r w
           = Ret (JsonBody (JObj [ ("files", encode_files (paginate (page_offset r) (page_limit r) l));
                                   ("limit", JNum (page_limit r));
                                   ("offset", JNum (page_offset r));
                                   ("total", JNum (Z.of_nat (length l))) ])) w' ∧
           l ≡ₚ (map_to_list (records w)).*2 ∧
           descending UploadTime l ∧
           (page_offset r + page_limit r < 2 ^ 63 →
            paginate (page_offset r) (page_limit r) l
            = take (Z.to_nat (page_limit r)) (drop (Z.to_nat (page_offset r)) l)) ∧
           same_state w w') ∧
  1 ≤ page_limit r ≤ 1000 ∧
  page_limit r = match Str.Atoi (QueryGet r "limit") with
                 | Some n => if (0 <? n) && (n <=? 1000) then n else 50
                 | None => 50
                 end ∧
  page_offset r = match Str.Atoi (QueryGet r "offset") with
                  | Some n => if 0 <=? n then n else 0
                  | None => 0
                  end.
Proof.
  intros Hmu Hv. split; [|split; [|split; [|split; [|split]]]].
  - destruct (searchFiles_run r w Hmu Hv) as (l & Hrun & Hperm & Hsort).
    eexists l, _. split; [exact Hrun|]. repeat split; try done.
  - intros id f. unfold selected. rewrite map_lookup_filter_Some. cbn.
    by rewrite matches_spec.
  - destruct (listFilesAPI_run r w Hmu Hv) as (l & Hrun & Hperm & Hsort).
    eexists l, _. split; [exact Hrun|]. repeat split; try done.
    intros Hsum. apply paginate_take_drop; [|pose proof (parse_limit_bounds (QueryGet r "limit")); unfold page_limit in *; lia|done].
    apply parse_offset_bounds.
  - apply parse_limit_bounds.
  - apply parse_limit_spec.
  - apply parse_offset_spec.
Qed.

Lemma search_and_listing_witness :
  ∃ l w', searchFiles (get_request "/search" [("q", "PLAN"); ("sort", "size")]) two_files
          = Ret (JsonBody (encode_nilable l)) w' ∧
          l ≡ₚ (map_to_list (selected "PLAN" "" two_files)).*2 ∧
          descending Size l ∧ same_state two_files w'.
Proof.
  destruct (search_and_listing
              (get_request "/search" [("q", "PLAN"); ("sort", "size")]) two_files)
    as [Hsearch _].
  - reflexivity.
  - exact two_files_valid.
  - exact Hsearch.
Defined.

(** C9 as stated fails on pagination: a search that asks for a page of
    one entry answers both matching records, and a listing that asks for
    5000 entries uses the limit 50, not the maximum 1000. *)
Lemma search_is_not_paginated :
  returned (searchFiles (get_request "/search" [("limit", "1"); ("offset", "0")]) two_files)
  = Some (JsonBody (JArr [Json.of_FileInfo secret; Json.of_FileInfo report])) ∧
  page_limit (get_request "/api/files" [("limit", "5000")]) = 50.
Proof. split; reflexivity. Qed.

(** A request that runs alone goes through its four stretches in turn. *)
Lemma downloadFile_stepwise now r w :
  downloadFile now r w
  = (t1 <- dl_step now r AtLookup ;;
     t2 <- dl_step now r t1 ;;
     t3 <- dl_step now r t2 ;;
     t4 <- dl_step now r t3 ;;
     match t4 with
     | Finished resp => ret resp
     | _ => panic
     end) w.
Proof.
  unfold downloadFile.
  repeat (cbn [dl_step]; unfold bind, ret, panic;
          try match goal with
            | |- context [match dl_lookup ?a ?w0 with _ => _ end] =>
                destruct (dl_lookup a w0) as [[?|] ?| |]
            | |- context [match dl_check ?a ?b ?c ?w0 with _ => _ end] =>
                destruct (dl_check a b c w0) as [[] ?| |]
            | |- context [match dl_expire ?a ?b ?w0 with _ => _ end] =>
                destruct (dl_expire a b w0) as [? ?| |]
            | |- context [match dl_count ?a ?w0 with _ => _ end] =>
                destruct (dl_count a w0) as [[] ?| |]
            | |- context [match dl_serve ?a ?w0 with _ => _ end] =>
                destruct (dl_serve a w0) as [? ?| |]
            | |- context [match respond ?a ?w0 with _ => _ end] =>
                destruct (respond a w0) as [? ?| |]
            end; try reflexivity).
Qed.

(** A request that runs alone on a record at its limit is refused and
    leaves the counter as it is. *)
Lemma download_at_limit_refused now r w id p f :
  mutex w = Unlocked → URLPath r = "/download/" +:+ id →
  files w !! id = Some p → heap w !! p = Some f →
  Password f = "" ∨ Password f = QueryGet r "password" →
  After now (ExpiresAt f) = false →
  0 < MaxDownloads f → MaxDownloads f ≤ Downloads f →
  ∃ w', downloadFile now r w = Ret (HttpError 403 "Download limit reached") w' ∧
        same_state w w'.
Proof.
  intros Hmu Hr Hid Hp Hpass Hexp Hmax Hlim.
  unfold downloadFile, dl_lookup, dl_check. rewrite Hr, TrimPrefix_app.
  open_world w. run. rewrite Hid. run. rewrite Hp. run.
  assert (negb (Password f =? "")%string && negb (Password f =? QueryGet r "password")%string
          = false) as ->.
  { destruct Hpass as [-> | ->]; [done|]. rewrite String.eqb_refl.
    by rewrite andb_false_r. }
  rewrite Hexp. run.
  apply Z.ltb_lt in Hmax. apply Z.leb_le in Hlim. rewrite Hmax, Hlim. run.
  eexists; split; [reflexivity|]. by repeat split.
Qed.

(** A request that runs alone and is granted counts one download, and
    stays within a positive limit. *)
Lemma download_alone_counts_within_limit now r w id p f :
  mutex w = Unlocked → URLPath r = "/download/" +:+ id →
  files w !! id = Some p → heap w !! p = Some f →
  Password f = "" ∨ Password f = QueryGet r "password" →
  After now (ExpiresAt f) = false →
  ¬ (0 < MaxDownloads f ∧ MaxDownloads f ≤ Downloads f) →
  - 2 ^ 63 ≤ Downloads f < 2 ^ 63 - 1 →
  ∃ resp w', downloadFile now r w = Ret resp w' ∧
             files w' = files w ∧
             heap w' = <[p := set_Downloads (Downloads f + 1) f]> (heap w) ∧
             (0 < MaxDownloads f → Downloads f + 1 ≤ MaxDownloads f).
Proof.
  intros Hmu Hr Hid Hp Hpass Hexp Hlim Hrange.
  unfold downloadFile, dl_lookup, dl_check, dl_count, dl_serve.
  rewrite Hr, TrimPrefix_app.
  open_world w. run. rewrite Hid. run. rewrite Hp. run.
  assert (negb (Password f =? "")%string && negb (Password f =? QueryGet r "password")%string
          = false) as ->.
  { destruct Hpass as [-> | ->]; [done|]. rewrite String.eqb_refl.
    by rewrite andb_false_r. }
  rewrite Hexp. run.
  assert ((0 <? MaxDownloads f) && (MaxDownloads f <=? Downloads f) = false) as ->.
  { apply andb_false_iff.
    destruct (Z.ltb_spec 0 (MaxDownloads f)); [|by left].
    destruct (Z.leb_spec (MaxDownloads f) (Downloads f)); [|by right]. lia. }
  run. rewrite Hp. run. rewrite lookup_insert_eq. run.
  rewrite wrap64_small by lia.
  eexists _, _. split; [reflexivity|]. repeat split. lia.
Qed.

(** C1 fails on the code when two downloads overlap.  The record allows
    one download and has none; both requests read the counter before
    either increments it, both are served, and the counter ends at 2. *)
Theorem concurrent_downloads_exceed_limit :
  ∃ w', run_schedule 15 (get_request "/download/ab" []) 15 (get_request "/download/ab" [])
          both_pass_then_count AtLookup AtLookup one_file
        = Ret (Finished (Served "report.txt" "text/plain" "cafe" (Bytes ["h"%byte; "i"%byte])),
               Finished (Served "report.txt" "text/plain" "cafe" (Bytes ["h"%byte; "i"%byte]))) w' ∧
        MaxDownloads <$> records one_file !! "ab" = Some 1 ∧
        Downloads <$> records one_file !! "ab" = Some 0 ∧
        MaxDownloads <$> records w' !! "ab" = Some 1 ∧
        Downloads <$> records w' !! "ab" = Some 2.
Proof. eexists. split; [vm_compute; reflexivity|]. repeat split. Qed.

(** Unfolding the handlers without loops, and case analysis on every
    answer of the environment. *)
Ltac run_handler :=
  cbv beta iota zeta delta
    [uploadFile upload_stored saveMetadata downloadFile dl_lookup dl_check dl_expire
     dl_count dl_serve deleteFile fileInfo healthCheck getStats
     bind ret get_world modify emit panic respond Lock Unlock RLock RUnlock
     files_lookup files_insert files_delete range_files deref incr_Downloads new
     os_Stat os_ReadFile os_WriteFile os_Remove os_MkdirAll os_Create io_Copy
     add_log set_mutex set_files set_heap set_disk
     config files heap mutex disk denied log].

Ltac crack :=
  repeat (run_handler;
          match goal with
          | |- context [decide (?x ∈ ?s)] => destruct (decide (x ∈ s))
          | |- context [bool_decide ?P] => destruct (bool_decide P) eqn:?
          | |- context [match ?m !! ?k with _ => _ end] => destruct (m !! k) eqn:?
          | |- context [match fault ?e with _ => _ end] => destruct (fault e) eqn:?
          | |- context [match Multipart ?r with _ => _ end] => destruct (Multipart r) eqn:?
          | |- context [if ?b then _ else _] => destruct b eqn:?
          end);
  run_handler.


Section io_and_lock.
Variable sha256_Sum : list byte → list byte.


End io_and_lock.





Lemma swept_nil now w c : swept now [] w c w c.
Proof.
  unfold swept. repeat split; try done; try lia.
  - intros _ k p f Hin. inversion Hin.
  - intros k p f Hin. inversion Hin.
  - intros k p f Hin. inversion Hin.
Qed.

(** An entry that is not eligible is passed over. *)
Lemma swept_skip now k p f l w c w' c' :
  heap w !! p = Some f → eligible now f = false →
  swept now l w c w' c' → swept now ((k, p) :: l) w c w' c'.
Proof.
  intros Hp Hel (Hc & Hh & Hm & Hd & Hlog & Hle & Hcnt & Hf0 & Hd0 & Hf1 & Hf2 & Hd1 & Hd2).
  unfold swept. repeat split; try done.
  - unfold sweep_events. cbn [flat_map snd fst]. by rewrite Hp, Hel.
  - intros Heq k0 p0 f0 Hin Hp0. apply elem_of_cons in Hin as [[= -> ->]|Hin].
    + congruence.
    + by apply (proj1 Hcnt Heq k0 p0).
  - intros Hall. apply Hcnt. intros k0 p0 f0 Hin. apply (Hall k0). by right.
  - intros k0 p0 f0 Hin Hp0 Hel0. apply elem_of_cons in Hin as [[= -> ->]|Hin].
    + congruence.
    + by apply (Hf1 k0 p0 f0).
  - intros k0 Hall. apply Hf2. intros p0 f0 Hin. apply Hall. by right.
  - intros k0 p0 f0 Hin Hp0 Hel0. apply elem_of_cons in Hin as [[= -> ->]|Hin].
    + congruence.
    + by apply (Hd1 k0 p0 f0).
  - intros path Hall. apply Hd2. intros k0 p0 f0 Hin. apply (Hall k0). by right.
Qed.

(** An eligible entry: its file is removed unless the removal fails,
    then its entry, and the sweep goes on from the world [w1] so reached. *)
Lemma swept_remove now k p f l w w1 c w' c' :
  heap w !! p = Some f → eligible now f = true →
  config w1 = config w → heap w1 = heap w → mutex w1 = mutex w → denied w1 = denied w →
  files w1 = delete k (files w) →
  log w1 = EvDelete k :: EvDisk OpRemove (Path f) :: log w →
  (Path f ∉ denied w → disk w1 = delete (Path f) (disk w)) →
  (disk w1 = disk w ∨ disk w1 = delete (Path f) (disk w)) →
  swept now l w1 (c + 1) w' c' → swept now ((k, p) :: l) w c w' c'.
Proof.
  intros Hp Hel Hc1 Hh1 Hm1 Hd1 Hf1 Hl1 Hrm Hdk
    (Hc & Hh & Hm & Hd & Hlog & Hle & Hcnt & Hf0 & Hd0 & HF1 & HF2 & HD1 & HD2).
  rewrite Hh1 in *. rewrite Hd1 in *.
  assert (∀ path, disk w !! path = None → disk w1 !! path = None) as Hmono.
  { intros path Hnone. destruct Hdk as [->| ->]; [done|].
    destruct (decide (Path f = path)) as [->|]; [apply lookup_delete_eq|].
    by rewrite lookup_delete_ne. }
  unfold swept. repeat split; try congruence.
  - rewrite Hlog, Hl1. unfold sweep_events. cbn [flat_map snd fst]. rewrite Hp, Hel.
    cbn [app]. rewrite !reverse_cons, <- !app_assoc. done.
  - lia.
  - intros ->. lia.
  - intros Hall. specialize (Hall k p f (list_elem_of_here _ _) Hp). congruence.
  - intros k0 Hnone. apply Hf0. rewrite Hf1.
    destruct (decide (k = k0)) as [->|]; [apply lookup_delete_eq|].
    by rewrite lookup_delete_ne.
  - intros path Hnone. by apply Hd0, Hmono.
  - intros k0 p0 f0 Hin Hp0 Hel0. apply elem_of_cons in Hin as [[= -> ->]|Hin].
    + apply Hf0. rewrite Hf1. apply lookup_delete_eq.
    + by apply (HF1 k0 p0 f0).
  - intros k0 Hall.
    assert (k ≠ k0) as Hne.
    { intros ->. specialize (Hall p f (list_elem_of_here _ _) Hp). congruence. }
    rewrite HF2; [by rewrite Hf1, lookup_delete_ne|].
    intros p0 f0 Hin. apply Hall. by right.
  - intros k0 p0 f0 Hin Hp0 Hel0 Hnd. apply elem_of_cons in Hin as [[= -> ->]|Hin].
    + assert (f0 = f) as -> by congruence.
      apply Hd0. rewrite Hrm by done. apply lookup_delete_eq.
    + by apply (HD1 k0 p0 f0).
  - intros path Hall.
    assert (Path f ≠ path) as Hne by (apply (Hall k p f); [left|done..]).
    rewrite HD2.
    + destruct Hdk as [->| ->]; [done|]. by rewrite lookup_delete_ne.
    + intros k0 p0 f0 Hin. apply (Hall k0). by right.
Qed.

(** The loop of the sweeper over the entries [l]. *)
Lemma sweep_fold now l w c :
  Forall (λ p, is_Some (heap w !! p)) l.*2 →
  ∃ w' c', foldM (sweep_one now) c l w = Ret c' w' ∧ swept now l w c w' c'.
Proof.
  revert w c. induction l as [|[k p] l IH]; intros w c Hv.
  { exists w, c. split; [done|]. apply swept_nil. }
  apply Forall_cons in Hv as [[f Hf] Hv]. cbn [snd] in Hf.
  cbn [foldM]. unfold bind at 1, sweep_one at 1, bind at 1, deref at 1.
  cbv beta iota delta [snd fst]. rewrite Hf.
  destruct (eligible now f) eqn:Hel.
  - unfold bind at 1.
    destruct (os_Remove (Path f) w) as [ok w1| |] eqn:Hrm.
    2,3: (revert Hrm; open_world w; crack; done).
    unfold bind at 1, files_delete at 1, modify at 1, ret at 1.
    set (w2 := add_log (EvDelete k) (set_files (delete k (files w1)) w1)).
    assert (config w1 = config w ∧ heap w1 = heap w ∧ mutex w1 = mutex w ∧
            denied w1 = denied w ∧ files w1 = files w ∧
            log w1 = EvDisk OpRemove (Path f) :: log w ∧
            (Path f ∉ denied w → disk w1 = delete (Path f) (disk w)) ∧
            (disk w1 = disk w ∨ disk w1 = delete (Path f) (disk w)))
      as (Hc1 & Hh1 & Hm1 & Hd1 & Hf1 & Hl1 & Hrm1 & Hdk1).
    { revert Hrm. open_world w. crack; intros [= <- <-]; cbn; repeat split; auto.
      - done.
      - intros _. symmetry. by apply delete_id. }
    destruct (IH w2 (c + 1)) as (w' & c' & Hrun & Hpost).
    { unfold w2. cbn. by rewrite Hh1. }
    exists w', c'. split; [done|].
    apply (swept_remove now k p f l w w2); unfold w2; cbn; try done; congruence.
  - unfold ret at 1. destruct (IH w c Hv) as (w' & c' & Hrun & Hpost).
    exists w', c'. split; [done|]. by apply (swept_skip now k p f).
Qed.

Lemma sweep_events_none now h l :
  (∀ k p f, (k, p) ∈ l → h !! p = Some f → eligible now f = false) →
  sweep_events now h l = [].
Proof.
  induction l as [|[k p] l IH]; intros Hnone; [done|].
  unfold sweep_events. cbn [flat_map snd fst].
  fold (sweep_events now h l). rewrite IH.
  - destruct (h !! p) as [f|] eqn:Hp; [|done].
    by rewrite (Hnone k p f (list_elem_of_here _ _) Hp).
  - intros k0 p0 f0 Hin. apply (Hnone k0). by right.
Qed.

(** The sweeper as a whole: the loop under the write lock, and then
    either the unlock or, after a removal, the call of [saveMetadata],
    which asks for the read lock while the write lock is held. *)
Lemma cleanup_run now w :
  mutex w = Unlocked → valid_ptrs w →
  ∃ w1 c, swept now (map_to_list (files w)) (add_log EvLock (set_mutex WLocked w)) 0 w1 c ∧
          cleanup now w = if 0 <? c then Hang w1
                          else Ret tt (add_log EvUnlock (set_mutex Unlocked w1)).
Proof.
  intros Hmu Hv. unfold cleanup.
  unfold bind at 1. unfold Lock at 1. rewrite Hmu.
  unfold bind at 1. unfold range_files at 1.
  destruct (sweep_fold now (map_to_list (files w))
              (add_log EvLock (set_mutex WLocked w)) 0) as (w1 & c & Hrun & Hpost).
  { exact (valid_ptrs_Forall w Hv). }
  exists w1, c. split; [done|].
  unfold bind at 1. cbn [files add_log set_mutex]. rewrite Hrun.
  destruct Hpost as (_ & _ & Hm & _).
  destruct (0 <? c).
  - unfold bind at 1. unfold bind at 1. unfold saveMetadata.
    unfold bind at 1. unfold RLock at 1. by rewrite Hm.
  - unfold bind at 1. unfold ret at 1. done.
Qed.

(** When the sweep removes a record it never returns: it blocks on its
    own write lock, which stays held. *)
Lemma cleanup_blocks_after_removal now w id f :
  mutex w = Unlocked → valid_ptrs w →
  records w !! id = Some f → eligible now f = true →
  ∃ w', cleanup now w = Hang w' ∧ mutex w' = WLocked.
Proof.
  intros Hmu Hv Hrec Hel.
  destruct (cleanup_run now w Hmu Hv) as (w1 & c & Hpost & Hrun).
  destruct Hpost as (_ & _ & Hm & _ & _ & Hle & Hcnt & _).
  apply records_lookup_Some in Hrec as (p & Hid & Hp).
  assert (c ≠ 0) as Hc.
  { intros ->. pose proof (proj1 Hcnt eq_refl id p f) as Hno.
    rewrite Hno in Hel; [done| |done]. by apply elem_of_map_to_list. }
  exists w1. split; [|done].
  rewrite Hrun. destruct (Z.ltb_spec 0 c); [done|lia].
Qed.


(** C8, as the code has it: one run of the sweeper removes from the
    registry exactly the records that are expired or have used up a
    positive download limit; for each of them it first removes the file
    (a failing removal is passed over) and then the entry, all under the
    write lock; no other file is touched; and when no record is eligible
    it returns with the state unchanged and nothing saved. *)
Theorem sweep_removes_exactly_eligible now w :
  mutex w = Unlocked → valid_ptrs w →
  records (final (cleanup now w))
  = filter (λ kv, eligible now kv.2 = false) (records w) ∧
  (∀ id f, records w !! id = Some f → eligible now f = true →
           Path f ∉ denied w → disk (final (cleanup now w)) !! Path f = None) ∧
  (∀ path, (∀ id f, records w !! id = Some f → eligible now f = true → Path f ≠ path) →
           disk (final (cleanup now w)) !! path = disk w !! path) ∧
  (∃ rest, trace (final (cleanup now w))
           = trace w ++ EvLock :: sweep_events now (heap w) (map_to_list (files w)) ++ rest) ∧
  ((∀ id f, records w !! id = Some f → eligible now f = false) →
   cleanup now w = Ret tt (logged [EvUnlock; EvLock] w)).
Proof.
  intros Hmu Hv.
  destruct (cleanup_run now w Hmu Hv) as (w1 & c & Hpost & Hrun).
  destruct Hpost as (Hc & Hh & Hm & Hd & Hlog & Hle & Hcnt & Hf0 & Hd0 & Hf1 & Hf2 & Hd1 & Hd2).
  cbn [heap files disk denied log config mutex add_log set_mutex] in *.
  assert (files (final (cleanup now w)) = files w1 ∧ heap (final (cleanup now w)) = heap w ∧
          disk (final (cleanup now w)) = disk w1 ∧
          ∃ rest, log (final (cleanup now w)) = rest ++ log w1) as (Ef & Eh & Ed & rest & El).
  { rewrite Hrun. destruct (0 <? c); cbn; repeat split; try done.
    - by exists [].
    - by exists [EvUnlock]. }
  split; [|split; [|split; [|split]]].
  - apply map_eq. intros k. rewrite map_lookup_filter, !records_lookup, Ef, Eh.
    destruct (files w !! k) as [p|] eqn:Hk; [|by rewrite Hf0].
    destruct (Hv k p Hk) as [f Hp]. cbn. rewrite Hp. cbn.
    destruct (eligible now f) eqn:Hel.
    + rewrite (Hf1 k p f); [|by apply elem_of_map_to_list|done..].
      by rewrite option_guard_False.
    + rewrite Hf2, Hk.
      * cbn. rewrite Hp. by rewrite option_guard_True.
      * intros p0 f0 Hin0 Hp0. apply elem_of_map_to_list in Hin0.
        congruence.
  - intros id f Hrec Hel Hnd. rewrite Ed.
    apply records_lookup_Some in Hrec as (p & Hid & Hp).
    apply (Hd1 id p f); [by apply elem_of_map_to_list|done..].
  - intros path Hall. rewrite Ed. apply Hd2.
    intros k p f Hin0 Hp Hel. apply elem_of_map_to_list in Hin0.
    apply (Hall k f); [|done]. apply records_lookup_Some. eauto.
  - exists (reverse rest). unfold trace. rewrite El, Hlog.
    rewrite !reverse_app, reverse_cons, reverse_involutive, <- !app_assoc. done.
  - intros Hnone.
    assert (∀ k p f, (k, p) ∈ map_to_list (files w) → heap w !! p = Some f →
                     eligible now f = false) as Hnone'.
    { intros k p f Hin0 Hp. apply elem_of_map_to_list in Hin0.
      apply (Hnone k). apply records_lookup_Some. eauto. }
    assert (c = 0) as -> by by apply Hcnt.
    rewrite Hrun. cbn. f_equal.
    rewrite sweep_events_none in Hlog by done.
    assert (files w1 = files w) as Hfs.
    { apply map_eq. intros k. apply Hf2. intros p f. apply Hnone'. }
    assert (disk w1 = disk w) as Hdk.
    { apply map_eq. intros path. apply Hd2. intros k p f Hin0 Hp Hel.
      rewrite (Hnone' k p f) in Hel; done. }
    clear Ef Eh Ed El Hrun. destruct w1, w. cbn in *. by subst.
Qed.


Lemma sweep_removes_exactly_eligible_witness :
  records (final (cleanup 25 two_files))
  = filter (λ kv, eligible 25 kv.2 = false) (records two_files) ∧
  disk (final (cleanup 25 two_files)) !! "./files/ab_report.txt" = None ∧
  disk (final (cleanup 25 two_files)) !! "./files/cd_plan.pdf"
  = disk two_files !! "./files/cd_plan.pdf".
Proof.
  destruct (sweep_removes_exactly_eligible 25 two_files) as (Hrec & Hgone & Hkept & _).
  - reflexivity.
  - exact two_files_valid.
  - split; [exact Hrec|]. split.
    + apply (Hgone "ab" report); [reflexivity|reflexivity|]. vm_compute. intros H. inversion H.
    + apply Hkept. intros id f Hid Hel.
      apply records_lookup_Some in Hid as (p & Hid & Hp). cbn in Hid, Hp.
      apply lookup_insert_Some in Hid as [[<- <-]|[_ Hid]].
      * rewrite lookup_insert_eq in Hp. by injection Hp as <-.
      * apply lookup_singleton_Some in Hid as [<- <-].
        rewrite lookup_insert_ne, lookup_singleton_eq in Hp by done.
        injection Hp as <-. done.
Defined.

(** C8 as stated fails on the order of the two removals, and on the
    save: at instant 25 the sweep removes the file of the expired record
    and then its entry, and it does not return, so that no snapshot is
    written. *)
Lemma sweep_removes_bytes_before_record :
  trace (final (cleanup 25 one_file))
  = [EvLock; EvDisk OpRemove "./files/ab_report.txt"; EvDelete "ab"] ∧
  returned (cleanup 25 one_file) = None ∧
  disk (final (cleanup 25 one_file)) !! "./metadata.json" = None.
Proof. repeat split; reflexivity. Qed.








(** C6: after a successful upload the record of the new id is in the
    registry, its checksum is the hex form of the SHA-256 digest of the
    uploaded bytes, the file at its path holds exactly these bytes, and
    the response carries that checksum; a download sends the checksum
    stored in the record, whatever the file holds by then.  The snapshot
    file is taken to be another file than the stored one. *)
Theorem upload_checksum_is_hash_of_stored_bytes sha256_Sum env r w resp w' :
  mutex w = Unlocked →
  (∀ filename ctype content, Multipart r = FormFile filename ctype content →
                             MetadataFile (config w) ≠ stored_path (config w) env filename) →
  uploadFile sha256_Sum env r w = Ret resp w' →
  is_error resp = false →
  (∃ filename ctype content f,
     Multipart r = FormFile filename ctype content ∧
     records w' !! generateID (rnd env) = Some f ∧
     Path f = stored_path (config w) env filename ∧
     disk w' !! Path f = Some (Bytes content) ∧
     Checksum f = Str.hex_encode (sha256_Sum content) ∧
     checksum_of resp = Some (Checksum f)) ∧
  (∀ now rd id p f0 name ctype c d w0 w0',
     mutex w0 = Unlocked → URLPath rd = "/download/" +:+ id →
     files w0 !! id = Some p → heap w0 !! p = Some f0 →
     downloadFile now rd w0 = Ret (Served name ctype c d) w0' →
     c = Checksum f0).
Proof.
  intros Hmu Hmeta Hrun Hok. split.
  - revert Hrun. open_world w. unfold stored_path in Hmeta. cbn in Hmeta.
    crack; intros [= <- <-]; try (cbn in Hok; done).
    all: eexists _, _, _, _; split; [reflexivity|].
    all: rewrite records_lookup; cbn [files heap disk].
    all: rewrite lookup_insert_eq; cbn [mbind option_bind]; rewrite lookup_insert_eq.
    all: split; [reflexivity|]; split; [reflexivity|]; cbn [Path Checksum].
    all: split; [|split; [reflexivity|]].
    all: try (unfold upload_response; destruct (wants_json r); reflexivity).
    all: first [ by rewrite lookup_insert_eq
               | rewrite lookup_insert_ne; [by rewrite lookup_insert_eq|]; by eapply Hmeta ].
  - intros now rd id p f0 name ctype c d w0 w0' Hmu0 Hrd Hid Hp.
    unfold downloadFile, dl_lookup, dl_check, dl_expire, dl_count, dl_serve, saveMetadata.
    rewrite Hrd, TrimPrefix_app. open_world w0. run. rewrite Hid. run. rewrite Hp. run.
    destruct (negb (Password f0 =? "")%string &&
              negb (Password f0 =? QueryGet rd "password")%string); run; [intros [=]|].
    destruct (After now (ExpiresAt f0)); run.
    { rewrite Hp. crack; intros [=]. }
    destruct ((0 <? MaxDownloads f0) && (MaxDownloads f0 <=? Downloads f0)); run;
      [intros [=]|].
    rewrite Hp. run. rewrite lookup_insert_eq. run. cbn [set_Downloads Path].
    destruct (dk !! Path f0); intros [= <- <- <- <- <-]; done.
Qed.

Lemma returned_final {A} (o : outcome A) (a : A) :
  returned o = Some a → o = Ret a (final o).
Proof. destruct o; cbn; congruence. Qed.

Lemma upload_checksum_is_hash_of_stored_bytes_witness :
  ∃ resp w' f,
    uploadFile toy_digest (mkUploadEnv [x01; xab] 100 101 NoFault)
      (upload_request "text/plain" "my notes.txt" "text/plain" ["h"%byte; "i"%byte] [])
      one_file = Ret resp w' ∧
    records w' !! "01ab0000000000000000000000000000" = Some f ∧
    Path f = "./files/01ab0000000000000000000000000000_my_notes.txt" ∧
    disk w' !! Path f = Some (Bytes ["h"%byte; "i"%byte]) ∧
    Checksum f = "6869" ∧
    checksum_of resp = Some "6869".
Proof.
  set (env := mkUploadEnv [x01; xab] 100 101 NoFault).
  set (r := upload_request "text/plain" "my notes.txt" "text/plain" ["h"%byte; "i"%byte] []).
  set (resp := Uploaded "http://localhost:8080/download/01ab0000000000000000000000000000"
                 3600000000101 "6869").
  assert (returned (uploadFile toy_digest env r one_file) = Some resp) as Hret
    by (vm_compute; reflexivity).
  apply returned_final in Hret.
  destruct (upload_checksum_is_hash_of_stored_bytes toy_digest env r one_file resp
              (final (uploadFile toy_digest env r one_file)) eq_refl
              (λ _ _ _ _, ltac:(vm_compute; discriminate)) Hret eq_refl)
    as [(filename & ctype & content & f & Hform & Hrec & Hpath & Hdisk & Hsum & Hresp) _].
  injection Hform as <- <- <-.
  exists resp, (final (uploadFile toy_digest env r one_file)), f.
  split; [exact Hret|]. split; [exact Hrec|]. split; [exact Hpath|].
  split; [exact Hdisk|]. split; [exact Hsum|]. reflexivity.
Defined.

Section fold_over_entries.
Context {V W : Type} (g : V → option W).

(** Folding over entries with distinct keys builds the map of what was
    picked. *)
Lemma foldl_pick l acc :
  NoDup l.*1 → foldl (pick g) acc l = omap g (list_to_map l) ∪ acc.
Proof.
  revert acc. induction l as [|[k v] l IH]; intros acc Hnd.
  { cbn. by rewrite omap_empty, (left_id_L ∅ (∪)). }
  apply NoDup_cons in Hnd as [Hk Hnd]. cbn [foldl fmap list_fmap fst] in *.
  rewrite IH by done. cbn [list_to_map foldr fst snd].
  assert ((list_to_map l : gmap string V) !! k = None) as Hnone
    by by apply not_elem_of_list_to_map_1.
  unfold pick at 1. cbn [fst snd].
  destruct (g v) as [x|] eqn:Hg.
  - rewrite (omap_insert_Some g _ k v x) by done.
    rewrite <- insert_union_l, insert_union_r; [done|].
    by rewrite lookup_omap, Hnone.
  - rewrite (omap_insert_None g _ k v) by done.
    rewrite delete_id; [done|]. by rewrite lookup_omap, Hnone.
Qed.

Lemma foldl_pick_map (m : gmap string V) :
  foldl (pick g) ∅ (map_to_list m) = omap g m.
Proof.
  rewrite foldl_pick by apply NoDup_fst_map_to_list.
  by rewrite list_to_map_to_list, (right_id_L ∅ (∪)).
Qed.
End fold_over_entries.

Lemma mapM_elem_string l : mapM Json.elem_string (JStr <$> l) = Some l.
Proof. induction l as [|s l IH]; [done|]. cbn in *. by rewrite IH. Qed.

Lemma to_tags_of_tags t : Json.to_tags (Some (Json.of_tags t)) = Some t.
Proof. destruct t as [l|]; [|done]. cbn. by rewrite mapM_elem_string. Qed.

Lemma mapM_entry_string (l : list (string * string)) :
  mapM Json.entry_string (prod_map id JStr <$> l) = Some l.
Proof. induction l as [|[k v] l IH]; [done|]. cbn in *. by rewrite IH. Qed.

Lemma to_strmap_of_strmap m : Json.to_strmap (Some (Json.of_strmap m)) = Some m.
Proof.
  destruct m as [m|]; [|done]. cbn. rewrite mapM_entry_string. cbn. do 2 f_equal.
  change (foldl (pick Some) ∅ (map_to_list m) = m).
  rewrite foldl_pick_map. apply map_eq. intros k. rewrite lookup_omap.
  by destruct (m !! k).
Qed.

(** Decoding what was encoded gives the record back. *)
Lemma to_ptr_of_FileInfo f :
  ints_in_range f → Json.to_ptr (Json.of_FileInfo f) = Some (Some f).
Proof.
  intros (Hs & Hd & Hm). destruct f as [i fn on sz ct cs ut ex dl md pw ip tg ds pa me].
  cbn in Hs, Hd, Hm.
  unfold Json.of_FileInfo, Json.to_ptr, Json.to_FileInfo.
  cbn [ID Filename OriginalName Size ContentType Checksum UploadTime ExpiresAt Downloads
       MaxDownloads Password UploaderIP Tags Description Path Metadata].
  destruct (decide (pw = "")) as [->|Hpw];
    cbn -[Json.to_tags Json.to_strmap Json.of_tags Json.of_strmap];
    rewrite ?Hs, ?Hd, ?Hm;
    cbn -[Json.to_tags Json.to_strmap Json.of_tags Json.of_strmap];
    rewrite to_tags_of_tags;
    cbn -[Json.to_tags Json.to_strmap Json.of_tags Json.of_strmap];
    rewrite to_strmap_of_strmap; done.
Qed.

Lemma record_entries_Permutation w : record_entries w ≡ₚ map_to_list (records w).
Proof.
  unfold record_entries. apply NoDup_Permutation.
  - apply (NoDup_fmap_1 fst).
    eapply sublist_NoDup; [|apply (omap_keys_sublist (λ p, heap w !! p))].
    apply NoDup_fst_map_to_list.
  - apply NoDup_map_to_list.
  - intros [k f]. rewrite list_elem_of_omap, elem_of_map_to_list, records_lookup_Some.
    split.
    + intros ([k' p] & Hin & Heq). apply elem_of_map_to_list in Hin.
      cbn in Heq. destruct (heap w !! p) as [f'|] eqn:Hp; [|done].
      cbn in Heq. injection Heq as -> ->. eauto.
    + intros (p & Hk & Hp). exists (k, p). split; [by apply elem_of_map_to_list|].
      cbn. by rewrite Hp.
Qed.

Lemma record_entries_NoDup w : NoDup (record_entries w).*1.
Proof.
  eapply sublist_NoDup; [|apply (omap_keys_sublist (λ p, heap w !! p))].
  apply NoDup_fst_map_to_list.
Qed.

Lemma record_entries_map w : list_to_map (record_entries w) = records w.
Proof.
  rewrite <- (list_to_map_to_list (records w)).
  apply list_to_map_proper; [apply record_entries_NoDup|].
  apply record_entries_Permutation.
Qed.

Lemma to_entry_encoded k f :
  ints_in_range f → Json.to_entry (k, Json.of_FileInfo f) = Some (k, Some f).
Proof.
  intros Hints. unfold Json.to_entry. cbn [fst snd].
  by rewrite to_ptr_of_FileInfo.
Qed.

(** The snapshot decodes to the entries it was made from. *)
Lemma mapM_to_entry (h : gmap loc FileInfo) (l : list (string * loc)) :
  Forall (λ kp, ∃ f, h !! kp.2 = Some f ∧ ints_in_range f) l →
  mapM Json.to_entry ((λ kp, (kp.1, Json.of_ptr (h !! kp.2))) <$> l)
  = Some ((λ kr, (kr.1, Some kr.2)) <$> omap (λ kp, pair kp.1 <$> h !! kp.2) l).
Proof.
  induction 1 as [|[k p] l (f & Hp & Hints) _ IH]; [done|].
  cbn [fmap list_fmap omap list_omap fst snd mapM] in *.
  rewrite Hp. cbn [Json.of_ptr fmap option_fmap option_map].
  rewrite to_entry_encoded by done. cbn [mbind option_bind].
  rewrite IH. done.
Qed.

Lemma well_typed_Forall w :
  well_typed w →
  Forall (λ kp, ∃ f, heap w !! kp.2 = Some f ∧ ints_in_range f) (map_to_list (files w)).
Proof.
  intros Hw. apply Forall_forall. intros [k p] Hin.
  apply elem_of_map_to_list in Hin. by apply (Hw k).
Qed.

Lemma unmarshal_marshal w :
  well_typed w →
  unmarshal (Doc (marshal_files w)) = Some ((λ kr, (kr.1, Some kr.2)) <$> record_entries w).
Proof.
  intros Hw. unfold unmarshal, marshal_files, Json.to_table, record_entries.
  apply mapM_to_entry. by apply well_typed_Forall.
Qed.

Lemma resolve_insert h d k p f :
  tidy d h → p ∉ dom h →
  resolve (<[p := f]> h) (<[k := Some p]> d) = <[k := f]> (resolve h d).
Proof.
  intros Ht Hp. apply map_eq. intros k'. unfold resolve.
  destruct (decide (k = k')) as [<-|Hne].
  - rewrite lookup_omap, !lookup_insert_eq. cbn. by rewrite lookup_insert_eq.
  - rewrite lookup_omap, !lookup_insert_ne, lookup_omap by done.
    destruct (d !! k') as [o|] eqn:Hk; [|done]. cbn.
    destruct (Ht k' o Hk) as (q & f' & -> & Hq). cbn.
    rewrite lookup_insert_ne; [done|]. intros <-.
    apply not_elem_of_dom in Hp. congruence.
Qed.

Lemma tidy_insert h d k p f :
  tidy d h → p ∉ dom h → tidy (<[k := Some p]> d) (<[p := f]> h).
Proof.
  intros Ht Hp k' o Hk. destruct (decide (k = k')) as [<-|Hne].
  - rewrite lookup_insert_eq in Hk. injection Hk as <-.
    exists p, f. by rewrite lookup_insert_eq.
  - rewrite lookup_insert_ne in Hk by done.
    destruct (Ht k' o Hk) as (q & f' & -> & Hq). exists q, f'. split; [done|].
    rewrite lookup_insert_ne; [done|]. intros <-.
    apply not_elem_of_dom in Hp. congruence.
Qed.

(** The decoder allocates the records of the entries [l]: the decoded
    table then resolves to these entries, on top of what was there. *)
Lemma alloc_fold (l : list (string * FileInfo)) d0 w :
  NoDup l.*1 → tidy d0 (heap w) →
  ∃ d h, foldM alloc_entry d0 ((λ kr, (kr.1, Some kr.2)) <$> l) w = Ret d (set_heap h w) ∧
         tidy d h ∧
         resolve h d = list_to_map l ∪ resolve (heap w) d0.
Proof.
  revert d0 w. induction l as [|[k f] l IH]; intros d0 w Hnd Ht.
  { exists d0, (heap w). split; [by destruct w|]. split; [done|].
    cbn. by rewrite (left_id_L ∅ (∪)). }
  apply NoDup_cons in Hnd as [Hk Hnd]. cbn [fmap list_fmap fst snd] in *.
  cbn [foldM]. unfold bind at 1, alloc_entry at 1. cbn [fst snd].
  unfold bind at 1, new at 1, ret at 1.
  set (p := fresh (dom (heap w))).
  assert (p ∉ dom (heap w)) as Hp by apply is_fresh.
  destruct (IH (<[k := Some p]> d0) (set_heap (<[p := f]> (heap w)) w) Hnd)
    as (d & h & Hrun & Htidy & Hres).
  { by apply tidy_insert. }
  exists d, h. split; [exact Hrun|]. split; [done|].
  rewrite Hres. cbn [heap set_heap]. rewrite resolve_insert by done.
  cbn [list_to_map foldr fst snd].
  rewrite <- insert_union_l, insert_union_r; [done|].
  by apply not_elem_of_list_to_map_1.
Qed.

(** The reconciliation loop keeps the entries whose file exists. *)
Lemma keep_fold (l : list (string * option loc)) v0 w :
  Forall (λ ko, ∃ p f, ko.2 = Some p ∧ heap w !! p = Some f) l →
  ∃ evs, foldM keep_existing v0 l w
         = Ret (foldl (pick (kept (heap w) (disk w))) v0 l) (logged evs w).
Proof.
  revert v0 w. induction l as [|[k o] l IH]; intros v0 w Hl.
  { exists []. by destruct w. }
  apply Forall_cons in Hl as [(p & f & Ho & Hp) Hl]. cbn [fst snd] in Ho. subst o.
  cbn [foldM foldl]. unfold bind at 1, keep_existing at 1. cbn [fst snd].
  unfold bind at 1, deref at 1. rewrite Hp.
  unfold bind at 1, os_Stat at 1, bind at 1, emit at 1, modify at 1.
  unfold bind at 1, get_world at 1, ret at 1 2.
  destruct (IH (pick (kept (heap w) (disk w)) v0 (k, Some p))
              (add_log (EvDisk OpStat (Path f)) w)) as [evs Hrun]; [done|].
  exists (evs ++ [EvDisk OpStat (Path f)]).
  cbn [disk add_log heap] in Hrun |- *.
  replace (if bool_decide (is_Some (disk w !! Path f)) then <[k:=p]> v0 else v0)
    with (pick (kept (heap w) (disk w)) v0 (k, Some p)).
  - rewrite Hrun. f_equal. unfold logged. destruct w; cbn. by rewrite <- app_assoc.
  - unfold pick, kept. cbn. rewrite Hp. cbn. by destruct (bool_decide _).
Qed.

Lemma kept_records h dsk (d : gmap string (option loc)) :
  omap (λ p, h !! p) (omap (kept h dsk) d)
  = filter (λ kv, is_Some (dsk !! Path kv.2)) (resolve h d).
Proof.
  apply map_eq. intros k. unfold resolve, kept.
  rewrite !lookup_omap, map_lookup_filter, lookup_omap.
  destruct (d !! k) as [[p|]|]; cbn; [|done..].
  destruct (h !! p) as [f|] eqn:Hp; cbn; [|done].
  destruct (bool_decide (is_Some (dsk !! Path f))) eqn:Hb; cbn.
  - rewrite Hp. apply bool_decide_eq_true in Hb. by rewrite option_guard_True.
  - apply bool_decide_eq_false in Hb. by rewrite option_guard_False.
Qed.

Lemma tidy_Forall d (w : world) :
  tidy d (heap w) →
  Forall (λ ko, ∃ p f, ko.2 = Some p ∧ heap w !! p = Some f) (map_to_list d).
Proof.
  intros Ht. apply Forall_forall. intros [k o] Hin.
  apply elem_of_map_to_list in Hin. by apply (Ht k).
Qed.

Lemma tidy_empty h : tidy ∅ h.
Proof. intros k o Hk. by rewrite lookup_empty in Hk. Qed.

(** Starting on a disk that holds the snapshot of [w]: the records of
    [w] whose file exists. *)
Lemma NewFileManager_load w dsk den :
  well_typed w →
  dsk !! MetadataFile (config w) = Some (Doc (marshal_files w)) →
  ∃ w2, NewFileManager (config w) dsk den = Ret tt w2 ∧
        records w2 = filter (λ kv, is_Some (dsk !! Path kv.2)) (records w) ∧
        disk w2 = dsk ∧ mutex w2 = Unlocked.
Proof.
  intros Hw Hdoc. unfold NewFileManager, loadMetadata.
  set (w0 := mkWorld (config w) ∅ ∅ Unlocked dsk den []).
  unfold bind at 1. unfold bind at 1. unfold get_world at 1.
  unfold bind at 1. unfold os_ReadFile at 1, bind at 1, emit at 1, modify at 1.
  unfold bind at 1, get_world at 1, ret at 1.
  cbn [disk add_log config w0]. rewrite Hdoc, (unmarshal_marshal w Hw).
  set (w1 := add_log (EvDisk OpReadFile (MetadataFile (config w))) w0).
  destruct (alloc_fold (record_entries w) ∅ w1) as (d & h & Halloc & Htidy & Hres).
  { apply record_entries_NoDup. }
  { apply tidy_empty. }
  unfold bind at 1. rewrite Halloc.
  destruct (keep_fold (map_to_list d) ∅ (set_heap h w1)) as [evs Hkeep].
  { by apply tidy_Forall. }
  unfold bind at 1. rewrite Hkeep. rewrite foldl_pick_map.
  unfold bind, modify, emit, ret, logged, w1, w0.
  cbn [files heap disk mutex config denied log set_files set_heap add_log].
  eexists. split; [reflexivity|]. split; [|done].
  unfold records. cbn [files heap add_log set_files].
  rewrite kept_records, Hres, record_entries_map.
  cbn [heap w1 w0 add_log]. unfold resolve at 1. rewrite omap_empty.
  by rewrite (right_id_L ∅ (∪)).
Qed.



Lemma two_files_well_typed : well_typed two_files.
Proof.
  intros id p H. cbn in H.
  apply lookup_insert_Some in H as [[_ <-]|[_ H]]; [by exists report|].
  apply lookup_singleton_Some in H as [_ <-]. by exists secret.
Qed.


Lemma append_cancel_l (s a b : string) : s +:+ a = s +:+ b → a = b.
Proof. induction s as [|c s IH]; cbn; [done|]. intros [= H]. by apply IH. Qed.

Lemma append_same_length (a b s t : string) :
  String.length a = String.length b → a +:+ s = b +:+ t → a = b.
Proof.
  revert b. induction a as [|c a IH]; intros [|c' b]; cbn; try done.
  intros [= Hlen] [= -> H]. f_equal. by apply IH.
Qed.

Lemma keyed_distinct w id1 id2 f1 f2 :
  keyed w → records w !! id1 = Some f1 → records w !! id2 = Some f2 →
  Path f1 = Path f2 → id1 = id2.
Proof.
  intros Hk H1 H2 Hpath.
  destruct (Hk id1 f1 H1) as [Hl1 Hp1]. destruct (Hk id2 f2 H2) as [Hl2 Hp2].
  rewrite Hp1, Hp2 in Hpath. unfold Str.Join in Hpath.
  apply append_cancel_l, append_cancel_l in Hpath.
  apply (append_same_length _ _ _ _ (eq_trans Hl1 (eq_sym Hl2)) Hpath).
Qed.

(** The steps that keep the registry sound do keep it sound. *)
Lemma sound_evolves w w' : sound w → evolves w w' → sound w'.
Proof.
  intros (Hv & Hk & Hb) (Hc & Hv' & Hrec & Hdisk).
  split; [done|]. split.
  - intros id f' H'. destruct (Hrec id f' H') as [(f & Hf & Hp & Hn)|(Hl & Hp & _)].
    + destruct (Hk id f Hf) as [Hl Hpf]. split; [done|]. by rewrite Hc, Hp, Hn, Hpf.
    + split; [done|]. by rewrite Hc.
  - intros id f' H'. destruct (Hrec id f' H') as [(f & Hf & Hp & Hn)|(_ & _ & Hd)]; [|done].
    rewrite Hp. destruct (Hdisk (Path f) (Hb id f Hf)) as [Hd|(id0 & f0 & Hf0 & Hp0 & Hgone)];
      [done|].
    assert (id0 = id) as -> by by apply (keyed_distinct w id0 id f0 f).
    congruence.
Qed.

Lemma grows_refl d : grows d d.
Proof. by intros path. Qed.

Lemma grows_insert d d' k v : grows d d' → grows d (<[k := v]> d').
Proof.
  intros Hg path Hp. destruct (decide (k = path)) as [->|].
  - rewrite lookup_insert_eq. by eexists.
  - rewrite lookup_insert_ne by done. by apply Hg.
Qed.

(** Only files were added. *)
Lemma evolves_same_records w w' :
  valid_ptrs w → config w' = config w → files w' = files w → heap w' = heap w →
  grows (disk w) (disk w') → evolves w w'.
Proof.
  intros Hv Hc Hf Hh Hg.
  assert (records w' = records w) as Hrec by (unfold records; by rewrite Hf, Hh).
  split; [done|]. split; [|split].
  - intros id p Hid. rewrite Hh. apply (Hv id). by rewrite <- Hf.
  - intros id f' H'. left. exists f'. by rewrite <- Hrec.
  - intros path Hp. left. by apply Hg.
Qed.

(** A record was allocated but not entered. *)
Lemma evolves_alloc w w' p f :
  valid_ptrs w → config w' = config w → files w' = files w →
  heap w' = <[p := f]> (heap w) → p ∉ dom (heap w) →
  grows (disk w) (disk w') → evolves w w'.
Proof.
  intros Hv Hc Hf Hh Hp Hg.
  assert (∀ id q, files w !! id = Some q → heap w' !! q = heap w !! q) as Hsame.
  { intros id q Hid. rewrite Hh, lookup_insert_ne; [done|]. intros <-.
    destruct (Hv id p Hid) as [f0 Hf0]. apply not_elem_of_dom in Hp. congruence. }
  assert (records w' = records w) as Hrec.
  { apply map_eq. intros id. rewrite !records_lookup, Hf.
    destruct (files w !! id) as [q|] eqn:Hid; [|done]. cbn. by apply (Hsame id). }
  split; [done|]. split; [|split].
  - intros id q Hid. rewrite Hf in Hid. rewrite (Hsame id q Hid). by apply (Hv id).
  - intros id f' H'. left. exists f'. by rewrite <- Hrec.
  - intros path Hpath. left. by apply Hg.
Qed.

(** A new record was allocated and entered after its file was stored. *)
Lemma evolves_insert w w' id p f :
  valid_ptrs w → config w' = config w →
  files w' = <[id := p]> (files w) → heap w' = <[p := f]> (heap w) → p ∉ dom (heap w) →
  grows (disk w) (disk w') →
  String.length id = 32%nat →
  Path f = Str.Join (UploadDir (config w)) (id +:+ "_" +:+ Filename f) →
  is_Some (disk w' !! Path f) →
  evolves w w'.
Proof.
  intros Hv Hc Hf Hh Hp Hg Hlen Hpath Hstored.
  assert (∀ id0 q, files w !! id0 = Some q → heap w' !! q = heap w !! q) as Hsame.
  { intros id0 q Hid. rewrite Hh, lookup_insert_ne; [done|]. intros <-.
    destruct (Hv id0 p Hid) as [f0 Hf0]. apply not_elem_of_dom in Hp. congruence. }
  split; [done|]. split; [|split].
  - intros id0 q Hid. rewrite Hf in Hid.
    apply lookup_insert_Some in Hid as [[<- <-]|[Hne Hid]].
    + rewrite Hh, lookup_insert_eq. by eexists.
    + rewrite (Hsame id0 q Hid). by apply (Hv id0).
  - intros id0 f' H'. rewrite records_lookup, Hf in H'.
    destruct (decide (id = id0)) as [<-|Hne].
    + rewrite lookup_insert_eq in H'. cbn in H'. rewrite Hh, lookup_insert_eq in H'.
      injection H' as <-. by right.
    + rewrite lookup_insert_ne in H' by done. left. exists f'.
      split; [|done]. rewrite records_lookup.
      destruct (files w !! id0) as [q|] eqn:Hid; [|done]. cbn in *.
      by rewrite <- (Hsame id0 q Hid).
  - intros path Hpath0. left. by apply Hg.
Qed.

(** An entry was deleted, and at most the file of its record removed. *)
Lemma evolves_delete w w' id f :
  valid_ptrs w → config w' = config w →
  files w' = delete id (files w) → heap w' = heap w →
  records w !! id = Some f →
  (∀ path, is_Some (disk w !! path) → is_Some (disk w' !! path) ∨ path = Path f) →
  evolves w w'.
Proof.
  intros Hv Hc Hf Hh Hrec Hdisk.
  assert (records w' = delete id (records w)) as Hrec'.
  { unfold records. by rewrite Hf, Hh, omap_delete. }
  split; [done|]. split; [|split].
  - intros id0 q Hid. rewrite Hf in Hid. apply lookup_delete_Some in Hid as [_ Hid].
    rewrite Hh. by apply (Hv id0).
  - intros id0 f' H'. rewrite Hrec' in H'. apply lookup_delete_Some in H' as [_ H'].
    left. by exists f'.
  - intros path Hpath. destruct (Hdisk path Hpath) as [?| ->]; [by left|].
    right. exists id, f. split; [done|]. split; [done|].
    rewrite Hrec'. apply lookup_delete_eq.
Qed.

(** A download was counted. *)
Lemma evolves_count w w' p f d :
  valid_ptrs w → config w' = config w → files w' = files w →
  heap w !! p = Some f → heap w' = <[p := set_Downloads d f]> (heap w) →
  grows (disk w) (disk w') → evolves w w'.
Proof.
  intros Hv Hc Hf Hp Hh Hg. split; [done|]. split; [|split].
  - intros id q Hid. rewrite Hf in Hid. rewrite Hh.
    destruct (decide (p = q)) as [<-|Hne].
    + rewrite lookup_insert_eq. by eexists.
    + rewrite lookup_insert_ne by done. by apply (Hv id).
  - intros id f' H'. left. rewrite records_lookup, Hf, Hh in H'. rewrite records_lookup.
    destruct (files w !! id) as [q|]; [|done]. cbn in *.
    destruct (decide (p = q)) as [<-|Hne].
    + rewrite lookup_insert_eq in H'. injection H' as <-. exists f. by rewrite Hp.
    + rewrite lookup_insert_ne in H' by done. by exists f'.
  - intros path Hpath. left. by apply Hg.
Qed.

Lemma shrinks_refl q d : shrinks q d d.
Proof. intros path Hp. by left. Qed.

Lemma shrinks_delete q d : shrinks q d (delete q d).
Proof.
  intros path Hp. destruct (decide (path = q)) as [->|]; [by right|left].
  by rewrite lookup_delete_ne.
Qed.

Lemma shrinks_insert q d d' k v : shrinks q d d' → shrinks q d (<[k := v]> d').
Proof.
  intros Hs path Hp. destruct (Hs path Hp) as [Hd|]; [left|by right].
  destruct (decide (k = path)) as [->|].
  - rewrite lookup_insert_eq. by eexists.
  - by rewrite lookup_insert_ne.
Qed.

Ltac run_final :=
  cbv beta iota zeta delta
    [final uploadFile upload_stored saveMetadata downloadFile dl_lookup dl_check dl_expire
     dl_count dl_serve deleteFile fileInfo healthCheck getStats bulk_delete_one
     bind ret get_world modify emit panic respond Lock Unlock RLock RUnlock
     files_lookup files_insert files_delete range_files deref incr_Downloads new
     os_Stat os_ReadFile os_WriteFile os_Remove os_MkdirAll os_Create io_Copy
     add_log set_mutex set_files set_heap set_disk
     config files heap mutex disk denied log].

Ltac crack_final :=
  repeat (run_final;
          match goal with
          | |- context [decide (?x ∈ ?s)] => destruct (decide (x ∈ s))
          | |- context [bool_decide ?P] => destruct (bool_decide P) eqn:?
          | |- context [match ?m !! ?k with _ => _ end] => destruct (m !! k) eqn:?
          | |- context [match fault ?e with _ => _ end] => destruct (fault e) eqn:?
          | |- context [match Multipart ?r with _ => _ end] => destruct (Multipart r) eqn:?
          | |- context [if ?b then _ else _] => destruct b eqn:?
          end);
  run_final.

Ltac solve_disk :=
  cbn [disk];
  repeat first [ apply grows_refl | apply grows_insert
               | apply shrinks_refl | apply shrinks_delete | apply shrinks_insert ].

Lemma saveMetadata_sound w : mutex w = Unlocked → sound w → sound (final (saveMetadata w)).
Proof.
  intros Hmu Hs. apply (sound_evolves w); [done|]. destruct Hs as (Hv & _).
  revert Hv. open_world w. intros Hv.
  crack_final; (apply evolves_same_records; [done|done|done|done|solve_disk]).
Qed.

Lemma deleteFile_sound r w : mutex w = Unlocked → sound w → sound (final (deleteFile r w)).
Proof.
  intros Hmu Hs. apply (sound_evolves w); [done|]. destruct Hs as (Hv & _).
  revert Hv. open_world w. intros Hv.
  crack_final.
  all: try (apply evolves_same_records; [done|done|done|done|solve_disk]).
  all: try match goal with
         | Hid : ?fs !! ?id = Some ?p, Hp : ?hp !! ?p = Some ?f |- _ =>
             apply (evolves_delete _ _ id f);
               [done|done|done|done|apply records_lookup_Some; eauto|solve_disk]
         end.
  all: match goal with
       | Hid : ?fs !! ?id = Some ?p, Hp : ?hp !! ?p = None |- _ =>
           destruct (Hv id p Hid) as [? ?]; cbn in *; congruence
       end.
Qed.

Lemma length_hex_encode bs : String.length (Str.hex_encode bs) = (2 * length bs)%nat.
Proof. induction bs as [|b bs IH]; [done|]. cbn [Str.hex_encode String.length length]. lia. Qed.

Lemma generateID_length random : String.length (generateID random) = 32%nat.
Proof. unfold generateID. by rewrite length_hex_encode, length_resize. Qed.

Lemma stored_is_Some (d : gmap string fdata) k v : is_Some (<[k := v]> d !! k).
Proof. rewrite lookup_insert_eq. by eexists. Qed.

Lemma stored_under (d : gmap string fdata) k k' v :
  is_Some (d !! k) → is_Some (<[k' := v]> d !! k).
Proof. apply (grows_insert d d k' v (grows_refl d)). Qed.

Lemma downloadFile_sound now r w :
  mutex w = Unlocked → sound w → sound (final (downloadFile now r w)).
Proof.
  intros Hmu Hs. apply (sound_evolves w); [done|]. destruct Hs as (Hv & _).
  revert Hv. open_world w. intros Hv.
  crack_final.
  all: try (apply evolves_same_records; [done|done|done|done|solve_disk]).
  all: try match goal with
         | Hid : ?fs !! ?id = Some ?p, Hp : ?hp !! ?p = Some ?f |- evolves _ (mkWorld _ (delete ?id _) _ _ _ _ _) =>
             apply (evolves_delete _ _ id f);
               [done|done|done|done|apply records_lookup_Some; eauto|solve_disk]
         end.
  all: try match goal with
         | Hp : ?hp !! ?p = Some ?f
           |- evolves _ (mkWorld _ _ (<[?p := set_Downloads ?d ?f]> _) _ _ _ _) =>
             apply (evolves_count _ _ p f d); [done|done|done|done|done|solve_disk]
         end.
  all: try match goal with
         | H : <[?p := ?x]> ?hp !! ?p = None |- _ => by rewrite lookup_insert_eq in H
         end.
  all: match goal with
       | Hid : ?fs !! ?id = Some ?p, Hp : ?hp !! ?p = None |- _ =>
           destruct (Hv id p Hid) as [? ?]; cbn in *; congruence
       end.
Qed.

Section upload_sound.
Variable sha256_Sum : list byte → list byte.

Lemma uploadFile_sound env r w :
  mutex w = Unlocked → sound w → sound (final (uploadFile sha256_Sum env r w)).
Proof.
  intros Hmu Hs. apply (sound_evolves w); [done|]. destruct Hs as (Hv & _).
  revert Hv. open_world w. intros Hv.
  crack_final.
  all: try (apply evolves_same_records; [done|done|done|done|solve_disk]).
  all: try (eapply evolves_alloc; [done|done|done|reflexivity|apply is_fresh|solve_disk]).
  all: eapply evolves_insert;
    [done|done|reflexivity|reflexivity|apply is_fresh|solve_disk
    |apply generateID_length|reflexivity|].
  all: cbn [disk Path]; repeat first [apply stored_is_Some | apply stored_under].
Qed.

End upload_sound.

Lemma sound_ext w w' :
  config w' = config w → files w' = files w → heap w' = heap w → disk w' = disk w →
  sound w → sound w'.
Proof.
  intros Hc Hf Hh Hd Hs. apply (sound_evolves w); [done|]. destruct Hs as (Hv & _).
  apply evolves_same_records; try done. rewrite Hd. apply grows_refl.
Qed.

Lemma bulk_delete_one_sound c id w :
  sound w →
  ∃ c' w', bulk_delete_one c id w = Ret c' w' ∧ sound w' ∧ mutex w' = mutex w.
Proof.
  intros Hs.
  assert (∃ c' w', bulk_delete_one c id w = Ret c' w' ∧ evolves w w' ∧ mutex w' = mutex w)
    as (c' & w' & Hrun & Hev & Hmu).
  { destruct Hs as (Hv & _). revert Hv. open_world w. intros Hv.
    crack_final.
    all: try match goal with
           | Hid : ?fs !! ?i = Some ?p, Hp : ?hp !! ?p = None |- _ =>
               destruct (Hv i p Hid) as [? ?]; cbn in *; congruence
           end.
    all: eexists _, _; split; [reflexivity|]; split; [|done].
    all: try (apply evolves_same_records; [done|done|done|done|solve_disk]).
    all: match goal with
         | Hid : ?fs !! ?i = Some ?p, Hp : ?hp !! ?p = Some ?f |- _ =>
             apply (evolves_delete _ _ i f);
               [done|done|done|done|apply records_lookup_Some; eauto|solve_disk]
         end. }
  exists c', w'. split; [done|]. split; [|done]. by apply (sound_evolves w).
Qed.

Lemma bulk_delete_fold_sound ids c w :
  sound w →
  ∃ c' w', foldM bulk_delete_one c ids w = Ret c' w' ∧ sound w' ∧ mutex w' = mutex w.
Proof.
  revert c w. induction ids as [|id ids IH]; intros c w Hs; [by exists c, w|].
  destruct (bulk_delete_one_sound c id w Hs) as (c1 & w1 & Hrun1 & Hs1 & Hmu1).
  destruct (IH c1 w1 Hs1) as (c' & w' & Hrun & Hs' & Hmu').
  exists c', w'. cbn [foldM]. unfold bind. rewrite Hrun1.
  split; [done|]. split; [done|]. congruence.
Qed.

Lemma bulkDelete_sound r w : mutex w = Unlocked → sound w → sound (final (bulkDelete r w)).
Proof.
  intros Hmu Hs. unfold bulkDelete.
  destruct (negb (Method r =? "POST")%string).
  { apply (sound_ext w); try done. }
  destruct (decode_file_ids (Body r)) as [ids|].
  2:{ apply (sound_ext w); try done. }
  unfold bind at 1. unfold Lock at 1. rewrite Hmu.
  destruct (bulk_delete_fold_sound ids 0 (add_log EvLock (set_mutex WLocked w)))
    as (c & w1 & Hrun & Hs1 & Hmu1).
  { by apply (sound_ext w). }
  unfold bind at 1. rewrite Hrun.
  unfold bind at 1. unfold Unlock at 1, modify at 1.
  set (w2 := add_log EvUnlock (set_mutex Unlocked w1)).
  assert (sound w2) as Hs2 by by apply (sound_ext w1).
  destruct (0 <? c).
  - pose proof (saveMetadata_sound w2 eq_refl Hs2) as Hs3.
    unfold bind at 1. unfold bind at 1.
    destruct (saveMetadata w2) as [ok w3| |]; [|done..].
    cbn [final] in Hs3. unfold ret at 1. by apply (sound_ext w3).
  - unfold bind at 1. unfold ret at 1. by apply (sound_ext w2).
Qed.

Lemma cleanup_sound now w : mutex w = Unlocked → sound w → sound (final (cleanup now w)).
Proof.
  intros Hmu Hs. pose proof Hs as (Hv & _).
  destruct (cleanup_run now w Hmu Hv) as (w1 & c & Hpost & Hrun).
  destruct Hpost as (Hc & Hh & _ & Hd & _ & _ & _ & Hf0 & Hd0 & Hf1 & Hf2 & Hd1 & Hd2).
  cbn [heap files disk denied config add_log set_mutex] in *.
  assert (∀ k p, files w1 !! k = Some p → files w !! k = Some p) as Hsub.
  { intros k p Hk. destruct (files w !! k) as [q|] eqn:Hq; [|by rewrite Hf0 in Hk].
    destruct (Hv k q Hq) as [f Hf]. destruct (eligible now f) eqn:Hel.
    - rewrite (Hf1 k q f) in Hk; [done| |done..]. by apply elem_of_map_to_list.
    - rewrite Hf2, Hq in Hk; [done|]. intros p0 f0 Hin Hp0.
      apply elem_of_map_to_list in Hin. congruence. }
  assert (sound w1) as Hs1.
  { apply (sound_evolves w); [done|]. split; [done|]. split; [|split].
    - intros k p Hk. rewrite Hh. apply (Hv k). by apply Hsub.
    - intros k f' H'. left. exists f'. split; [|done].
      apply records_lookup_Some in H' as (p & Hk & Hp).
      apply records_lookup_Some. exists p. split; [by apply Hsub|congruence].
    - intros path Hpath.
      set (hit := λ kp : string * loc,
             match heap w !! kp.2 with
             | Some f => eligible now f && (Path f =? path)%string
             | None => false
             end).
      destruct (existsb hit (map_to_list (files w))) eqn:Hex.
      + right. apply existsb_exists in Hex as ([k p] & Hin & Hhit).
        apply list_elem_of_In in Hin. unfold hit in Hhit. cbn [snd] in Hhit.
        destruct (heap w !! p) as [f|] eqn:Hp; [|done].
        apply andb_true_iff in Hhit as [Hel Heq]. apply String.eqb_eq in Heq.
        exists k, f. split; [|split; [done|]].
        * apply records_lookup_Some. exists p. split; [|done].
          by apply elem_of_map_to_list.
        * rewrite records_lookup, (Hf1 k p f); done.
      + left. rewrite Hd2; [done|]. intros k p f Hin Hp Hel Heq.
        assert (existsb hit (map_to_list (files w)) = true) as Htrue; [|congruence].
        apply existsb_exists. exists (k, p). split; [by apply list_elem_of_In|].
        unfold hit. cbn [snd]. by rewrite Hp, Hel, Heq, String.eqb_refl. }
  rewrite Hrun. destruct (0 <? c); cbn [final]; [done|]. by apply (sound_ext w1).
Qed.

Lemma keep_fold_verified l v0 w v' w' :
  foldM keep_existing v0 l w = Ret v' w' → verified v0 w →
  verified v' w ∧ config w' = config w ∧ heap w' = heap w ∧ disk w' = disk w.
Proof.
  revert v0 w. induction l as [|[k o] l IH]; intros v0 w Hrun Hver.
  { cbn in Hrun. by injection Hrun as <- <-. }
  cbn [foldM] in Hrun. unfold bind at 1, keep_existing at 1 in Hrun. cbn [fst snd] in Hrun.
  destruct o as [p|]; [|done].
  unfold bind at 1, deref at 1 in Hrun. destruct (heap w !! p) as [f|] eqn:Hp; [|done].
  unfold bind at 1, os_Stat at 1, bind at 1, emit at 1, modify at 1 in Hrun.
  unfold bind at 1, get_world at 1, ret at 1 2 in Hrun.
  apply IH in Hrun as (Hver' & Hc & Hh & Hd); [by repeat split|].
  cbn [disk add_log heap]. destruct (bool_decide (is_Some (disk w !! Path f))) eqn:Hb; [|done].
  apply bool_decide_eq_true in Hb.
  intros k0 p0 Hk0. apply lookup_insert_Some in Hk0 as [[<- <-]|[_ Hk0]]; [eauto|].
  by apply (Hver k0).
Qed.

Lemma alloc_fold_disk l d0 w d w1 :
  foldM alloc_entry d0 l w = Ret d w1 → config w1 = config w ∧ disk w1 = disk w.
Proof.
  revert d0 w. induction l as [|[k o] l IH]; intros d0 w Hrun.
  { cbn in Hrun. by injection Hrun as <- <-. }
  cbn [foldM] in Hrun. unfold bind at 1, alloc_entry at 1 in Hrun. cbn [fst snd] in Hrun.
  destruct o as [f|].
  - unfold bind at 1, new at 1, ret at 1 in Hrun. by apply IH in Hrun.
  - unfold ret at 1 in Hrun. by apply IH in Hrun.
Qed.

(** Whatever the snapshot file holds, the registry a start returns has
    only records whose file exists. *)
Lemma NewFileManager_backed cfg dsk den w' :
  NewFileManager cfg dsk den = Ret tt w' → valid_ptrs w' ∧ backed w'.
Proof.
  unfold NewFileManager, loadMetadata.
  set (w0 := mkWorld cfg ∅ ∅ Unlocked dsk den []).
  unfold bind at 1. unfold bind at 1. unfold get_world at 1.
  unfold bind at 1. unfold os_ReadFile at 1, bind at 1, emit at 1, modify at 1.
  unfold bind at 1, get_world at 1, ret at 1.
  cbn [disk add_log config w0].
  assert (∀ w1 : world, files w1 = ∅ →
            valid_ptrs w1 ∧ backed w1) as Hempty.
  { intros w1 Hf. split.
    - intros id p Hid. by rewrite Hf in Hid.
    - intros id f Hid. apply records_lookup_Some in Hid as (p & Hid & _).
      by rewrite Hf in Hid. }
  destruct (dsk !! MetadataFile cfg) as [d|].
  2:{ run. intros [= <-]. by apply Hempty. }
  destruct (unmarshal d) as [entries|].
  2:{ run. intros [= <-]. by apply Hempty. }
  unfold bind at 1. unfold bind at 1.
  destruct (foldM alloc_entry ∅ entries _) as [decoded w1| |] eqn:Halloc; [|done..].
  apply alloc_fold_disk in Halloc as [Hc1 Hd1].
  unfold bind at 1.
  destruct (foldM keep_existing ∅ (map_to_list decoded) w1) as [v w2| |] eqn:Hkeep; [|done..].
  apply keep_fold_verified in Hkeep as (Hver & Hc2 & Hh2 & Hd2).
  2:{ intros k p Hk. by rewrite lookup_empty in Hk. }
  run. intros [= <-]. split.
  - intros id p Hid. cbn in Hid |- *. destruct (Hver id p Hid) as (f & Hf & _).
    fold (heap w2). rewrite Hh2. by exists f.
  - intros id f Hid. apply records_lookup_Some in Hid as (p & Hid & Hp).
    cbn in Hid, Hp |- *. fold (heap w2) in Hp. fold (disk w2). rewrite Hh2 in Hp.
    destruct (Hver id p Hid) as (f0 & Hf0 & Hsome). rewrite Hd2. congruence.
Qed.

Section upload_order.
Variable sha256_Sum : list byte → list byte.

Lemma upload_inserts_after_write env r w :
  mutex w = Unlocked → log w = [] →
  inserts_follow_writes false (trace (final (uploadFile sha256_Sum env r w))) = true.
Proof. intros Hmu Hlog. open_world w. crack_final; reflexivity. Qed.

End upload_order.

Lemma deleteFile_removes_both r w id p f :
  mutex w = Unlocked → URLPath r = "/delete/" +:+ id →
  files w !! id = Some p → heap w !! p = Some f →
  records (final (deleteFile r w)) !! id = None ∧
  (Path f ∉ denied w → Path f ≠ MetadataFile (config w) →
   disk (final (deleteFile r w)) !! Path f = None).
Proof.
  intros Hmu Hr Hid Hp. unfold deleteFile. rewrite Hr, TrimPrefix_app.
  open_world w. run_final. rewrite Hid. run_final. rewrite Hp.
  crack_final; (split; [by rewrite records_lookup; cbn [files]; rewrite lookup_delete_eq|]);
    intros Hnd Hmeta; try done; cbn [disk].
  all: rewrite ?lookup_insert_ne by done; by rewrite ?lookup_delete_eq.
Qed.

(** C4, as the code has it: provided every entry points to a record and
    every record is stored under its id, the registry never holds a path
    to a missing file as far as the service goes: upload, download,
    delete, bulk delete, sweep and save each keep every record's file in
    place, whatever I/O call fails; an upload enters the record only
    after the write of the file content; a delete removes the record and,
    unless the removal fails, the file; and a start keeps only records
    whose file exists.  The converse does not hold: files can exist
    without a record. *)
Theorem registry_paths_backed sha256_Sum env now r w :
  mutex w = Unlocked → sound w →
  sound (final (uploadFile sha256_Sum env r w)) ∧
  sound (final (downloadFile now r w)) ∧
  sound (final (deleteFile r w)) ∧
  sound (final (bulkDelete r w)) ∧
  sound (final (cleanup now w)) ∧
  sound (final (saveMetadata w)) ∧
  (log w = [] →
   inserts_follow_writes false (trace (final (uploadFile sha256_Sum env r w))) = true) ∧
  (∀ id p f, URLPath r = "/delete/" +:+ id → files w !! id = Some p → heap w !! p = Some f →
             records (final (deleteFile r w)) !! id = None ∧
             (Path f ∉ denied w → Path f ≠ MetadataFile (config w) →
              disk (final (deleteFile r w)) !! Path f = None)) ∧
  (∀ cfg dsk den w', NewFileManager cfg dsk den = Ret tt w' → valid_ptrs w' ∧ backed w').
Proof.
  intros Hmu Hs.
  split; [by apply uploadFile_sound|].
  split; [by apply downloadFile_sound|].
  split; [by apply deleteFile_sound|].
  split; [by apply bulkDelete_sound|].
  split; [by apply cleanup_sound|].
  split; [by apply saveMetadata_sound|].
  split; [intros Hlog; by apply upload_inserts_after_write|].
  split.
  - intros id p f Hr Hid Hp. by apply (deleteFile_removes_both r w id p f).
  - apply NewFileManager_backed.
Qed.

Lemma stored_world_sound : sound stored_world.
Proof.
  split; [|split].
  - intros id p H. cbn in H. apply lookup_singleton_Some in H as [_ <-]. by exists notes.
  - intros id f H. apply records_lookup_Some in H as (p & Hid & Hp). cbn in Hid, Hp.
    apply lookup_singleton_Some in Hid as [<- <-].
    rewrite lookup_singleton_eq in Hp. injection Hp as <-. by split.
  - intros id f H. apply records_lookup_Some in H as (p & Hid & Hp). cbn in Hid, Hp.
    apply lookup_singleton_Some in Hid as [<- <-].
    rewrite lookup_singleton_eq in Hp. injection Hp as <-. by eexists.
Qed.

Lemma registry_paths_backed_witness :
  sound (final (uploadFile toy_digest (mkUploadEnv [x02] 200 201 (CopyFails 1))
                  (upload_request "text/plain" "b.txt" "text/plain" ["h"%byte; "i"%byte] [])
                  stored_world)) ∧
  sound (final (deleteFile (get_request "/delete/01ab0000000000000000000000000000" [])
                  stored_world)) ∧
  sound (final (cleanup 4000000000000 stored_world)).
Proof.
  destruct (registry_paths_backed toy_digest (mkUploadEnv [x02] 200 201 (CopyFails 1))
              4000000000000
              (upload_request "text/plain" "b.txt" "text/plain" ["h"%byte; "i"%byte] [])
              stored_world eq_refl stored_world_sound) as (Hup & _ & _ & _ & Hsweep & _).
  destruct (registry_paths_backed toy_digest (mkUploadEnv [x02] 200 201 (CopyFails 1))
              4000000000000
              (get_request "/delete/01ab0000000000000000000000000000" [])
              stored_world eq_refl stored_world_sound) as (_ & _ & Hdel & _).
  split; [exact Hup|]. split; [exact Hdel|exact Hsweep].
Defined.

(** C4 as stated fails in the direction from files to records: a delete
    whose file removal fails leaves the bytes without a record, and so
    does an upload whose copy fails half way. *)
Lemma bytes_without_record :
  records (final (deleteFile (get_request "/delete/ab" []) stuck_file)) = ∅ ∧
  disk (final (deleteFile (get_request "/delete/ab" []) stuck_file)) !! "./files/ab_report.txt"
  = Some (Bytes ["h"%byte; "i"%byte]) ∧
  records (final (uploadFile toy_digest (mkUploadEnv [x02] 200 201 (CopyFails 1))
                    (upload_request "text/plain" "b.txt" "text/plain" ["h"%byte; "i"%byte] [])
                    empty_world)) = ∅ ∧
  disk (final (uploadFile toy_digest (mkUploadEnv [x02] 200 201 (CopyFails 1))
                 (upload_request "text/plain" "b.txt" "text/plain" ["h"%byte; "i"%byte] [])
                 empty_world)) !! "./files/02000000000000000000000000000000_b.txt"
  = Some (Bytes ["h"%byte]).
Proof. repeat split; vm_compute; reflexivity. Qed.

Lemma wrap64_add_l a b : wrap64 (wrap64 a + b) = wrap64 (a + b).
Proof.
  unfold wrap64. f_equal.
  replace (((a + 2 ^ 63) mod 2 ^ 64 - 2 ^ 63 + b + 2 ^ 63))
    with ((a + 2 ^ 63) mod 2 ^ 64 + b) by lia.
  rewrite Zplus_mod_idemp_l. f_equal. lia.
Qed.

Lemma saveMetadata_run w :
  mutex w = Unlocked →
  saveMetadata w
  = if decide (MetadataFile (config w) ∈ denied w)
    then Ret false (logged [EvRUnlock; EvDisk OpWriteFile (MetadataFile (config w)); EvRLock] w)
    else Ret true (logged [EvRUnlock; EvDisk OpWriteFile (MetadataFile (config w)); EvRLock]
                     (set_disk (<[MetadataFile (config w) := Doc (marshal_files w)]> (disk w)) w)).
Proof.
  intros Hmu. open_world w. unfold saveMetadata. run.
  destruct (decide (MetadataFile cfg ∈ dn)); reflexivity.
Qed.

Lemma count_stats_fold now l a b c d w :
  Forall (λ p, is_Some (heap w !! p)) l.*2 →
  foldM (count_stats now) (mkStats (wrap64 a) (wrap64 b) (wrap64 c) (wrap64 d)) l w
  = Ret (let fs := omap (λ p, heap w !! p) l.*2 in
         mkStats (wrap64 (a + Z.of_nat (length fs)))
           (wrap64 (b + foldr Z.add 0 (Size <$> fs)))
           (wrap64 (c + foldr Z.add 0 (Downloads <$> fs)))
           (wrap64 (d + Z.of_nat (length (filter (λ f, now < ExpiresAt f) fs))))) w.
Proof.
  revert a b c d. induction l as [|[k p] l IH]; intros a b c d Hv.
  { cbn. by rewrite !Z.add_0_r. }
  apply Forall_cons in Hv as [[f Hf] Hv]. cbn [snd] in Hf.
  cbn [foldM]. unfold bind at 1, count_stats at 1, bind at 1, deref at 1.
  cbv beta. change ((k, p).2) with p. rewrite Hf. unfold ret at 1.
  cbn [TotalFiles TotalSize TotalDownloads ActiveFiles].
  rewrite !wrap64_add_l.
  rewrite fmap_cons. change ((k, p).2) with p.
  change (omap ?g (p :: ?t)) with (match g p with Some y => y :: omap g t | None => omap g t end).
  cbv beta. rewrite Hf. rewrite !fmap_cons.
  cbn [foldr length].
  rewrite filter_cons. unfold Before.
  destruct (now <? ExpiresAt f) eqn:Hact.
  - apply Z.ltb_lt in Hact. rewrite (IH _ _ _ _ Hv). cbn zeta.
    case_decide; [|lia]. cbn [length].
    rewrite ?Nat2Z.inj_succ. do 2 f_equal; f_equal; lia.
  - apply Z.ltb_ge in Hact. rewrite (IH _ _ _ _ Hv). cbn zeta.
    case_decide; [lia|].
    rewrite ?Nat2Z.inj_succ. do 2 f_equal; f_equal; lia.
Qed.

Lemma sum_Permutation (l l' : list Z) : l ≡ₚ l' → foldr Z.add 0 l = foldr Z.add 0 l'.
Proof. induction 1; cbn; lia. Qed.

Lemma tally_Permutation now l l' : l ≡ₚ l' → tally now l = tally now l'.
Proof.
  intros H. unfold tally.
  rewrite (Permutation_length H).
  rewrite (sum_Permutation (Size <$> l) (Size <$> l')) by by apply fmap_Permutation.
  rewrite (sum_Permutation (Downloads <$> l) (Downloads <$> l')) by by apply fmap_Permutation.
  assert (filter (λ f, now < ExpiresAt f) l ≡ₚ filter (λ f, now < ExpiresAt f) l') as Hf
    by by rewrite H.
  by rewrite (Permutation_length Hf).
Qed.

Lemma filter_snd_map_to_list (P : FileInfo → Prop) `{∀ f, Decision (P f)}
    (m : gmap string FileInfo) :
  length (filter P (map_to_list m).*2) = size (filter (λ kv, P kv.2) m).
Proof.
  assert (NoDup (filter (λ kv : string * FileInfo, P kv.2) (map_to_list m)).*1) as Hnd.
  { eapply sublist_NoDup; [|apply fmap_sublist, sublist_filter].
    apply NoDup_fst_map_to_list. }
  rewrite map_filter_alt, <- length_map_to_list.
  rewrite (Permutation_length (map_to_list_to_map _ Hnd)).
  clear Hnd. induction (map_to_list m) as [|[k f] l IH]; [done|].
  rewrite fmap_cons, !filter_cons. change ((k, f).2) with f.
  destruct (decide (P f)); cbn [length]; by rewrite IH.
Qed.

Lemma tally_records now (m : gmap string FileInfo) :
  tally now (map_to_list m).*2
  = mkStats (wrap64 (Z.of_nat (size m))) (wrap64 (total Size m)) (wrap64 (total Downloads m))
      (wrap64 (Z.of_nat (size (filter (λ kv, now < ExpiresAt kv.2) m)))).
Proof.
  unfold tally, total.
  by rewrite length_fmap, length_map_to_list, filter_snd_map_to_list.
Qed.

Lemma getStats_run now w :
  mutex w = Unlocked → valid_ptrs w →
  getStats now w
  = Ret (JsonBody (Json.of_UploadStats (tally now (map_to_list (records w)).*2)))
      (logged [EvRUnlock; EvNet; EvRLock] w).
Proof.
  intros Hmu Hv. unfold getStats.
  unfold bind at 1. unfold RLock at 1. rewrite Hmu.
  unfold bind at 1. unfold range_files at 1.
  unfold bind at 1.
  pose proof (count_stats_fold now (map_to_list (files w)) 0 0 0 0
                (add_log EvRLock (set_mutex (RLocked 1) w))
                (valid_ptrs_Forall w Hv)) as Hfold.
  change (wrap64 0) with 0 in Hfold.
  change (files (add_log EvRLock (set_mutex (RLocked 1) w))) with (files w).
  rewrite Hfold. cbn zeta. rewrite !Z.add_0_l.
  change (heap (add_log EvRLock (set_mutex (RLocked 1) w))) with (heap w).
  change (mkStats _ _ _ _)
    with (tally now (omap (λ p, heap w !! p) (map_to_list (files w)).*2)).
  rewrite (tally_Permutation now _ _ (omap_map_to_list (λ p, heap w !! p) (files w))).
  open_world w. by run.
Qed.

(** X1: the statistics count the whole registry, expired records
    included: the number of records, the sums of their sizes and of
    their download counters, and the number of records that expire after
    the instant of the request, each as a 64-bit value; the request
    changes nothing. *)
Theorem stats_count_the_registry now w :
  mutex w = Unlocked → valid_ptrs w →
  ∃ w', getStats now w
        = Ret (JsonBody (Json.of_UploadStats
                 (mkStats (wrap64 (Z.of_nat (size (records w))))
                    (wrap64 (total Size (records w)))
                    (wrap64 (total Downloads (records w)))
                    (wrap64 (Z.of_nat (size (filter (λ kv, now < ExpiresAt kv.2)
                                                (records w)))))))) w' ∧
        same_state w w'.
Proof.
  intros Hmu Hv. eexists. rewrite (getStats_run now w Hmu Hv), tally_records.
  split; [reflexivity|]. apply same_state_logged.
Qed.

Lemma stats_count_the_registry_witness :
  ∃ w', getStats 15 two_files
        = Ret (JsonBody (JObj [ ("total_files", JNum 2); ("total_size", JNum 7);
                                ("total_downloads", JNum 0); ("active_files", JNum 2) ])) w'.
Proof.
  destruct (stats_count_the_registry 15 two_files eq_refl two_files_valid) as (w' & Hrun & _).
  exists w'. rewrite Hrun. vm_compute. reflexivity.
Defined.

Lemma records_filter_keys (P : string → Prop)
    `{∀ kv : string * loc, Decision (P kv.1)}
    `{∀ kv : string * FileInfo, Decision (P kv.1)} w w' :
  heap w' = heap w →
  files w' = filter (λ kv, P kv.1) (files w) →
  records w' = filter (λ kv, P kv.1) (records w).
Proof.
  intros Hh Hf. unfold records. rewrite Hh, Hf.
  apply map_eq. intros k. apply option_eq. intros f.
  rewrite lookup_omap, map_lookup_filter_Some, lookup_omap. cbn [fst].
  destruct (files w !! k) as [p|] eqn:Hk.
  - destruct (H (k, p)) as [HP|HP]; cbn [fst] in HP.
    + rewrite (proj2 (map_lookup_filter_Some _ _ _ _)) by done. cbn. tauto.
    + rewrite (proj2 (map_lookup_filter_None _ _ _)); [cbn; split; [done|tauto]|].
      right. intros ? ?. done.
  - rewrite (proj2 (map_lookup_filter_None _ _ _)) by by left. cbn. split; [done|by intros [? ?]].
Qed.

Lemma bulk_delete_one_absent c id w :
  files w !! id = None → bulk_delete_one c id w = Ret c w.
Proof. intros Hid. unfold bulk_delete_one, bind, files_lookup. by rewrite Hid. Qed.

Lemma bulk_delete_one_present c id p f w :
  files w !! id = Some p → heap w !! p = Some f →
  bulk_delete_one c id w
  = Ret (c + 1)
      (logged [EvDelete id; EvDisk OpRemove (Path f)]
         (set_files (delete id (files w))
            (set_disk (if decide (Path f ∈ denied w) then disk w
                       else delete (Path f) (disk w)) w))).
Proof.
  intros Hid Hp. open_world w. unfold bulk_delete_one. run. rewrite Hid, Hp.
  destruct (decide (Path f ∈ dn)); [reflexivity|].
  destruct (dk !! Path f) eqn:Hd; [reflexivity|].
  by rewrite (delete_id dk).
Qed.

Lemma filter_in_cons_absent (fs : gmap string loc) id ids :
  fs !! id = None →
  filter (λ kv, kv.1 ∈ id :: ids) fs = filter (λ kv, kv.1 ∈ ids) fs.
Proof.
  intros Hid. apply map_filter_ext. intros k p Hk. cbn [fst].
  rewrite elem_of_cons. split; [|by right].
  intros [->|?]; [congruence|done].
Qed.

Lemma filter_in_cons_present (fs : gmap string loc) id p ids :
  fs !! id = Some p →
  filter (λ kv, kv.1 ∈ id :: ids) fs = <[id := p]> (filter (λ kv, kv.1 ∈ ids) (delete id fs)).
Proof.
  intros Hid. apply map_eq. intros k. apply option_eq. intros q.
  rewrite map_lookup_filter_Some. cbn [fst].
  destruct (decide (k = id)) as [->|Hne].
  - rewrite lookup_insert_eq, Hid. split; [by intros [? _]|].
    intros ?. split; [done|]. apply list_elem_of_here.
  - rewrite lookup_insert_ne by done.
    rewrite map_lookup_filter_Some, lookup_delete_ne by done. cbn [fst].
    rewrite elem_of_cons. intuition congruence.
Qed.

Lemma filter_notin_cons (fs : gmap string loc) id ids :
  filter (λ kv, kv.1 ∉ ids) (delete id fs) = filter (λ kv, kv.1 ∉ id :: ids) fs.
Proof.
  apply map_eq. intros k. apply option_eq. intros q.
  rewrite !map_lookup_filter_Some. cbn [fst]. rewrite not_elem_of_cons.
  destruct (decide (k = id)) as [->|Hne].
  - rewrite lookup_delete_eq. intuition congruence.
  - rewrite lookup_delete_ne by done. tauto.
Qed.

(** The loop of the bulk delete: what it counts and what it leaves. *)
Lemma bulk_delete_fold ids c w :
  valid_ptrs w →
  ∃ w', foldM bulk_delete_one c ids w
        = Ret (c + Z.of_nat (size (filter (λ kv, kv.1 ∈ ids) (files w)))) w' ∧
        files w' = filter (λ kv, kv.1 ∉ ids) (files w) ∧
        heap w' = heap w ∧ mutex w' = mutex w ∧ config w' = config w ∧
        denied w' = denied w ∧
        (∀ path, disk w !! path = None → disk w' !! path = None) ∧
        (∀ id p f, id ∈ ids → files w !! id = Some p → heap w !! p = Some f →
                   Path f ∉ denied w → disk w' !! Path f = None).
Proof.
  revert c w. induction ids as [|id ids IH]; intros c w Hv.
  { exists w. cbn [foldM]. unfold ret.
    assert (filter (λ kv : string * loc, kv.1 ∈ []) (files w) = ∅) as ->.
    { apply map_empty. intros k. apply map_lookup_filter_None. right.
      intros ? _ H. inversion H. }
    rewrite map_size_empty, Z.add_0_r.
    repeat split; try done.
    - symmetry. apply map_filter_id. intros ? ? _ H. inversion H.
    - intros ? ? ? H. inversion H. }
  cbn [foldM]. unfold bind at 1.
  destruct (files w !! id) as [p|] eqn:Hid.
  - destruct (Hv id p Hid) as [f Hp].
    rewrite (bulk_delete_one_present c id p f w Hid Hp).
    set (w1 := logged _ _).
    assert (valid_ptrs w1) as Hv1.
    { intros k q Hk. cbn in Hk. apply lookup_delete_Some in Hk as [_ Hk].
      by apply (Hv k). }
    destruct (IH (c + 1) w1 Hv1) as (w' & Hrun & Hf & Hh & Hmu & Hc & Hdn & Hgone & Hrem).
    exists w'. rewrite Hrun.
    change (files w1) with (delete id (files w)) in *.
    change (heap w1) with (heap w) in *.
    change (denied w1) with (denied w) in *.
    change (disk w1) with (if decide (Path f ∈ denied w) then disk w
                          else delete (Path f) (disk w)) in *.
    rewrite (filter_in_cons_present (files w) id p ids Hid).
    rewrite map_size_insert_None
      by (apply map_lookup_filter_None; left; apply lookup_delete_eq).
    split; [f_equal; lia|].
    split; [by rewrite Hf, filter_notin_cons|].
    repeat split; try done.
    + intros path Hnone. apply Hgone.
      destruct (decide (Path f ∈ denied w)); [done|].
      destruct (decide (path = Path f)) as [->|Hne];
        [apply lookup_delete_eq|by rewrite lookup_delete_ne].
    + intros i q g Hi Hq Hg Hden.
      destruct (decide (i = id)) as [->|Hne].
      * assert (q = p) as -> by congruence. assert (g = f) as -> by congruence.
        apply Hgone. rewrite decide_False by done. apply lookup_delete_eq.
      * apply (Hrem i q g); try done.
        -- apply elem_of_cons in Hi as [?|?]; [done|done].
        -- by rewrite lookup_delete_ne.
  - rewrite (bulk_delete_one_absent c id w Hid).
    destruct (IH c w Hv) as (w' & Hrun & Hf & Hh & Hmu & Hc & Hdn & Hgone & Hrem).
    exists w'. rewrite Hrun.
    rewrite (filter_in_cons_absent (files w) id ids Hid).
    split; [done|].
    split.
    { rewrite Hf, <- filter_notin_cons. by rewrite delete_id. }
    repeat split; try done.
    intros i q g Hi Hq Hg Hden.
    apply elem_of_cons in Hi as [->|Hi]; [congruence|]. by apply (Hrem i q g).
Qed.

(** X2: a bulk delete that is not a POST answers 405 and one whose body
    does not decode answers 400, both without touching anything.
    Otherwise it removes every listed id that is in the registry,
    together with its file unless the removal fails, and leaves all
    other records; [deleted] is the number of distinct listed ids that
    were present, [total] the length of the list as sent, duplicates
    and unknown ids included. *)
Theorem bulk_delete_counts_present_ids r w :
  mutex w = Unlocked → valid_ptrs w →
  (Method r ≠ "POST" →
   ∃ w', bulkDelete r w = Ret (HttpError 405 "Method not allowed") w' ∧ same_state w w') ∧
  (Method r = "POST" → decode_file_ids (Body r) = None →
   ∃ w', bulkDelete r w = Ret (HttpError 400 "Invalid request") w' ∧ same_state w w') ∧
  (∀ ids, Method r = "POST" → decode_file_ids (Body r) = Some ids →
   ∃ w', bulkDelete r w
         = Ret (JsonBody (JObj [ ("deleted", JNum (Z.of_nat (size (filter (λ kv, kv.1 ∈ ids)
                                                                      (files w)))));
                                 ("total", JNum (Z.of_nat (length ids))) ])) w' ∧
         records w' = filter (λ kv, kv.1 ∉ ids) (records w) ∧
         mutex w' = Unlocked ∧
         (∀ id f, id ∈ ids → records w !! id = Some f →
                  Path f ∉ denied w → Path f ≠ MetadataFile (config w) →
                  disk w' !! Path f = None)).
Proof.
  intros Hmu Hv. split; [|split].
  - intros Hm. unfold bulkDelete.
    destruct (String.eqb_spec (Method r) "POST") as [?|_]; [done|].
    cbn [negb]. eexists. split; [reflexivity|]. apply (same_state_logged [EvNet]).
  - intros Hm Hbody. unfold bulkDelete. rewrite Hm, Hbody. cbn [String.eqb negb].
    change ("POST" =? "POST")%string with true. cbn [negb].
    eexists. split; [reflexivity|]. apply (same_state_logged [EvNet]).
  - intros ids Hm Hbody. unfold bulkDelete. rewrite Hm, Hbody.
    change ("POST" =? "POST")%string with true. cbn [negb].
    unfold bind at 1. unfold Lock at 1. rewrite Hmu.
    set (w0 := add_log EvLock (set_mutex WLocked w)).
    destruct (bulk_delete_fold ids 0 w0 Hv)
      as (w1 & Hrun & Hf & Hh & Hmu1 & Hc & Hdn & Hgone & Hrem).
    unfold bind at 1. rewrite Hrun. rewrite Z.add_0_l.
    change (files w0) with (files w) in *. change (heap w0) with (heap w) in *.
    change (denied w0) with (denied w) in *. change (disk w0) with (disk w) in *.
    change (config w0) with (config w) in *.
    unfold bind at 1. unfold Unlock at 1, modify at 1.
    set (w2 := add_log EvUnlock (set_mutex Unlocked w1)).
    assert (records w2 = filter (λ kv, kv.1 ∉ ids) (records w)) as Hrec.
    { apply (records_filter_keys (λ k, k ∉ ids) w w2); done. }
    assert (∀ id f, id ∈ ids → records w !! id = Some f → Path f ∉ denied w →
                    disk w2 !! Path f = None) as Hdisk.
    { intros id f Hin Hr Hden. apply records_lookup_Some in Hr as (p & Hp & Hq).
      by apply (Hrem id p f). }
    destruct (0 <? Z.of_nat (size (filter (λ kv, kv.1 ∈ ids) (files w)))).
    + unfold bind at 1. unfold bind at 1.
      rewrite (saveMetadata_run w2 eq_refl).
      change (config w2) with (config w1). change (denied w2) with (denied w1).
      rewrite Hc, Hdn.
      destruct (decide (MetadataFile (config w) ∈ denied w)).
      * eexists. split; [reflexivity|]. split; [done|]. split; [done|].
        intros id f Hin Hr Hden _. by apply (Hdisk id f).
      * eexists. split; [reflexivity|]. split; [done|]. split; [done|].
        intros id f Hin Hr Hden Hne. cbn [disk add_log logged set_disk].
        rewrite lookup_insert_ne by done. by apply (Hdisk id f).
    + unfold bind at 1. unfold ret at 1.
      eexists. split; [reflexivity|]. split; [done|]. split; [done|].
      intros id f Hin Hr Hden _. by apply (Hdisk id f).
Qed.

Lemma bulk_delete_counts_present_ids_witness :
  ∃ w', bulkDelete (bulk_request ["ab"; "zz"; "ab"]) two_files
        = Ret (JsonBody (JObj [("deleted", JNum 1); ("total", JNum 3)])) w' ∧
        records w' = {["cd" := secret]}.
Proof.
  destruct (bulk_delete_counts_present_ids (bulk_request ["ab"; "zz"; "ab"]) two_files
              eq_refl two_files_valid) as (_ & _ & Hrun).
  destruct (Hrun ["ab"; "zz"; "ab"] eq_refl eq_refl) as (w' & Hret & Hrec & _).
  exists w'. split.
  - rewrite Hret. vm_compute. reflexivity.
  - rewrite Hrec. vm_compute. reflexivity.
Defined.

(** The scaling loop stops within its rounds, at the power of 1024 just
    below [n], and its multiplications do not overflow. *)
Lemma scale_spec rounds n div exp :
  1 ≤ n → n < 1024 ^ Z.of_nat rounds → 0 < div → div * n < 2 ^ 63 →
  ∃ k : nat, scale rounds n div exp = Some (div * 1024 ^ Z.of_nat k, (exp + k)%nat) ∧
             1024 ^ Z.of_nat k ≤ n < 1024 ^ (Z.of_nat k + 1).
Proof.
  revert n div exp. induction rounds as [|rounds IH]; intros n div exp Hn Hlt Hdiv Hmul.
  { cbn in Hlt. lia. }
  cbn [scale]. destruct (1024 <=? n) eqn:Hbig.
  - apply Z.leb_le in Hbig.
    assert (n ÷ 1024 = n / 1024) as Hq by (apply Z.quot_div_nonneg; lia).
    assert (1 ≤ n / 1024) as Hq1 by (apply Z.div_le_lower_bound; lia).
    assert (1024 * (n / 1024) ≤ n) as Hq2 by (apply Z.mul_div_le; lia).
    assert (n < 1024 * (n / 1024 + 1)) as Hq3.
    { pose proof (Z.mod_pos_bound n 1024 ltac:(lia)).
      pose proof (Z.div_mod n 1024 ltac:(lia)). lia. }
    rewrite wrap64_small by nia.
    rewrite Hq.
    destruct (IH (n / 1024) (div * 1024) (S exp)) as (k & Hrun & Hlo & Hhi).
    + lia.
    + rewrite Nat2Z.inj_succ, Z.pow_succ_r in Hlt by lia. lia.
    + lia.
    + nia.
    + exists (S k). rewrite Hrun. split.
      * f_equal. f_equal; [|lia].
        rewrite Nat2Z.inj_succ, Z.pow_succ_r by lia. lia.
      * rewrite Nat2Z.inj_succ.
        replace (Z.succ (Z.of_nat k) + 1) with (Z.succ (Z.of_nat k + 1)) by lia.
        rewrite !Z.pow_succ_r by lia. lia.
  - apply Z.leb_gt in Hbig. exists 0%nat. split.
    + do 2 f_equal; [cbn; lia|lia].
    + cbn. lia.
Qed.

Lemma unit_letter k : (k ≤ 5)%nat → is_Some (String.get k "KMGTPE").
Proof. intros H. do 6 (destruct k as [|k]; [by eexists|]). lia. Qed.

(** On a 64-bit size [formatBytes] gives a text. *)
Lemma formatBytes_total bytes :
  - 2 ^ 63 ≤ bytes < 2 ^ 63 → ∃ t, formatBytes bytes = Some t.
Proof.
  intros Hrange. unfold formatBytes.
  destruct (Z.ltb_spec bytes 1024) as [Hsmall|Hbig]; [by eexists|].
  assert (bytes ÷ 1024 = bytes / 1024) as Hq by (apply Z.quot_div_nonneg; lia).
  assert (1 ≤ bytes / 1024) as Hq1 by (apply Z.div_le_lower_bound; lia).
  assert (1024 * (bytes / 1024) ≤ bytes) as Hq2 by (apply Z.mul_div_le; lia).
  rewrite Hq.
  destruct (scale_spec 64 (bytes / 1024) 1024 0) as (k & Hrun & Hlo & Hhi); [lia| |lia|lia|].
  { change (1024 ^ Z.of_nat 64) with (2 ^ 640).
    assert (2 ^ 63 < 2 ^ 640) by (apply Z.pow_lt_mono_r; lia). lia. }
  assert (k ≤ 5)%nat as Hk.
  { destruct (decide (k ≤ 5)%nat) as [?|Hgt]; [done|exfalso].
    assert (1024 ^ 6 ≤ 1024 ^ Z.of_nat k) by (apply Z.pow_le_mono_r; lia).
    change (1024 ^ 6) with (2 ^ 60) in *.
    assert (bytes / 1024 < 2 ^ 53).
    { apply Z.div_lt_upper_bound; [lia|]. change (1024 * 2 ^ 53) with (2 ^ 63). lia. }
    assert (2 ^ 53 < 2 ^ 60) by (apply Z.pow_lt_mono_r; lia). lia. }
  destruct (unit_letter k Hk) as [u Hu].
  rewrite Hrun. cbn [mbind option_bind]. rewrite Nat.add_0_l, Hu. by eexists.
Qed.

(** X3: [formatBytes] on a 64-bit size never panics and never gets into
    an overflow: below 1024 it prints the number of bytes as it is, a
    negative one too; from 1024 on it divides by the power of 1024 just
    below the size and picks one of the six letters of ["KMGTPE"], so
    that the number printed lies between 1 and 1024. *)
Theorem formatBytes_picks_the_unit bytes :
  - 2 ^ 63 ≤ bytes < 2 ^ 63 →
  (bytes < 1024 → formatBytes bytes = Some (PlainBytes bytes)) ∧
  (1024 ≤ bytes →
   ∃ (e : nat) (u : ascii),
     (e ≤ 5)%nat ∧ String.get e "KMGTPE" = Some u ∧
     formatBytes bytes = Some (ScaledBytes bytes (1024 ^ (Z.of_nat e + 1)) u) ∧
     1024 ^ (Z.of_nat e + 1) ≤ bytes < 1024 ^ (Z.of_nat e + 2)).
Proof.
  intros Hrange. unfold formatBytes. split.
  - intros Hsmall. by rewrite (proj2 (Z.ltb_lt _ _) Hsmall).
  - intros Hbig. rewrite (proj2 (Z.ltb_ge _ _) Hbig).
    assert (bytes ÷ 1024 = bytes / 1024) as Hq by (apply Z.quot_div_nonneg; lia).
    assert (1 ≤ bytes / 1024) as Hq1 by (apply Z.div_le_lower_bound; lia).
    assert (1024 * (bytes / 1024) ≤ bytes) as Hq2 by (apply Z.mul_div_le; lia).
    assert (bytes < 1024 * (bytes / 1024 + 1)) as Hq3.
    { pose proof (Z.mod_pos_bound bytes 1024 ltac:(lia)).
      pose proof (Z.div_mod bytes 1024 ltac:(lia)). lia. }
    rewrite Hq.
    destruct (scale_spec 64 (bytes / 1024) 1024 0) as (k & Hrun & Hlo & Hhi).
    + lia.
    + change (1024 ^ Z.of_nat 64) with (2 ^ 640). 
      assert (2 ^ 63 < 2 ^ 640) by (apply Z.pow_lt_mono_r; lia). lia.
    + lia.
    + lia.
    + assert (k ≤ 5)%nat as Hk.
      { destruct (decide (k ≤ 5)%nat) as [?|Hgt]; [done|exfalso].
        assert (1024 ^ 6 ≤ 1024 ^ Z.of_nat k) by (apply Z.pow_le_mono_r; lia).
        change (1024 ^ 6) with (2 ^ 60) in *.
        assert (bytes / 1024 < 2 ^ 53).
        { apply Z.div_lt_upper_bound; [lia|]. change (1024 * 2 ^ 53) with (2 ^ 63). lia. }
        assert (2 ^ 53 < 2 ^ 60) by (apply Z.pow_lt_mono_r; lia). lia. }
      destruct (unit_letter k Hk) as [u Hu].
      exists k, u. rewrite Hrun. cbn [mbind option_bind]. rewrite Nat.add_0_l, Hu.
      cbn [mbind option_bind].
      replace (1024 * 1024 ^ Z.of_nat k) with (1024 ^ (Z.of_nat k + 1))
        by (rewrite Z.pow_add_r by lia; lia).
      split; [done|]. split; [done|]. split; [done|].
      replace (Z.of_nat k + 2) with (Z.succ (Z.of_nat k + 1)) by lia.
      rewrite Z.pow_succ_r by lia.
      replace (Z.of_nat k + 1) with (Z.succ (Z.of_nat k)) in * by lia.
      rewrite Z.pow_succ_r in * by lia. lia.
Qed.

Lemma formatBytes_picks_the_unit_witness :
  formatBytes 5 = Some (PlainBytes 5) ∧
  ∃ (e : nat) (u : ascii),
    formatBytes 3145728 = Some (ScaledBytes 3145728 (1024 ^ (Z.of_nat e + 1)) u) ∧
    1024 ^ (Z.of_nat e + 1) ≤ 3145728 < 1024 ^ (Z.of_nat e + 2).
Proof.
  destruct (formatBytes_picks_the_unit 5 ltac:(lia)) as [Hsmall _].
  destruct (formatBytes_picks_the_unit 3145728 ltac:(lia)) as [_ Hbig].
  split; [apply Hsmall; lia|].
  destruct (Hbig ltac:(lia)) as (e & u & _ & _ & Hrun & Hbounds).
  by exists e, u.
Defined.

Lemma substring_min n m s :
  String.substring n (Nat.min m (String.length s - n)) s = String.substring n m s.
Proof.
  revert n m. induction s as [|c s IH]; intros [|n] [|m]; cbn; try done.
  - f_equal. specialize (IH 0%nat m). by rewrite Nat.sub_0_r in IH.
  - apply (IH n (S m)).
Qed.

Lemma length_substring n m s :
  String.length (String.substring n m s) = Nat.min m (String.length s - n).
Proof.
  revert n m. induction s as [|c s IH]; intros [|n] [|m]; cbn; try done.
  f_equal. rewrite IH. by rewrite Nat.sub_0_r.
Qed.

Lemma substring_prefix m s : ∃ rest, s = String.substring 0 m s +:+ rest.
Proof.
  revert m. induction s as [|c s IH]; intros [|m]; cbn.
  - by exists EmptyString.
  - by exists EmptyString.
  - by eexists.
  - destruct (IH m) as [rest Hrest]. exists rest.
    change (String c s = String c (String.substring 0 m s +:+ rest)). by f_equal.
Qed.

Lemma substr_in_range s start length :
  0 ≤ start → 0 ≤ length → start + length < 2 ^ 63 →
  substr s start length
  = Some (String.substring (Z.to_nat start) (Z.to_nat length) s).
Proof.
  intros Hs Hl Hsum. unfold substr.
  destruct (Z.of_nat (String.length s) <=? start) eqn:Hout.
  - apply Z.leb_le in Hout. f_equal. symmetry.
    rewrite <- substring_min.
    replace (String.length s - Z.to_nat start)%nat with 0%nat by lia.
    rewrite Nat.min_0_r.
    clear. generalize (Z.to_nat start). intros n. revert n.
    induction s as [|c s IH]; intros [|n]; cbn; done.
  - apply Z.leb_gt in Hout. rewrite wrap64_small by lia.
    destruct (Z.of_nat (String.length s) <? start + length) eqn:Hclip.
    + apply Z.ltb_lt in Hclip.
      rewrite (proj2 (Z.leb_le 0 start)) by done.
      rewrite (proj2 (Z.leb_le start _)) by lia. cbn [andb].
      f_equal. rewrite <- (substring_min _ (Z.to_nat length)). f_equal. lia.
    + apply Z.ltb_ge in Hclip.
      rewrite (proj2 (Z.leb_le 0 start)) by done.
      rewrite (proj2 (Z.leb_le start _)) by lia. cbn [andb].
      do 2 f_equal. lia.
Qed.

(** X4: [substr] cuts [length] bytes from [start] and stops at the end
    of the string, so that a start at or past the end gives the empty
    string; a negative start panics.  The template's call on the
    checksum never panics: the cell shows the first twelve characters
    of the checksum, or all of a shorter one. *)
Theorem substr_stops_at_the_end s start length tf :
  (0 ≤ start → 0 ≤ length → start + length < 2 ^ 63 →
   ∃ t, substr s start length = Some t ∧
        t = String.substring (Z.to_nat start) (Z.to_nat length) s ∧
        String.length t = Nat.min (Z.to_nat length) (String.length s - Z.to_nat start)) ∧
  (start < 0 → substr s start length = None) ∧
  (∃ t rest, checksum_cell tf = Some t ∧ Checksum (row tf) = t +:+ rest ∧
             String.length t = Nat.min 12 (String.length (Checksum (row tf)))).
Proof.
  split; [|split].
  - intros Hs Hl Hsum. eexists. split; [by apply substr_in_range|].
    split; [done|]. apply length_substring.
  - intros Hneg. unfold substr.
    rewrite (proj2 (Z.leb_gt _ _)) by lia.
    by rewrite (proj2 (Z.leb_gt 0 start)) by lia.
  - unfold checksum_cell. rewrite substr_in_range by lia.
    destruct (substring_prefix 12 (Checksum (row tf))) as [rest Hrest].
    eexists _, rest. split; [done|]. split; [exact Hrest|].
    rewrite length_substring. by rewrite Nat.sub_0_r.
Qed.




Lemma answers_weaken {A} (P Q : A → Prop) (m : M A) :
  (∀ a, P a → Q a) → answers P m → answers Q m.
Proof. intros HPQ Hm w a w' Hrun. apply HPQ. by apply (Hm w a w'). Qed.



Lemma Contains_cons c s sub :
  Str.Contains (String c s) sub = String.prefix sub (String c s) || Str.Contains s sub.
Proof. done. Qed.

Lemma Split_segment sep name :
  Str.Contains name (String sep EmptyString) = false → Str.Split sep name = [name].
Proof.
  induction name as [|c name IH]; [done|].
  rewrite Contains_cons. intros [Hc Hrest]%orb_false_elim.
  cbn [String.prefix] in Hc.
  cbn [Str.Split]. rewrite Ascii.eqb_sym.
  destruct name as [|c' name'] eqn:Hname.
  - destruct (Ascii.eqb sep c) eqn:Hsep; [|done].
    apply Ascii.eqb_eq in Hsep. destruct (ascii_dec sep c); [by destruct name|contradiction].
  - destruct (Ascii.eqb sep c) eqn:Hsep.
    + apply Ascii.eqb_eq in Hsep. destruct (ascii_dec sep c); [by destruct name|contradiction].
    + by rewrite (IH Hrest).
Qed.

Lemma Split_first sep name rest :
  Str.Contains name (String sep EmptyString) = false →
  Str.Split sep (name +:+ String sep rest) = name :: Str.Split sep rest.
Proof.
  induction name as [|c name IH].
  { intros _. change (EmptyString +:+ String sep rest) with (String sep rest).
    cbn [Str.Split]. by rewrite Ascii.eqb_refl. }
  rewrite Contains_cons. intros [Hc Hrest]%orb_false_elim.
  cbn [String.prefix] in Hc.
  change (String c name +:+ String sep rest) with (String c (name +:+ String sep rest)).
  cbn [Str.Split]. rewrite Ascii.eqb_sym.
  destruct (Ascii.eqb sep c) eqn:Hsep.
  - apply Ascii.eqb_eq in Hsep. destruct (ascii_dec sep c); [by destruct name|contradiction].
  - by rewrite (IH Hrest).
Qed.

(** X6: under [/api/] only the first segment of the path counts, what
    follows it is ignored: [files] lists the files on GET and answers
    405 otherwise, [upload] uploads on POST and answers 405 otherwise,
    [health] answers the health check on every method, and every other
    first segment, the empty one of [/api/] included, answers
    404 "Unknown API endpoint" and touches nothing. *)
Theorem api_first_segment_selects sha256_Sum env now uptime r w name rest :
  Str.Contains name "/" = false →
  URLPath r = "/api/" +:+ name ∨ URLPath r = "/api/" +:+ name +:+ "/" +:+ rest →
  apiHandler sha256_Sum env now uptime r w
  = if String.eqb name "files" then
      if String.eqb (Method r) "GET" then listFilesAPI r w
      else Ret (HttpError 405 "Method not allowed") (logged [EvNet] w)
    else if String.eqb name "upload" then
      if String.eqb (Method r) "POST" then uploadFile sha256_Sum env r w
      else Ret (HttpError 405 "Method not allowed") (logged [EvNet] w)
    else if String.eqb name "health" then healthCheck now uptime w
    else Ret (HttpError 404 "Unknown API endpoint") (logged [EvNet] w).
Proof.
  intros Hname Hpath. unfold apiHandler.
  assert (∃ parts, Str.Split "/" (Str.TrimPrefix (URLPath r) "/api/") = name :: parts)
    as [parts ->].
  { destruct Hpath as [-> | ->]; rewrite TrimPrefix_app.
    - exists []. by apply Split_segment.
    - eexists. by apply (Split_first "/" name rest). }
  destruct (String.eqb name "files"); [by destruct (String.eqb (Method r) "GET")|].
  destruct (String.eqb name "upload"); [by destruct (String.eqb (Method r) "POST")|].
  by destruct (String.eqb name "health").
Qed.

Lemma api_first_segment_selects_witness :
  apiHandler toy_digest (mkUploadEnv [] 0 0 NoFault) 15 "1h"
    (get_request "/api/files/by/name" []) two_files
  = listFilesAPI (get_request "/api/files/by/name" []) two_files ∧
  apiHandler toy_digest (mkUploadEnv [] 0 0 NoFault) 15 "1h" (get_request "/api/" []) two_files
  = Ret (HttpError 404 "Unknown API endpoint") (logged [EvNet] two_files).
Proof.
  split.
  - apply (api_first_segment_selects toy_digest (mkUploadEnv [] 0 0 NoFault) 15 "1h"
             (get_request "/api/files/by/name" []) two_files "files" "by/name");
      [reflexivity|by right].
  - apply (api_first_segment_selects toy_digest (mkUploadEnv [] 0 0 NoFault) 15 "1h"
             (get_request "/api/" []) two_files "" "");
      [reflexivity|by left].
Defined.

(** A pointer of the table that points nowhere contradicts [valid_ptrs]. *)
Ltac dangling Hv :=
  match goal with
  | Hid : ?fs !! ?i = Some ?p, Hp : ?hp !! ?p = None |- _ =>
      destruct (Hv i p Hid) as [? ?]; cbn in *; congruence
  end.

Section lock_free.
Variable sha256_Sum : list byte → list byte.

Lemma uploadFile_settled env r w :
  mutex w = Unlocked → settled (uploadFile sha256_Sum env r w).
Proof. intros Hmu. open_world w. crack; reflexivity. Qed.

End lock_free.

Lemma listFilesAPI_settled r w :
  mutex w = Unlocked → valid_ptrs w → settled (listFilesAPI r w).
Proof.
  intros Hmu Hv. destruct (listFilesAPI_run r w Hmu Hv) as (l & -> & _). exact Hmu.
Qed.

Lemma healthCheck_settled now uptime w :
  mutex w = Unlocked → settled (healthCheck now uptime w).
Proof. intros Hmu. open_world w. crack; reflexivity. Qed.

Lemma bulkDelete_settled r w :
  mutex w = Unlocked → valid_ptrs w → settled (bulkDelete r w).
Proof.
  intros Hmu Hv. unfold bulkDelete.
  destruct (negb (Method r =? "POST")%string); [exact Hmu|].
  destruct (decode_file_ids (Body r)) as [ids|]; [|exact Hmu].
  unfold bind at 1. unfold Lock at 1. rewrite Hmu.
  destruct (bulk_delete_fold ids 0 (add_log EvLock (set_mutex WLocked w)) Hv)
    as (w1 & Hrun & _).
  unfold bind at 1. rewrite Hrun.
  unfold bind at 1. unfold Unlock at 1, modify at 1.
  destruct (0 <? _).
  - unfold bind at 1. unfold bind at 1. rewrite saveMetadata_run by done.
    by destruct (decide _).
  - done.
Qed.

(** X7: from a free mutex and a table whose pointers all point to
    records, every request handler returns, whatever the request and
    whatever the file system does: none blocks, none panics, and each
    leaves the mutex free, on its error paths too. *)
Theorem handlers_return_with_the_lock_free sha256_Sum env now uptime r w :
  mutex w = Unlocked → valid_ptrs w →
  settled (uploadFile sha256_Sum env r w) ∧
  settled (downloadFile now r w) ∧
  settled (deleteFile r w) ∧
  settled (bulkDelete r w) ∧
  settled (fileInfo r w) ∧
  settled (searchFiles r w) ∧
  settled (getStats now w) ∧
  settled (manageFiles now r w) ∧
  settled (listFilesAPI r w) ∧
  settled (healthCheck now uptime w) ∧
  settled (apiHandler sha256_Sum env now uptime r w) ∧
  settled (saveMetadata w).
Proof.
  intros Hmu Hv.
  assert (settled (downloadFile now r w) ∧ settled (deleteFile r w) ∧
          settled (fileInfo r w) ∧ settled (saveMetadata w)) as (Hdl & Hdel & Hinfo & Hsave).
  { revert Hv. open_world w. intros Hv.
    repeat split; crack; try reflexivity; try dangling Hv.
    match goal with
    | H : <[?l := _]> _ !! ?l = None |- _ => by rewrite lookup_insert_eq in H
    end. }
  split; [by apply uploadFile_settled|]. split; [done|]. split; [done|].
  split; [by apply bulkDelete_settled|]. split; [done|].
  split. { destruct (searchFiles_run r w Hmu Hv) as (l & -> & _). exact Hmu. }
  split. { rewrite (getStats_run now w Hmu Hv). exact Hmu. }
  split.
  { destruct (wants_json r) eqn:Hjson.
    - destruct (manageFiles_json now r w Hmu Hv Hjson) as (l & -> & _). exact Hmu.
    - destruct (manageFiles_html now r w Hmu Hv Hjson) as (l & stats & -> & _). exact Hmu. }
  split; [by apply listFilesAPI_settled|].
  split; [by apply healthCheck_settled|].
  split; [|done].
  unfold apiHandler.
  destruct (Str.Split "/" (Str.TrimPrefix (URLPath r) "/api/")) as [|part0 parts];
    [exact Hmu|].
  destruct (String.eqb part0 "files").
  { destruct (String.eqb (Method r) "GET"); [by apply listFilesAPI_settled|exact Hmu]. }
  destruct (String.eqb part0 "upload").
  { destruct (String.eqb (Method r) "POST"); [by apply uploadFile_settled|exact Hmu]. }
  destruct (String.eqb part0 "health"); [by apply healthCheck_settled|exact Hmu].
Qed.

Lemma handlers_return_with_the_lock_free_witness :
  settled (downloadFile 15 (get_request "/download/ab" []) two_files) ∧
  settled (deleteFile (get_request "/delete/cd" []) two_files).
Proof.
  destruct (handlers_return_with_the_lock_free toy_digest (mkUploadEnv [] 0 0 NoFault) 15 "1h"
              (get_request "/download/ab" []) two_files eq_refl two_files_valid)
    as (_ & Hdl & _).
  destruct (handlers_return_with_the_lock_free toy_digest (mkUploadEnv [] 0 0 NoFault) 15 "1h"
              (get_request "/delete/cd" []) two_files eq_refl two_files_valid)
    as (_ & _ & Hdel & _).
  by split.
Defined.

(** A sweep that finds nothing to remove returns and changes nothing. *)
Lemma cleanup_idle now w :
  mutex w = Unlocked → valid_ptrs w →
  (∀ id f, records w !! id = Some f → eligible now f = false) →
  cleanup now w = Ret tt (logged [EvUnlock; EvLock] w).
Proof.
  intros Hmu Hv Hnone.
  destruct (cleanup_run now w Hmu Hv) as (w1 & c & Hpost & Hrun).
  destruct Hpost as (Hc & Hh & Hm & Hd & Hlog & Hle & Hcnt & Hf0 & Hd0 & Hf1 & Hf2 & Hd1 & Hd2).
  cbn [heap files disk denied log config mutex add_log set_mutex] in *.
  assert (∀ k p f, (k, p) ∈ map_to_list (files w) → heap w !! p = Some f →
                   eligible now f = false) as Hnone'.
  { intros k p f Hin0 Hp. apply elem_of_map_to_list in Hin0.
    apply (Hnone k). apply records_lookup_Some. eauto. }
  assert (c = 0) as -> by by apply Hcnt.
  rewrite Hrun. cbn. f_equal.
  rewrite sweep_events_none in Hlog by done.
  assert (files w1 = files w) as Hfs.
  { apply map_eq. intros k. apply Hf2. intros p f. apply Hnone'. }
  assert (disk w1 = disk w) as Hdk.
  { apply map_eq. intros path. apply Hd2. intros k p f Hin0 Hp Hel.
    rewrite (Hnone' k p f) in Hel; done. }
  clear Hrun. destruct w1, w. cbn in *. by subst.
Qed.

(** A sweep that removes a record blocks, holding the write lock, with
    the eligible records gone from the table. *)
Lemma cleanup_stuck now w id f :
  mutex w = Unlocked → valid_ptrs w →
  records w !! id = Some f → eligible now f = true →
  ∃ w1, cleanup now w = Hang w1 ∧ mutex w1 = WLocked ∧
        records w1 = filter (λ kv, eligible now kv.2 = false) (records w).
Proof.
  intros Hmu Hv Hrec Hel.
  destruct (cleanup_run now w Hmu Hv) as (w1 & c & Hpost & Hrun).
  destruct Hpost as (Hc & Hh & Hm & Hd & Hlog & Hle & Hcnt & Hf0 & Hd0 & Hf1 & Hf2 & Hd1 & Hd2).
  cbn [heap files disk denied log config mutex add_log set_mutex] in *.
  apply records_lookup_Some in Hrec as (p & Hid & Hp).
  assert (c ≠ 0) as Hne.
  { intros ->. pose proof (proj1 Hcnt eq_refl id p f) as Hno.
    rewrite Hno in Hel; [done| |done]. by apply elem_of_map_to_list. }
  exists w1. rewrite Hrun. destruct (Z.ltb_spec 0 c); [|lia].
  split; [done|]. split; [done|].
  apply map_eq. intros k. rewrite map_lookup_filter, !records_lookup, Hh.
  destruct (files w !! k) as [q|] eqn:Hk; [|by rewrite Hf0].
  destruct (Hv k q Hk) as [g Hq]. cbn. rewrite Hq. cbn.
  destruct (eligible now g) eqn:Hg.
  - rewrite (Hf1 k q g); [|by apply elem_of_map_to_list|done..].
    by rewrite option_guard_False.
  - rewrite Hf2, Hk.
    + cbn. rewrite Hq. by rewrite option_guard_True.
    + intros p0 f0 Hin0 Hp0. apply elem_of_map_to_list in Hin0. congruence.
Qed.

Lemma same_state_trans w1 w2 w3 : same_state w1 w2 → same_state w2 w3 → same_state w1 w3.
Proof.
  intros (? & ? & ? & ? & ? & ?) (? & ? & ? & ? & ? & ?).
  repeat split; congruence.
Qed.

Lemma same_state_records w w' : same_state w w' → records w' = records w.
Proof. intros (_ & Hf & Hh & _). unfold records. by rewrite Hf, Hh. Qed.

Lemma same_state_valid w w' : same_state w w' → valid_ptrs w → valid_ptrs w'.
Proof. intros (_ & Hf & Hh & _) Hv id p. rewrite Hf, Hh. apply Hv. Qed.

(** The ticks at which the sweeper finds nothing go by without a
    change. *)
Lemma cleanupRoutine_idle ticks w :
  mutex w = Unlocked → valid_ptrs w →
  (∀ t id f, t ∈ ticks → records w !! id = Some f → eligible t f = false) →
  ∃ w', cleanupRoutine ticks w = Ret tt w' ∧ same_state w w'.
Proof.
  revert w. induction ticks as [|t ticks IH]; intros w Hmu Hv Hnone.
  { exists w. split; [done|]. by repeat split. }
  unfold cleanupRoutine. cbn [foldM]. unfold bind at 1.
  rewrite (cleanup_idle t w Hmu Hv)
    by (intros id f; apply Hnone; apply list_elem_of_here).
  pose proof (same_state_logged [EvUnlock; EvLock] w) as Hsame.
  destruct (IH (logged [EvUnlock; EvLock] w)) as (w' & Hrun & Hsame').
  - done.
  - by apply (same_state_valid w).
  - intros t' id f Hin. rewrite (same_state_records w) by done.
    apply Hnone. by apply list_elem_of_further.
  - exists w'. split; [exact Hrun|]. by apply (same_state_trans _ _ _ Hsame).
Qed.

Lemma foldM_app {A B} (f : B → A → M B) (l1 l2 : list A) (b : B) (w : world) :
  foldM f b (l1 ++ l2) w = (b' <- foldM f b l1 ;; foldM f b' l2) w.
Proof.
  revert b w. induction l1 as [|x l1 IH]; intros b w; [done|].
  cbn [app foldM]. unfold bind. specialize (IH). 
  destruct (f b x w) as [b1 w1| |]; [|done..]. rewrite IH. done.
Qed.

(** X8: the sweeper's routine runs one sweep per tick; the ticks at
    which no record is eligible leave the state as it is, and the first
    tick at which a record is eligible is the last one: that sweep
    removes the eligible records and then blocks for ever, holding the
    write lock, so that no later tick runs. *)
Theorem sweeper_routine_stops_at_first_removal before now after w id f :
  mutex w = Unlocked → valid_ptrs w →
  (∀ t id f, t ∈ before → records w !! id = Some f → eligible t f = false) →
  records w !! id = Some f → eligible now f = true →
  (∃ w', cleanupRoutine before w = Ret tt w' ∧ same_state w w') ∧
  (∃ w', cleanupRoutine (before ++ now :: after) w = Hang w' ∧
         mutex w' = WLocked ∧
         records w' = filter (λ kv, eligible now kv.2 = false) (records w)).
Proof.
  intros Hmu Hv Hnone Hrec Hel.
  destruct (cleanupRoutine_idle before w Hmu Hv Hnone) as (w0 & Hrun0 & Hsame).
  split; [by exists w0|].
  assert (mutex w0 = Unlocked) as Hmu0 by (destruct Hsame as (_ & _ & _ & -> & _); done).
  destruct (cleanup_stuck now w0 id f) as (w1 & Hrun1 & Hmu1 & Hrec1).
  - done.
  - by apply (same_state_valid w).
  - by rewrite (same_state_records w).
  - done.
  - exists w1. split; [|split; [done|]].
    + unfold cleanupRoutine in *. rewrite foldM_app. unfold bind at 1.
      rewrite Hrun0. cbn [foldM]. unfold bind at 1. by rewrite Hrun1.
    + by rewrite Hrec1, (same_state_records w).
Qed.

Lemma sweeper_routine_stops_at_first_removal_witness :
  ∃ w', cleanupRoutine [25; 30; 35] two_files = Hang w' ∧ mutex w' = WLocked ∧
        records w' = {["cd" := secret]}.
Proof.
  destruct (sweeper_routine_stops_at_first_removal [] 25 [30; 35] two_files "ab" report
              eq_refl two_files_valid) as (_ & w' & Hrun & Hmu & Hrec).
  - intros t id f Hin. inversion Hin.
  - reflexivity.
  - reflexivity.
  - exists w'. split; [exact Hrun|]. split; [exact Hmu|].
    rewrite Hrec. vm_compute. reflexivity.
Defined.

(** X9: once a sweep has removed a record, the service no longer
    answers: the sweep blocks with the write lock held, and from then
    on every handler that takes the lock blocks at its first lock
    operation, before it has done anything: download, delete, info,
    search, statistics, management page, listing, health check, the
    save of the snapshot, the next sweep, a bulk delete that got past
    its checks; and no upload succeeds any more. *)
Theorem removal_by_the_sweeper_blocks_requests sha256_Sum now w id f :
  mutex w = Unlocked → valid_ptrs w →
  records w !! id = Some f → eligible now f = true →
  ∃ w1, cleanup now w = Hang w1 ∧
        ∀ env later uptime r,
          downloadFile later r w1 = Hang w1 ∧
          deleteFile r w1 = Hang w1 ∧
          fileInfo r w1 = Hang w1 ∧
          searchFiles r w1 = Hang w1 ∧
          getStats later w1 = Hang w1 ∧
          manageFiles later r w1 = Hang w1 ∧
          listFilesAPI r w1 = Hang w1 ∧
          healthCheck later uptime w1 = Hang w1 ∧
          saveMetadata w1 = Hang w1 ∧
          cleanup later w1 = Hang w1 ∧
          (Method r = "POST" → is_Some (decode_file_ids (Body r)) →
           bulkDelete r w1 = Hang w1) ∧
          (∀ resp w2, uploadFile sha256_Sum env r w1 = Ret resp w2 → is_error resp = true).
Proof.
  intros Hmu Hv Hrec Hel.
  destruct (cleanup_stuck now w id f Hmu Hv Hrec Hel) as (w1 & Hrun & Hmu1 & _).
  exists w1. split; [exact Hrun|]. intros env later uptime r.
  assert (RLock w1 = Hang w1) as HR by (unfold RLock; by rewrite Hmu1).
  assert (Lock w1 = Hang w1) as HL by (unfold Lock; by rewrite Hmu1).
  repeat split.
  - unfold downloadFile, dl_lookup, bind. by rewrite HR.
  - unfold deleteFile, bind. by rewrite HL.
  - unfold fileInfo, bind. by rewrite HR.
  - unfold searchFiles, bind. by rewrite HR.
  - unfold getStats, bind. by rewrite HR.
  - unfold manageFiles, snapshot, bind. by rewrite HR.
  - unfold listFilesAPI, snapshot, bind. by rewrite HR.
  - unfold healthCheck, bind. by rewrite HR.
  - unfold saveMetadata, bind. by rewrite HR.
  - unfold cleanup, bind. by rewrite HL.
  - intros Hm [ids Hids]. unfold bulkDelete. rewrite Hm, Hids.
    change ("POST" =? "POST")%string with true. cbn [negb].
    unfold bind. by rewrite HL.
  - clear Hrun HR HL. revert Hmu1. clear. intros Hmu1. open_world w1.
    crack; intros resp w2 Heq; try discriminate; by injection Heq as <- <-.
Qed.

Lemma removal_by_the_sweeper_blocks_requests_witness :
  ∃ w1, cleanup 25 two_files = Hang w1 ∧
        downloadFile 26 (get_request "/download/cd" [("password", "abc")]) w1 = Hang w1.
Proof.
  destruct (removal_by_the_sweeper_blocks_requests toy_digest 25 two_files "ab" report
              eq_refl two_files_valid eq_refl eq_refl) as (w1 & Hrun & Hblocked).
  exists w1. split; [exact Hrun|].
  apply (Hblocked (mkUploadEnv [] 0 0 NoFault) 26 "1h"
           (get_request "/download/cd" [("password", "abc")])).
Defined.

(** What the checks of a download come to. *)
Lemma dl_check_run password now p f w :
  heap w !! p = Some f →
  dl_check password now p w
  = Ret (if negb (Password f =? "")%string && negb (Password f =? password)%string
         then Unauthorized
         else if After now (ExpiresAt f) then Expired
         else if (0 <? MaxDownloads f) && (MaxDownloads f <=? Downloads f) then LimitReached
         else Granted) w.
Proof.
  intros Hp. unfold dl_check, bind, deref. rewrite Hp.
  destruct (negb _ && negb _); [done|].
  destruct (After _ _); [done|]. by destruct (_ && _).
Qed.

(** A download that passes the three checks: the counter goes up by
    one, then the file is sent, if it is there. *)
Lemma download_granted now r w id p f :
  mutex w = Unlocked → URLPath r = "/download/" +:+ id →
  files w !! id = Some p → heap w !! p = Some f →
  Password f = "" ∨ Password f = QueryGet r "password" →
  After now (ExpiresAt f) = false →
  (0 <? MaxDownloads f) && (MaxDownloads f <=? Downloads f) = false →
  downloadFile now r w
  = Ret (match disk w !! Path f with
         | Some d => Served (OriginalName f) (ContentType f) (Checksum f) d
         | None => HttpError 404 "404 page not found"
         end)
      (logged [EvGo "saveMetadata"; EvNet; EvDisk OpServeFile (Path f);
               EvUnlock; EvIncr p; EvLock; EvRUnlock; EvRLock]
         (set_heap (<[p := set_Downloads (wrap64 (Downloads f + 1)) f]> (heap w)) w)).
Proof.
  intros Hmu Hpath Hid Hp Hpw Hexp Hlim.
  unfold downloadFile. rewrite Hpath, TrimPrefix_app.
  assert (dl_lookup id w = Ret (Some p) (logged [EvRUnlock; EvRLock] w)) as Hlook.
  { open_world w. unfold dl_lookup. run. by rewrite Hid. }
  unfold bind at 1. rewrite Hlook.
  unfold bind at 1. rewrite (dl_check_run _ _ _ f) by done.
  assert (negb (Password f =? "")%string
          && negb (Password f =? QueryGet r "password")%string = false) as ->.
  { destruct Hpw as [-> | <-]; [done|]. rewrite String.eqb_refl. by rewrite andb_false_r. }
  rewrite Hexp, Hlim.
  open_world w. unfold dl_count, dl_serve, logged. run. rewrite Hp. run.
  rewrite lookup_insert_eq. run. cbn [Path set_Downloads OriginalName ContentType Checksum].
  reflexivity.
Qed.

(** X10: a download that passes the checks uses up one download before
    the file is sent, and also when it cannot be sent: if the file is
    missing on disk the request answers 404 "404 page not found", yet
    the counter of the record has gone up by one. *)
Theorem download_counts_before_it_serves now r w id p f :
  mutex w = Unlocked → URLPath r = "/download/" +:+ id →
  files w !! id = Some p → heap w !! p = Some f →
  Password f = "" ∨ Password f = QueryGet r "password" →
  After now (ExpiresAt f) = false →
  (0 <? MaxDownloads f) && (MaxDownloads f <=? Downloads f) = false →
  ∃ resp w', downloadFile now r w = Ret resp w' ∧
             records w' !! id = Some (set_Downloads (wrap64 (Downloads f + 1)) f) ∧
             files w' = files w ∧ disk w' = disk w ∧
             (disk w !! Path f = None → resp = HttpError 404 "404 page not found") ∧
             (∀ d, disk w !! Path f = Some d →
                   resp = Served (OriginalName f) (ContentType f) (Checksum f) d).
Proof.
  intros Hmu Hpath Hid Hp Hpw Hexp Hlim.
  rewrite (download_granted now r w id p f) by done.
  eexists _, _. split; [reflexivity|].
  split.
  { rewrite records_lookup. cbn [files heap logged set_heap]. rewrite Hid.
    cbn [mbind option_bind]. by rewrite lookup_insert_eq. }
  split; [done|]. split; [done|].
  split; [by intros ->|by intros d ->].
Qed.

Lemma download_counts_before_it_serves_witness :
  ∃ w', downloadFile 15 (get_request "/download/ab" [])
          (set_disk ∅ one_file) = Ret (HttpError 404 "404 page not found") w' ∧
        records w' !! "ab" = Some (set_Downloads 1 report).
Proof.
  destruct (download_counts_before_it_serves 15 (get_request "/download/ab" [])
              (set_disk ∅ one_file) "ab" 0%nat report eq_refl eq_refl eq_refl eq_refl
              (or_introl eq_refl) eq_refl eq_refl)
    as (resp & w' & Hrun & Hrec & _ & _ & Hmiss & _).
  exists w'. rewrite Hrun, Hrec. by rewrite (Hmiss eq_refl).
Defined.

Section upload_success.
Variable sha256_Sum : list byte → list byte.

(** An upload that succeeds: the record it has made and where it has
    put it. *)
Lemma upload_success env r w resp w' :
  mutex w = Unlocked →
  uploadFile sha256_Sum env r w = Ret resp w' →
  is_error resp = false →
  ∃ filename ctype content f,
    Multipart r = FormFile filename ctype content ∧
    f = mkFileInfo (generateID (rnd env)) (Str.spaces_to_underscores filename) filename
          (Z.of_nat (length content)) ctype (calculateChecksum sha256_Sum content)
          (now_upload env) (now_expiry env + parse_ttl (config w) (FormValue r "ttl")) 0
          (parse_max_downloads (FormValue r "max_downloads"))
          (FormValue r "password") (RemoteAddr r)
          (parse_tags (FormValue r "tags")) (FormValue r "description")
          (stored_path (config w) env filename) (Some ∅) ∧
    files w' = <[generateID (rnd env) := fresh (dom (heap w))]> (files w) ∧
    heap w' = <[fresh (dom (heap w)) := f]> (heap w) ∧
    mutex w' = Unlocked ∧ config w' = config w ∧ denied w' = denied w ∧
    (∀ path, path ≠ MetadataFile (config w) →
             disk w' !! path = <[Path f := Bytes content]> (disk w) !! path) ∧
    resp = upload_response r (generateID (rnd env)) f.
Proof.
  intros Hmu Hrun Hok. revert Hrun. open_world w.
  crack; intros [= <- <-]; try (cbn in Hok; done).
  all: eexists _, _, _, _; split; [reflexivity|]; split; [reflexivity|].
  all: cbn [files heap mutex config denied disk Path].
  all: repeat (split; [reflexivity|]).
  all: split; [|reflexivity].
  all: intros path Hne; unfold stored_path.
  all: rewrite ?(lookup_insert_ne _ (MetadataFile cfg)) by congruence.
  all: by rewrite insert_insert_eq.
Qed.

End upload_success.


Lemma limit_not_reached_at_zero m : (0 <? m) && (m <=? 0) = false.
Proof. destruct (Z.ltb_spec 0 m); [|done]. cbn. apply Z.leb_gt. lia. Qed.

(** X11: what was uploaded comes back: after an upload that succeeds,
    the link of its answer leads to the download of the new id, and a
    download of that id, with the password given at the upload and not
    later than the expiry, sends the uploaded bytes under the original
    name, with the content type and the checksum of the upload, and
    counts as the first download. *)
Theorem uploaded_file_comes_back sha256_Sum env r w resp w1 later rd filename ctype content :
  mutex w = Unlocked →
  uploadFile sha256_Sum env r w = Ret resp w1 → is_error resp = false →
  Multipart r = FormFile filename ctype content →
  MetadataFile (config w) ≠ stored_path (config w) env filename →
  URLPath rd = "/download/" +:+ generateID (rnd env) →
  QueryGet rd "password" = FormValue r "password" →
  later ≤ now_expiry env + parse_ttl (config w) (FormValue r "ttl") →
  link_of resp = Some ("http://" +:+ Host r +:+ URLPath rd) ∧
  ∃ w2 f, downloadFile later rd w1
          = Ret (Served filename ctype (Str.hex_encode (sha256_Sum content))
                   (Bytes content)) w2 ∧
          records w2 !! generateID (rnd env) = Some f ∧ Downloads f = 1 ∧
          Size f = Z.of_nat (length content).
Proof.
  intros Hmu Hrun Hok Hform Hmeta Hpath Hpw Hlater.
  destruct (upload_success sha256_Sum env r w resp w1 Hmu Hrun Hok)
    as (filename' & ctype' & content' & f & Hform' & Hf & Hfiles & Hheap & Hmu1 & Hcfg &
        Hden & Hdisk & Hresp).
  rewrite Hform in Hform'. injection Hform' as <- <- <-.
  split.
  { rewrite Hresp, Hpath. unfold upload_response. by destruct (wants_json r). }
  assert (files w1 !! generateID (rnd env) = Some (fresh (dom (heap w)))) as Hid
    by by rewrite Hfiles, lookup_insert_eq.
  assert (heap w1 !! fresh (dom (heap w)) = Some f) as Hp
    by by rewrite Hheap, lookup_insert_eq.
  assert (disk w1 !! Path f = Some (Bytes content)) as Hstored.
  { rewrite Hdisk, lookup_insert_eq; [done|]. rewrite Hf. cbn [Path]. congruence. }
  rewrite (download_granted later rd w1 _ _ f Hmu1 Hpath Hid Hp).
  - rewrite Hstored. eexists _, _. split; [by rewrite Hf|].
    split; [|split].
    + rewrite records_lookup. cbn [files heap logged set_heap]. rewrite Hid.
      cbn [mbind option_bind]. by rewrite lookup_insert_eq.
    + by rewrite Hf.
    + by rewrite Hf.
  - right. by rewrite Hf.
  - rewrite Hf. cbn [ExpiresAt]. unfold After. apply Z.ltb_ge. lia.
  - rewrite Hf. cbn [MaxDownloads Downloads]. apply limit_not_reached_at_zero.
Qed.

Lemma uploaded_file_comes_back_witness :
  ∃ w1 w2,
    uploadFile toy_digest (mkUploadEnv [x01; xab] 100 101 NoFault)
      (upload_request "text/plain" "my notes.txt" "text/plain" ["h"%byte; "i"%byte]
         [("password", "abc")]) one_file
    = Ret (Uploaded "http://localhost:8080/download/01ab0000000000000000000000000000"
             3600000000101 "6869") w1 ∧
    downloadFile 200
      (get_request "/download/01ab0000000000000000000000000000" [("password", "abc")]) w1
    = Ret (Served "my notes.txt" "text/plain" "6869" (Bytes ["h"%byte; "i"%byte])) w2.
Proof.
  set (env := mkUploadEnv [x01; xab] 100 101 NoFault).
  set (r := upload_request "text/plain" "my notes.txt" "text/plain" ["h"%byte; "i"%byte]
              [("password", "abc")]).
  set (rd := get_request "/download/01ab0000000000000000000000000000" [("password", "abc")]).
  set (resp := Uploaded "http://localhost:8080/download/01ab0000000000000000000000000000"
                 3600000000101 "6869").
  assert (returned (uploadFile toy_digest env r one_file) = Some resp) as Hret
    by (vm_compute; reflexivity).
  apply returned_final in Hret.
  destruct (uploaded_file_comes_back toy_digest env r one_file resp
              (final (uploadFile toy_digest env r one_file)) 200 rd
              "my notes.txt" "text/plain" ["h"%byte; "i"%byte]
              eq_refl Hret eq_refl eq_refl ltac:(vm_compute; discriminate)
              eq_refl eq_refl ltac:(vm_compute; discriminate))
    as (_ & w2 & f & Hdl & _).
  exists (final (uploadFile toy_digest env r one_file)), w2. by split.
Defined.




(** X13: an upload that is answered with an error registers nothing:
    the table and the records are as before and the mutex is free; if the
    error is not a 500 nothing at all has changed, and after a 500 the
    file system differs at most at the path where the upload was to be
    stored. *)
Theorem failed_upload_registers_nothing sha256_Sum env r w resp w' :
  mutex w = Unlocked →
  uploadFile sha256_Sum env r w = Ret resp w' → is_error resp = true →
  files w' = files w ∧
  (∀ p f, heap w !! p = Some f → heap w' !! p = Some f) ∧
  mutex w' = Unlocked ∧
  (resp ≠ HttpError 500 "Server error" → same_state w w') ∧
  (∀ filename ctype content path,
     Multipart r = FormFile filename ctype content →
     path ≠ stored_path (config w) env filename →
     disk w' !! path = disk w !! path).
Proof.
  intros Hmu Hrun Herr. revert Hrun. open_world w.
  crack; intros [= <- <-]; try (cbn in Herr; done).
  all: try (unfold upload_response in Herr; destruct (wants_json r); cbn in Herr; done).
  all: split; [reflexivity|].
  all: split;
    [cbn [heap]; intros p f Hp; try done;
     rewrite lookup_insert_ne; [done|];
     intros <-; apply (is_fresh (dom hp)); by apply elem_of_dom|].
  all: split; [reflexivity|].
  all: split; [intros Hne; try done; by repeat split|].
  all: intros filename' ctype' content' path Hform Hne; try done.
  all: injection Hform as <- <- <-; unfold stored_path in Hne; cbn [disk config] in *.
  all: by rewrite ?lookup_insert_ne by congruence.
Qed.

Lemma failed_upload_registers_nothing_witness :
  ∃ w', uploadFile toy_digest (mkUploadEnv [x01; xab] 100 101 NoFault)
          (upload_request "text/plain" "notes.txt" "text/plain" ["h"%byte; "i"%byte] [])
          (mkWorld defaults ∅ ∅ Unlocked ∅ {["./files"]} [])
        = Ret (HttpError 500 "Server error") w' ∧ files w' = ∅.
Proof.
  set (env := mkUploadEnv [x01; xab] 100 101 NoFault).
  set (r := upload_request "text/plain" "notes.txt" "text/plain" ["h"%byte; "i"%byte] []).
  set (w := mkWorld defaults ∅ ∅ Unlocked ∅ {["./files"]} []).
  assert (returned (uploadFile toy_digest env r w) = Some (HttpError 500 "Server error"))
    as Hret by (vm_compute; reflexivity).
  apply returned_final in Hret.
  destruct (failed_upload_registers_nothing toy_digest env r w _ _ eq_refl Hret eq_refl)
    as (Hfiles & _).
  exists (final (uploadFile toy_digest env r w)). by split.
Defined.

(** The delete of a record that is there. *)
Lemma deleteFile_present r w id p f :
  mutex w = Unlocked → URLPath r = "/delete/" +:+ id →
  files w !! id = Some p → heap w !! p = Some f →
  ∃ w1, deleteFile r w
        = Ret (if wants_json r then JsonBody (JObj [("status", JStr "deleted")])
               else Redirect 303 "/manage") w1 ∧
        files w1 = delete id (files w) ∧ heap w1 = heap w ∧ mutex w1 = Unlocked ∧
        config w1 = config w ∧ denied w1 = denied w ∧
        disk w1
        = (let d := if decide (Path f ∈ denied w) then disk w else delete (Path f) (disk w) in
           if decide (MetadataFile (config w) ∈ denied w) then d
           else <[MetadataFile (config w) := Doc (marshal_files w1)]> d).
Proof.
  intros Hmu Hpath Hid Hp. unfold deleteFile, saveMetadata.
  rewrite Hpath, TrimPrefix_app. open_world w. run. rewrite Hid. run. rewrite Hp.
  split_io.
  all: destruct (wants_json r); eexists; (split; [reflexivity|]).
  all: cbn [files heap mutex config denied disk]; repeat (split; [reflexivity|]).
  all: cbn zeta; rewrite ?decide_True by done; rewrite ?decide_False by done.
  all: try reflexivity.
  all: by rewrite (delete_id dk).
Qed.

Lemma download_absent now r w id :
  mutex w = Unlocked → URLPath r = "/download/" +:+ id → files w !! id = None →
  downloadFile now r w = Ret (HttpError 404 "File not found") (logged [EvNet; EvRUnlock; EvRLock] w).
Proof.
  intros Hmu Hpath Hid. unfold downloadFile, dl_lookup. rewrite Hpath, TrimPrefix_app.
  open_world w. run. by rewrite Hid.
Qed.

Lemma info_absent r w id :
  mutex w = Unlocked → URLPath r = "/info/" +:+ id → files w !! id = None →
  fileInfo r w = Ret (HttpError 404 "File not found") (logged [EvNet; EvRUnlock; EvRLock] w).
Proof.
  intros Hmu Hpath Hid. unfold fileInfo. rewrite Hpath, TrimPrefix_app.
  open_world w. run. by rewrite Hid.
Qed.

Lemma delete_absent r w id :
  mutex w = Unlocked → URLPath r = "/delete/" +:+ id → files w !! id = None →
  deleteFile r w = Ret (HttpError 404 "File not found") (logged [EvNet; EvUnlock; EvLock] w).
Proof.
  intros Hmu Hpath Hid. unfold deleteFile. rewrite Hpath, TrimPrefix_app.
  open_world w. run. by rewrite Hid.
Qed.

(** X14: a delete of a record that is in the registry answers with the
    redirect to the management page, or with its JSON status, and the
    record is gone at once: a second delete of the id, a download and an
    info lookup all answer 404 "File not found" and change nothing; and
    when the snapshot could be written, a restart from the disk as the
    delete left it does not bring the record back. *)
Theorem deleted_record_is_gone now r rd ri w id p f :
  mutex w = Unlocked → well_typed w →
  URLPath r = "/delete/" +:+ id → URLPath rd = "/download/" +:+ id →
  URLPath ri = "/info/" +:+ id →
  files w !! id = Some p → heap w !! p = Some f →
  ∃ w1, deleteFile r w
        = Ret (if wants_json r then JsonBody (JObj [("status", JStr "deleted")])
               else Redirect 303 "/manage") w1 ∧
        records w1 = delete id (records w) ∧
        (∃ w2, deleteFile r w1 = Ret (HttpError 404 "File not found") w2 ∧ same_state w1 w2) ∧
        (∃ w2, downloadFile now rd w1 = Ret (HttpError 404 "File not found") w2 ∧
               same_state w1 w2) ∧
        (∃ w2, fileInfo ri w1 = Ret (HttpError 404 "File not found") w2 ∧ same_state w1 w2) ∧
        (MetadataFile (config w) ∉ denied w →
         ∃ w3, NewFileManager (config w1) (disk w1) (denied w1) = Ret tt w3 ∧
               records w3 !! id = None).
Proof.
  intros Hmu Hwt Hr Hrd Hri Hid Hp.
  destruct (deleteFile_present r w id p f Hmu Hr Hid Hp)
    as (w1 & Hrun & Hf1 & Hh1 & Hmu1 & Hc1 & Hd1 & Hdisk).
  assert (files w1 !! id = None) as Hgone by by rewrite Hf1, lookup_delete_eq.
  assert (records w1 = delete id (records w)) as Hrec.
  { unfold records. rewrite Hf1, Hh1. apply map_eq. intros k.
    rewrite lookup_omap. destruct (decide (k = id)) as [->|Hne].
    - by rewrite !lookup_delete_eq.
    - by rewrite !lookup_delete_ne, lookup_omap by done. }
  exists w1. split; [exact Hrun|]. split; [exact Hrec|].
  split. { eexists. rewrite (delete_absent r w1 id) by done.
           split; [reflexivity|]. apply same_state_logged. }
  split. { eexists. rewrite (download_absent now rd w1 id) by done.
           split; [reflexivity|]. apply same_state_logged. }
  split. { eexists. rewrite (info_absent ri w1 id) by done.
           split; [reflexivity|]. apply same_state_logged. }
  intros Hmeta.
  assert (well_typed w1) as Hwt1.
  { intros k q Hk. rewrite Hf1 in Hk. apply lookup_delete_Some in Hk as [_ Hk].
    rewrite Hh1. by apply (Hwt k). }
  destruct (NewFileManager_load w1 (disk w1) (denied w1) Hwt1) as (w3 & Hload & Hrec3 & _).
  { rewrite Hdisk. cbn zeta. rewrite Hc1. rewrite (decide_False (P := _ ∈ _)) by done.
    by rewrite lookup_insert_eq. }
  exists w3. split; [exact Hload|].
  rewrite Hrec3, Hrec. apply map_lookup_filter_None. left. apply lookup_delete_eq.
Qed.

Lemma deleted_record_is_gone_witness :
  ∃ w1 w2, deleteFile (html_request "/delete/ab" []) two_files = Ret (Redirect 303 "/manage") w1 ∧
           downloadFile 15 (get_request "/download/ab" []) w1
           = Ret (HttpError 404 "File not found") w2.
Proof.
  destruct (deleted_record_is_gone 15 (html_request "/delete/ab" [])
              (get_request "/download/ab" []) (get_request "/info/ab" [])
              two_files "ab" 0%nat report eq_refl two_files_well_typed
              eq_refl eq_refl eq_refl eq_refl eq_refl)
    as (w1 & Hrun & _ & _ & (w2 & Hdl & _) & _).
  by exists w1, w2.
Defined.

(** The decoder's allocation always goes through, and leaves no trace
    of a key it has not met. *)
Lemma alloc_any (l : list (string * option FileInfo)) d0 w k :
  k ∉ l.*1 →
  ∃ d w', foldM alloc_entry d0 l w = Ret d w' ∧ d !! k = d0 !! k ∧
          disk w' = disk w ∧ config w' = config w ∧ denied w' = denied w ∧
          files w' = files w ∧ mutex w' = mutex w.
Proof.
  revert d0 w. induction l as [|[k' o] l IH]; intros d0 w Hk.
  { by exists d0, w. }
  apply not_elem_of_cons in Hk as [Hne Hk]. cbn [fst] in Hne.
  cbn [foldM]. unfold bind at 1, alloc_entry at 1. cbn [fst snd].
  destruct o as [f|].
  - unfold bind at 1, new at 1, ret at 1.
    destruct (IH (<[k' := Some (fresh (dom (heap w)))]> d0)
                (set_heap (<[fresh (dom (heap w)) := f]> (heap w)) w) Hk)
      as (d & w' & Hrun & Hd & Hrest).
    exists d, w'. split; [exact Hrun|]. split; [|exact Hrest].
    by rewrite Hd, lookup_insert_ne.
  - unfold ret at 1.
    destruct (IH (<[k' := None]> d0) w Hk) as (d & w' & Hrun & Hd & Hrest).
    exists d, w'. split; [exact Hrun|]. split; [|exact Hrest].
    by rewrite Hd, lookup_insert_ne.
Qed.

Lemma alloc_total (l : list (string * option FileInfo)) d0 w :
  ∃ d w', foldM alloc_entry d0 l w = Ret d w'.
Proof.
  revert d0 w. induction l as [|[k' o] l IH]; intros d0 w.
  { by exists d0, w. }
  cbn [foldM]. unfold bind at 1, alloc_entry at 1. cbn [fst snd].
  destruct o as [f|].
  - unfold bind at 1, new at 1, ret at 1. apply IH.
  - unfold ret at 1. apply IH.
Qed.

(** The reconciliation loop panics when it comes to a nil pointer, if
    not before. *)
Lemma keep_existing_nil (l : list (string * option loc)) v0 w k :
  (k, None) ∈ l → ∃ w', foldM keep_existing v0 l w = Panic w'.
Proof.
  revert v0 w. induction l as [|[k' o] l IH]; intros v0 w Hin; [by inversion Hin|].
  cbn [foldM]. unfold bind at 1, keep_existing at 1. cbn [fst snd].
  destruct o as [p|].
  - apply elem_of_cons in Hin as [[=]|Hin].
    unfold bind at 1, deref at 1.
    destruct (heap w !! p) as [f|]; [|by eexists].
    unfold bind at 1, os_Stat at 1, bind at 1, emit at 1, modify at 1.
    unfold bind at 1, get_world at 1, ret at 1 2. by apply IH.
  - by eexists.
Qed.

(** X15: a snapshot that decodes but has [null] for one of its ids
    makes the start panic: the loop that checks the files on disk reads
    the path through the nil pointer of that entry. *)
Theorem null_entry_in_snapshot_panics cfg dsk den j before k after :
  dsk !! MetadataFile cfg = Some (Doc j) →
  Json.to_table j = Some (before ++ (k, None) :: after) →
  k ∉ after.*1 →
  ∃ w', NewFileManager cfg dsk den = Panic w'.
Proof.
  intros Hdoc Htable Hlast. unfold NewFileManager, loadMetadata.
  set (w0 := mkWorld cfg ∅ ∅ Unlocked dsk den []).
  unfold bind at 1. unfold bind at 1. unfold get_world at 1.
  unfold bind at 1. unfold os_ReadFile at 1, bind at 1, emit at 1, modify at 1.
  unfold bind at 1, get_world at 1, ret at 1.
  cbn [disk add_log config w0]. rewrite Hdoc. cbn [unmarshal]. rewrite Htable.
  set (w1 := add_log (EvDisk OpReadFile (MetadataFile cfg)) w0).
  unfold bind at 1. rewrite foldM_app. unfold bind at 1.
  destruct (alloc_total before ∅ w1) as (d1 & w2 & ->).
  cbn [foldM]. unfold bind at 1, alloc_entry at 1. cbn [fst snd]. unfold ret at 1.
  destruct (alloc_any after (<[k := None]> d1) w2 k Hlast) as (d & w3 & -> & Hd & _).
  rewrite lookup_insert_eq in Hd.
  destruct (keep_existing_nil (map_to_list d) ∅ w3 k) as [w' Hpanic].
  { by apply elem_of_map_to_list. }
  exists w'. unfold bind at 1. by rewrite Hpanic.
Qed.

Lemma null_entry_in_snapshot_panics_witness :
  ∃ w', NewFileManager defaults
          {["./metadata.json" := Doc (JObj [("ab", Json.of_FileInfo report); ("zz", JNull)])]} ∅
        = Panic w'.
Proof.
  apply (null_entry_in_snapshot_panics defaults _ ∅
           (JObj [("ab", Json.of_FileInfo report); ("zz", JNull)])
           [("ab", Some report)] "zz" []).
  - reflexivity.
  - vm_compute. reflexivity.
  - intros Hin. inversion Hin.
Defined.

Lemma mapM_fails {A B} (g : A → option B) (l : list A) x :
  x ∈ l → g x = None → mapM g l = None.
Proof.
  intros Hin Hx. induction l as [|y l IH]; [by inversion Hin|].
  cbn. apply elem_of_cons in Hin as [<-|Hin]; [by rewrite Hx|].
  rewrite (IH Hin). by destruct (g y).
Qed.

(** X16: a snapshot that does not decode is passed over as a whole: if
    the file is not JSON, or not an object, or if one single entry of
    it does not decode into a record, the service starts with an empty
    registry and leaves the files alone; and the next save then
    replaces the snapshot by that of the empty registry. *)
Theorem undecodable_snapshot_starts_empty cfg dsk den d :
  dsk !! MetadataFile cfg = Some d →
  unmarshal d = None ∨
  (∃ fields k v, d = Doc (JObj fields) ∧ (k, v) ∈ fields ∧ Json.to_ptr v = None) →
  ∃ w', NewFileManager cfg dsk den = Ret tt w' ∧ files w' = ∅ ∧ disk w' = dsk ∧
        (MetadataFile cfg ∉ den →
         ∃ w'', saveMetadata w' = Ret true w'' ∧
                disk w'' !! MetadataFile cfg = Some (Doc (JObj []))).
Proof.
  intros Hdoc Hbad.
  assert (unmarshal d = None) as Hnone.
  { destruct Hbad as [?|(fields & k & v & -> & Hin & Hv)]; [done|].
    cbn. apply (mapM_fails _ _ (k, v)); [done|].
    unfold Json.to_entry. cbn [snd]. by rewrite Hv. }
  unfold NewFileManager, loadMetadata. run. rewrite Hdoc, Hnone. run.
  eexists. split; [reflexivity|]. split; [done|]. split; [done|].
  intros Hmeta. unfold saveMetadata. run.
  rewrite decide_False by done. run.
  eexists. split; [reflexivity|]. cbn [disk]. rewrite lookup_insert_eq.
  unfold marshal_files. cbn [files]. by rewrite map_to_list_empty.
Qed.

Lemma undecodable_snapshot_starts_empty_witness :
  ∃ w', NewFileManager defaults
          {["./metadata.json" :=
              Doc (JObj [("ab", Json.of_FileInfo report);
                         ("cd", JObj [("size", JStr "large")])])]} ∅
        = Ret tt w' ∧ files w' = ∅.
Proof.
  edestruct (undecodable_snapshot_starts_empty defaults
               {["./metadata.json" :=
                   Doc (JObj [("ab", Json.of_FileInfo report);
                              ("cd", JObj [("size", JStr "large")])])]} ∅)
    as (w' & Hrun & Hfiles & _).
  - reflexivity.
  - right. exists [("ab", Json.of_FileInfo report); ("cd", JObj [("size", JStr "large")])],
      "cd", (JObj [("size", JStr "large")]).
    split; [reflexivity|]. split; [|reflexivity].
    apply list_elem_of_further, list_elem_of_here.
  - by exists w'.
Defined.

(** X17: a search that selects nothing answers the JSON value [null],
    not an empty array, whereas the listing always answers an array:
    its page holds records of the registry, as many as the limit allows
    and the listing has left from the offset on, none when the offset is
    at or past the end; and its [total] is the number of records in the
    registry, whatever the page. *)
Theorem empty_search_is_null_and_pages_are_arrays r w :
  mutex w = Unlocked → valid_ptrs w →
  (selected (QueryGet r "q") (QueryGet r "tag") w = ∅ →
   ∃ w', searchFiles r w = Ret (JsonBody JNull) w') ∧
  (∃ page w',
     listFilesAPI r w
     = Ret (JsonBody (JObj [ ("files", JArr (Json.of_FileInfo <$> page));
                             ("limit", JNum (page_limit r));
                             ("offset", JNum (page_offset r));
                             ("total", JNum (Z.of_nat (size (records w)))) ])) w' ∧
     (∀ f, f ∈ page → ∃ id, records w !! id = Some f) ∧
     (page_offset r + page_limit r < 2 ^ 63 →
      Z.of_nat (length page)
      = Z.min (page_limit r) (Z.max 0 (Z.of_nat (size (records w)) - page_offset r)))).
Proof.
  intros Hmu Hv. split.
  - intros Hnone.
    destruct (searchFiles_run r w Hmu Hv) as (l & Hrun & Hperm & _).
    rewrite Hnone, map_to_list_empty in Hperm. apply Permutation_nil_r in Hperm as ->.
    by eexists.
  - destruct (listFilesAPI_run r w Hmu Hv) as (l & Hrun & Hperm & _).
    pose proof (parse_limit_bounds (QueryGet r "limit")) as Hlim.
    pose proof (parse_offset_bounds (QueryGet r "offset")) as Hoff.
    fold (page_limit r) in Hlim. fold (page_offset r) in Hoff.
    assert (length l = size (records w)) as Hlen
      by by rewrite Hperm, length_fmap, length_map_to_list.
    exists (paginate (page_offset r) (page_limit r) l). eexists.
    split; [by rewrite Hrun, Hlen|]. split.
    + intros f Hin.
      assert (f ∈ l) as Hl.
      { unfold paginate in Hin. destruct (_ <=? _); [by inversion Hin|].
        by eapply subseteq_drop, subseteq_take. }
      rewrite Hperm in Hl. apply list_elem_of_fmap in Hl as ([id f'] & -> & Hin').
      exists id. by apply elem_of_map_to_list.
    + intros Hsum. rewrite paginate_take_drop by lia.
      rewrite length_take, length_drop, Hlen. lia.
Qed.

Lemma empty_search_is_null_and_pages_are_arrays_witness :
  (∃ w', searchFiles (get_request "/search" [("q", "budget")]) two_files
         = Ret (JsonBody JNull) w') ∧
  (∃ w', listFilesAPI (get_request "/api/files" [("offset", "7")]) two_files
         = Ret (JsonBody (JObj [ ("files", JArr []); ("limit", JNum 50);
                                 ("offset", JNum 7); ("total", JNum 2) ])) w').
Proof.
  destruct (empty_search_is_null_and_pages_are_arrays
              (get_request "/search" [("q", "budget")]) two_files eq_refl two_files_valid)
    as [Hsearch _].
  destruct (empty_search_is_null_and_pages_are_arrays
              (get_request "/api/files" [("offset", "7")]) two_files eq_refl two_files_valid)
    as [_ (page & w' & Hrun & _ & Hlen)].
  split.
  - apply Hsearch. vm_compute. reflexivity.
  - exists w'. rewrite Hrun.
    assert (page = []) as ->.
    { apply nil_length_inv. apply Nat2Z.inj. rewrite Hlen; [|vm_compute; reflexivity].
      vm_compute. reflexivity. }
    vm_compute. reflexivity.
Defined.

Lemma Split_nonempty sep s : Str.Split sep s ≠ [].
Proof.
  destruct s as [|c s]; [done|]. cbn.
  destruct (Ascii.eqb c sep); [done|]. by destruct (Str.Split sep s).
Qed.

Lemma Split_concat sep s : String.concat (String sep EmptyString) (Str.Split sep s) = s.
Proof.
  induction s as [|c s IH]; [done|].
  cbn [Str.Split]. pose proof (Split_nonempty sep s) as Hne.
  destruct (Str.Split sep s) as [|h t]; [done|].
  destruct (Ascii.eqb_spec c sep) as [->|_].
  - change (String.concat (String sep "") ("" :: h :: t))
      with (String sep (String.concat (String sep "") (h :: t))).
    by rewrite IH.
  - destruct t as [|h' t].
    + cbn in *. by rewrite IH.
    + change (String.concat (String sep "") (String c h :: h' :: t))
        with (String c (String.concat (String sep "") (h :: h' :: t))).
      by rewrite IH.
Qed.

Lemma Split_pieces (test : ascii → bool) sep s t :
  all_chars test s = true → t ∈ Str.Split sep s → all_chars test t = true.
Proof.
  revert t. induction s as [|c s IH]; intros t Hs Hin.
  { by apply list_elem_of_singleton in Hin as ->. }
  cbn in Hs. apply andb_true_iff in Hs as [Hc Hs]. cbn [Str.Split] in Hin.
  destruct (Ascii.eqb c sep).
  - apply elem_of_cons in Hin as [->|Hin]; [done|]. by apply IH.
  - destruct (Str.Split sep s) as [|h l] eqn:Hsplit.
    + apply list_elem_of_singleton in Hin as ->. cbn. by rewrite Hc.
    + apply elem_of_cons in Hin as [->|Hin].
      * cbn. rewrite Hc. apply IH; [done|]. apply list_elem_of_here.
      * apply IH; [done|]. by apply list_elem_of_further.
Qed.

Lemma Split_pieces_sep sep s t :
  t ∈ Str.Split sep s → all_chars (λ c, negb (Ascii.eqb c sep)) t = true.
Proof.
  revert t. induction s as [|c s IH]; intros t Hin.
  { by apply list_elem_of_singleton in Hin as ->. }
  cbn [Str.Split] in Hin. destruct (Ascii.eqb c sep) eqn:Hc.
  - apply elem_of_cons in Hin as [->|Hin]; [done|]. by apply IH.
  - destruct (Str.Split sep s) as [|h l] eqn:Hsplit.
    + apply list_elem_of_singleton in Hin as ->. cbn. by rewrite Hc.
    + apply elem_of_cons in Hin as [->|Hin].
      * cbn. rewrite Hc. apply IH. apply list_elem_of_here.
      * apply IH. by apply list_elem_of_further.
Qed.

Lemma remove_spaces_clean s :
  all_chars (λ c, negb (Ascii.eqb c " ")) (Str.remove_spaces s) = true.
Proof.
  induction s as [|c s IH]; [done|].
  unfold Str.remove_spaces in *. cbn [Str.filter_ascii].
  destruct (negb (Ascii.eqb c " ")) eqn:Hc; [|done]. cbn. by rewrite Hc.
Qed.

(** X18: the tags of an upload are the pieces between the commas of the
    form value after all its spaces were taken out, inner ones too: put
    together with commas they give that value back; no tag has a space or
    a comma in it, empty pieces stay as empty tags, and there is at least
    one tag.  Without a form value the record has no tag list at all, and
    its JSON says [null] for the tags, not an empty array. *)
Theorem tags_are_the_pieces_between_commas tagsStr f :
  (tagsStr ≠ "" →
   ∃ tags, parse_tags tagsStr = Some tags ∧ tags ≠ [] ∧
           String.concat "," tags = Str.remove_spaces tagsStr ∧
           ∀ t, t ∈ tags →
                all_chars (λ c, negb (Ascii.eqb c " ")) t = true ∧
                all_chars (λ c, negb (Ascii.eqb c ",")) t = true) ∧
  parse_tags "" = None ∧
  (Tags f = None →
   ∃ fs, Json.of_FileInfo f = JObj fs ∧ Json.field "tags" fs = Some JNull).
Proof.
  split; [|split].
  - intros Hne. unfold parse_tags. rewrite decide_False by done.
    eexists. split; [reflexivity|]. split; [apply Split_nonempty|].
    split; [apply Split_concat|]. intros t Hin. split.
    + by apply (Split_pieces _ "," (Str.remove_spaces tagsStr)); [apply remove_spaces_clean|].
    + by apply (Split_pieces_sep "," (Str.remove_spaces tagsStr)).
  - done.
  - intros Hnil. unfold Json.of_FileInfo. rewrite Hnil.
    eexists. split; [reflexivity|]. by destruct (decide (Password f = "")).
Qed.

Lemma hex_digit_is_hex n : (n < 16)%N → is_hex (Str.hex_digit n) = true.
Proof.
  intros Hn.
  assert (∀ k : nat, (k < 16)%nat → is_hex (Str.hex_digit (N.of_nat k)) = true) as Hall.
  { intros k Hk. do 16 (destruct k as [|k]; [vm_compute; reflexivity|]). lia. }
  rewrite <- (N2Nat.id n). apply Hall. lia.
Qed.

Lemma hex_encode_is_hex bs : all_chars is_hex (Str.hex_encode bs) = true.
Proof.
  induction bs as [|b bs IH]; [done|].
  cbn [Str.hex_encode all_chars]. rewrite IH.
  rewrite !hex_digit_is_hex; [done|..].
  - apply N.mod_lt. done.
  - apply N.Div0.div_lt_upper_bound. pose proof (Byte.to_N_bounded b). lia.
Qed.

Lemma hex_decode_encode bs : hex_decode (Str.hex_encode bs) = bs.
Proof.
  induction bs as [|b bs IH]; [done|].
  cbn [Str.hex_encode hex_decode]. rewrite IH. f_equal.
  destruct b; vm_compute; reflexivity.
Qed.

(** X19: an id is 32 characters long, each a digit of lower-case
    hexadecimal, and it stands for the 16 bytes it was made from: two
    draws of 16 random bytes give the same id only if they are the same
    bytes. *)
Theorem ids_are_32_hex_digits random random' :
  String.length (generateID random) = 32%nat ∧
  all_chars is_hex (generateID random) = true ∧
  hex_decode (generateID random) = resize 16 x00 random ∧
  (length random = 16%nat → length random' = 16%nat →
   generateID random = generateID random' → random = random').
Proof.
  unfold generateID. split; [|split; [|split]].
  - by rewrite length_hex_encode, length_resize.
  - apply hex_encode_is_hex.
  - apply hex_decode_encode.
  - intros Hlen Hlen' Heq.
    apply (f_equal hex_decode) in Heq. rewrite !hex_decode_encode in Heq.
    by rewrite !resize_all_alt in Heq.
Qed.

Lemma marshal_files_ext w w' :
  files w' = files w → heap w' = heap w → marshal_files w' = marshal_files w.
Proof. intros Hf Hh. unfold marshal_files. by rewrite Hf, Hh. Qed.

(** X20: the periodic save writes, at every tick, the snapshot of the
    registry as it stands and changes nothing else, so that ticks
    without a change in between rewrite the same document; a save that
    fails leaves the old file as it is and the loop goes on. *)
Theorem periodic_save_rewrites_the_snapshot n w :
  mutex w = Unlocked →
  ∃ w', saveMetadataPeriodically (S n) w = Ret tt w' ∧
        files w' = files w ∧ heap w' = heap w ∧ mutex w' = Unlocked ∧
        config w' = config w ∧ denied w' = denied w ∧
        disk w' = if decide (MetadataFile (config w) ∈ denied w) then disk w
                  else <[MetadataFile (config w) := Doc (marshal_files w)]> (disk w).
Proof.
  revert w. induction n as [|n IH]; intros w Hmu.
  - cbn [saveMetadataPeriodically]. unfold bind at 1.
    rewrite (saveMetadata_run w Hmu).
    destruct (decide (MetadataFile (config w) ∈ denied w)); eexists; by repeat split.
  - change (saveMetadataPeriodically (S (S n)))
      with (saveMetadata ;;; saveMetadataPeriodically (S n)).
    unfold bind at 1. rewrite (saveMetadata_run w Hmu).
    destruct (decide (MetadataFile (config w) ∈ denied w)) as [Hden|Hden].
    + destruct (IH (logged [EvRUnlock; EvDisk OpWriteFile (MetadataFile (config w)); EvRLock] w))
        as (w' & Hrun & Hf & Hh & Hmu' & Hc & Hd & Hdisk); [done|].
      exists w'. split; [exact Hrun|]. repeat (split; [done|]).
      rewrite Hdisk. cbn [config denied disk logged]. by rewrite decide_True.
    + destruct (IH (logged [EvRUnlock; EvDisk OpWriteFile (MetadataFile (config w)); EvRLock]
                      (set_disk (<[MetadataFile (config w) := Doc (marshal_files w)]> (disk w)) w)))
        as (w' & Hrun & Hf & Hh & Hmu' & Hc & Hd & Hdisk); [by destruct w; cbn in *; subst|].
      exists w'. split; [exact Hrun|].
      split; [by rewrite Hf; destruct w|]. split; [by rewrite Hh; destruct w|].
      split; [done|]. split; [by rewrite Hc; destruct w|]. split; [by rewrite Hd; destruct w|].
      rewrite Hdisk. destruct w as [cfg fs hp mu dk dn lg].
      cbn [config denied disk logged set_disk] in *. rewrite decide_False by done.
      by rewrite insert_insert_eq.
Qed.

Lemma periodic_save_rewrites_the_snapshot_witness :
  ∃ w', saveMetadataPeriodically 3 two_files = Ret tt w' ∧
        disk w' !! "./metadata.json" = Some (Doc (marshal_files two_files)).
Proof.
  destruct (periodic_save_rewrites_the_snapshot 2 two_files eq_refl)
    as (w' & Hrun & _ & _ & _ & _ & _ & Hdisk).
  exists w'. split; [exact Hrun|]. rewrite Hdisk. reflexivity.
Defined.

Lemma download_refused now r w id p f :
  mutex w = Unlocked → URLPath r = "/download/" +:+ id →
  files w !! id = Some p → heap w !! p = Some f →
  Password f = "" ∨ Password f = QueryGet r "password" →
  After now (ExpiresAt f) = false →
  (0 <? MaxDownloads f) && (MaxDownloads f <=? Downloads f) = true →
  downloadFile now r w
  = Ret (HttpError 403 "Download limit reached") (logged [EvNet; EvRUnlock; EvRLock] w).
Proof.
  intros Hmu Hpath Hid Hp Hpw Hexp Hlim.
  unfold downloadFile. rewrite Hpath, TrimPrefix_app.
  assert (dl_lookup id w = Ret (Some p) (logged [EvRUnlock; EvRLock] w)) as Hlook.
  { open_world w. unfold dl_lookup. run. by rewrite Hid. }
  unfold bind at 1. rewrite Hlook.
  unfold bind at 1. rewrite (dl_check_run _ _ _ f) by done.
  assert (negb (Password f =? "")%string
          && negb (Password f =? QueryGet r "password")%string = false) as ->.
  { destruct Hpw as [-> | <-]; [done|]. rewrite String.eqb_refl. by rewrite andb_false_r. }
  rewrite Hexp, Hlim. by destruct w.
Qed.

(** X21: requests that come one after the other keep to the download
    limit exactly: of a row of downloads of a record with a positive
    limit, none of them past the expiry and all with the right
    password, the first ones are granted, as many as the limit has left,
    and all the others answer 403 "Download limit reached"; the counter
    ends at the number of granted downloads and never passes the limit. *)
Theorem downloads_in_a_row_stop_at_the_limit instants r w id p f :
  mutex w = Unlocked → URLPath r = "/download/" +:+ id →
  files w !! id = Some p → heap w !! p = Some f →
  Password f = "" ∨ Password f = QueryGet r "password" →
  (∀ t, t ∈ instants → After t (ExpiresAt f) = false) →
  0 < MaxDownloads f → 0 ≤ Downloads f ≤ MaxDownloads f → MaxDownloads f < 2 ^ 63 →
  let granted := Nat.min (length instants) (Z.to_nat (MaxDownloads f - Downloads f)) in
  let served := match disk w !! Path f with
                | Some d => Served (OriginalName f) (ContentType f) (Checksum f) d
                | None => HttpError 404 "404 page not found"
                end in
  ∃ w', downloads_in_a_row instants r w
        = Ret (replicate granted served
               ++ replicate (length instants - granted)
                    (HttpError 403 "Download limit reached")) w' ∧
        records w' !! id = Some (set_Downloads (Downloads f + Z.of_nat granted) f) ∧
        Downloads f + Z.of_nat granted ≤ MaxDownloads f.
Proof.
  revert w f. induction instants as [|now instants IH];
    intros w f Hmu Hpath Hid Hp Hpw Hexp Hpos Hcount Hmax granted served.
  { exists w. split; [done|]. subst granted. cbn [length Nat.min].
    rewrite Z.add_0_r. split; [|lia].
    rewrite records_lookup, Hid. cbn. rewrite Hp. by destruct f. }
  assert (After now (ExpiresAt f) = false) as Hnow by (apply Hexp; apply list_elem_of_here).
  unfold downloads_in_a_row. cbn [forM]. unfold bind at 1.
  destruct (decide (Downloads f < MaxDownloads f)) as [Hleft|Hfull].
  - rewrite (download_granted now r w id p f) by
      (try done; rewrite andb_false_iff; right; apply Z.leb_gt; lia).
    set (f1 := set_Downloads (wrap64 (Downloads f + 1)) f).
    set (w1 := logged _ _).
    assert (wrap64 (Downloads f + 1) = Downloads f + 1) as Hw by (apply wrap64_small; lia).
    destruct (IH w1 f1) as (w' & Hrun & Hrec & Hle); try done.
    + subst w1. cbn [heap logged set_heap]. by rewrite lookup_insert_eq.
    + intros t Ht. apply Hexp. by apply list_elem_of_further.
    + subst f1. cbn [Downloads MaxDownloads set_Downloads]. lia.
    + unfold bind at 1. unfold downloads_in_a_row in Hrun. rewrite Hrun. unfold ret.
      subst f1. cbn [Downloads MaxDownloads set_Downloads Path OriginalName ContentType
                       Checksum] in *.
      change (disk w1) with (disk w) in *. rewrite Hw in *.
      exists w'. subst granted served. cbn [length].
      replace (Z.to_nat (MaxDownloads f - Downloads f))
        with (S (Z.to_nat (MaxDownloads f - (Downloads f + 1)))) by lia.
      rewrite <- Nat.succ_min_distr. cbn [replicate app Nat.sub].
      split; [done|]. rewrite Hrec. split; [|lia].
      f_equal. destruct f. unfold set_Downloads. cbn. f_equal. lia.
  - rewrite (download_refused now r w id p f) by
      (try done; rewrite andb_true_iff; split; first [apply Z.ltb_lt; lia|apply Z.leb_le; lia]).
    set (w1 := logged _ _).
    destruct (IH w1 f) as (w' & Hrun & Hrec & Hle); try done.
    { intros t Ht. apply Hexp. by apply list_elem_of_further. }
    unfold bind at 1. unfold downloads_in_a_row in Hrun. rewrite Hrun.
    unfold ret.
    change (disk w1) with (disk w) in *.
    exists w'. subst granted served. cbn [length].
    replace (Z.to_nat (MaxDownloads f - Downloads f)) with 0%nat in * by lia.
    rewrite !Nat.min_0_r in *. rewrite !Nat.sub_0_r in *.
    cbn [replicate app]. by repeat split.
Qed.

Lemma downloads_in_a_row_stop_at_the_limit_witness :
  ∃ w', downloads_in_a_row [11; 12; 13] (get_request "/download/ab" []) one_file
        = Ret [ Served "report.txt" "text/plain" "cafe" (Bytes ["h"%byte; "i"%byte]);
                HttpError 403 "Download limit reached";
                HttpError 403 "Download limit reached" ] w' ∧
        records w' !! "ab" = Some (set_Downloads 1 report).
Proof.
  destruct (downloads_in_a_row_stop_at_the_limit [11; 12; 13] (get_request "/download/ab" [])
              one_file "ab" 0%nat report eq_refl eq_refl eq_refl eq_refl (or_introl eq_refl))
    as (w' & Hrun & Hrec & _).
  - intros t Ht. unfold After. apply Z.ltb_ge.
    repeat (apply elem_of_cons in Ht as [->|Ht]; [cbn; lia|]). inversion Ht.
  - cbn. lia.
  - cbn. lia.
  - cbn. lia.
  - exists w'. by split.
Defined.

Section options.
Context (origins : list string) (maxDownloads : Z) (requirePassword : bool)
  (adminPassword : string).

Abbreviation opt := (reconfigured (with_options origins maxDownloads requirePassword adminPassword)).

Lemma commutes_bind {A B} (m : M A) (k : A → M B) :
  commutes opt m → (∀ a, commutes opt (k a)) → commutes opt (bind m k).
Proof.
  intros Hm Hk w. unfold bind. rewrite (Hm w).
  destruct (m w) as [a w1| |]; cbn [outcome_map]; [apply Hk|done..].
Qed.

(** Code that looks at the state and reads no option of the four. *)
Lemma commutes_get_world {B} (k : world → M B) :
  (∀ w, k (opt w) = k w) → (∀ w0, commutes opt (k w0)) →
  commutes opt (bind get_world k).
Proof. intros Hsame Hk w. unfold bind, get_world. rewrite Hsame. apply Hk. Qed.

Lemma commutes_ret {A} (a : A) : commutes opt (ret a).
Proof. by intros w. Qed.

Lemma commutes_foldM {A B} (f : B → A → M B) (l : list A) (b : B) :
  (∀ b x, commutes opt (f b x)) → commutes opt (foldM f b l).
Proof.
  intros Hf. revert b. induction l as [|x l IH]; intros b; [apply commutes_ret|].
  cbn [foldM]. apply commutes_bind; [apply Hf|apply IH].
Qed.

Lemma commutes_forM {A B} (f : A → M B) (l : list A) :
  (∀ x, commutes opt (f x)) → commutes opt (forM f l).
Proof.
  intros Hf. induction l as [|x l IH]; [apply commutes_ret|].
  cbn [forM]. apply commutes_bind; [apply Hf|]. intros y.
  apply commutes_bind; [apply IH|]. intros ys. apply commutes_ret.
Qed.

(** The operations on the state: none of them reads an option. *)
Ltac primitive :=
  intros [[? ? ? ? ? ? ? ? ? ? ?] ? ? mu ? ? ?];
  cbv beta iota zeta delta
    [reconfigured with_options outcome_map
     bind ret get_world modify emit panic respond Lock Unlock RLock RUnlock
     files_lookup files_insert files_delete range_files deref incr_Downloads new
     os_Stat os_ReadFile os_WriteFile os_Remove os_MkdirAll os_Create io_Copy
     add_log set_mutex set_files set_heap set_disk
     config files heap mutex disk denied log
     Port UploadDir MetadataFile DefaultTTL MaxFileSize CleanupInterval AllowedTypes];
  repeat match goal with
         | |- context [decide (?x ∈ ?s)] => destruct (decide (x ∈ s))
         | |- context [match ?m !! ?k with _ => _ end] => destruct (m !! k)
         | |- context [match ?x with Unlocked => _ | _ => _ end] => destruct x
         end;
  reflexivity.

Lemma commutes_Lock : commutes opt Lock. Proof. primitive. Qed.
Lemma commutes_Unlock : commutes opt Unlock. Proof. primitive. Qed.
Lemma commutes_RLock : commutes opt RLock. Proof. primitive. Qed.
Lemma commutes_RUnlock : commutes opt RUnlock. Proof. primitive. Qed.
Lemma commutes_emit e : commutes opt (emit e). Proof. primitive. Qed.
Lemma commutes_respond resp : commutes opt (respond resp). Proof. primitive. Qed.
Lemma commutes_files_lookup id : commutes opt (files_lookup id). Proof. primitive. Qed.
Lemma commutes_files_insert id p : commutes opt (files_insert id p). Proof. primitive. Qed.
Lemma commutes_files_delete id : commutes opt (files_delete id). Proof. primitive. Qed.
Lemma commutes_range_files : commutes opt range_files. Proof. primitive. Qed.
Lemma commutes_new r : commutes opt (new r). Proof. primitive. Qed.
Lemma commutes_deref p : commutes opt (deref p). Proof. primitive. Qed.
Lemma commutes_incr p : commutes opt (incr_Downloads p). Proof. primitive. Qed.
Lemma commutes_Stat path : commutes opt (os_Stat path). Proof. primitive. Qed.
Lemma commutes_Remove path : commutes opt (os_Remove path). Proof. primitive. Qed.
Lemma commutes_MkdirAll dir : commutes opt (os_MkdirAll dir). Proof. primitive. Qed.
Lemma commutes_Create path : commutes opt (os_Create path). Proof. primitive. Qed.
Lemma commutes_WriteFile path d : commutes opt (os_WriteFile path d). Proof. primitive. Qed.
Lemma commutes_Copy path src n : commutes opt (io_Copy path src n).
Proof. destruct n; primitive. Qed.

(** Going through a handler along its binds, down to the operations. *)
Ltac commuting :=
  repeat lazymatch goal with
    | |- commutes _ (bind get_world _) =>
        apply commutes_get_world;
          [intros [[? ? ? ? ? ? ? ? ? ? ?] ? ? ? ? ? ?]; reflexivity|intros ?]
    | |- commutes _ (bind _ _) => apply commutes_bind; [|intros ?]
    | |- commutes _ (ret _) => apply commutes_ret
    | |- commutes _ Lock => apply commutes_Lock
    | |- commutes _ Unlock => apply commutes_Unlock
    | |- commutes _ RLock => apply commutes_RLock
    | |- commutes _ RUnlock => apply commutes_RUnlock
    | |- commutes _ (emit _) => apply commutes_emit
    | |- commutes _ (respond _) => apply commutes_respond
    | |- commutes _ (files_lookup _) => apply commutes_files_lookup
    | |- commutes _ (files_insert _ _) => apply commutes_files_insert
    | |- commutes _ (files_delete _) => apply commutes_files_delete
    | |- commutes _ range_files => apply commutes_range_files
    | |- commutes _ (new _) => apply commutes_new
    | |- commutes _ (deref _) => apply commutes_deref
    | |- commutes _ (incr_Downloads _) => apply commutes_incr
    | |- commutes _ (os_Stat _) => apply commutes_Stat
    | |- commutes _ (os_Remove _) => apply commutes_Remove
    | |- commutes _ (os_MkdirAll _) => apply commutes_MkdirAll
    | |- commutes _ (os_Create _) => apply commutes_Create
    | |- commutes _ (os_WriteFile _ _) => apply commutes_WriteFile
    | |- commutes _ (io_Copy _ _ _) => apply commutes_Copy
    | |- commutes _ (foldM _ _ _) => apply commutes_foldM; intros ? ?
    | |- commutes _ (forM _ _) => apply commutes_forM; intros ?
    | |- commutes _ (if ?b then _ else _) => destruct b
    | |- commutes _ (match ?x with _ => _ end) => destruct x
    end.

Lemma commutes_saveMetadata : commutes opt saveMetadata.
Proof. unfold saveMetadata. commuting. Qed.

Variable sha256_Sum : list byte → list byte.

(** X22: the options [allowed_origins], [max_downloads],
    [require_password] and [admin_password] of the configuration are
    read by no handler: whatever they are set to, every handler, the
    save of the snapshot and the sweeper answer the same and leave the
    same state.  So an upload without a password is accepted also when
    passwords are required, the default download limit limits nothing,
    and the management page asks for no admin password. *)
Theorem four_options_are_read_nowhere env now uptime r :
  commutes opt (uploadFile sha256_Sum env r) ∧
  commutes opt (downloadFile now r) ∧
  commutes opt (deleteFile r) ∧
  commutes opt (bulkDelete r) ∧
  commutes opt (fileInfo r) ∧
  commutes opt (searchFiles r) ∧
  commutes opt (getStats now) ∧
  commutes opt (manageFiles now r) ∧
  commutes opt (listFilesAPI r) ∧
  commutes opt (healthCheck now uptime) ∧
  commutes opt (apiHandler sha256_Sum env now uptime r) ∧
  commutes opt saveMetadata ∧
  commutes opt (cleanup now).
Proof.
  assert (commutes opt (uploadFile sha256_Sum env r)) as Hup.
  { unfold uploadFile, upload_stored. commuting; apply commutes_saveMetadata. }
  assert (commutes opt (listFilesAPI r)) as Hlist.
  { unfold listFilesAPI, snapshot. commuting. }
  assert (commutes opt (healthCheck now uptime)) as Hhealth.
  { unfold healthCheck. commuting. }
  repeat split; try done.
  - unfold downloadFile, dl_lookup, dl_check, dl_expire, dl_count, dl_serve.
    commuting; apply commutes_saveMetadata.
  - unfold deleteFile. commuting; apply commutes_saveMetadata.
  - unfold bulkDelete, bulk_delete_one. commuting; apply commutes_saveMetadata.
  - unfold fileInfo. commuting.
  - unfold searchFiles, collect_match. commuting.
  - unfold getStats, count_stats. commuting.
  - unfold manageFiles, snapshot, count_stats. commuting.
  - unfold apiHandler. commuting; done.
  - apply commutes_saveMetadata.
  - unfold cleanup, sweep_one. commuting; apply commutes_saveMetadata.
Qed.

End options.

Lemma cleanPath_rooted p : ∃ rest, Mux.cleanPath p = String "/" rest.
Proof.
  unfold Mux.cleanPath. destruct (String.eqb p ""); [by eexists|].
  set (q := if String.prefix "/" p then p else "/" +:+ p).
  assert (∃ rest, q = String "/" rest) as [rest Hq].
  { subst q. destruct p as [|c p]; [by eexists|]. cbn [String.prefix].
    destruct (ascii_dec "/" c) as [<-|_]; [destruct p|]; by eexists. }
  destruct (Mux.ends_with_slash q && negb (String.eqb (Mux.path_Clean q) "/")).
  - destruct (_ && _); [by exists rest|]. by eexists.
  - by eexists.
Qed.

(** Once a pattern was found the search does not lose it. *)
Lemma longer_prefix_keeps {H} path (rs : list (string * H)) best :
  is_Some best → is_Some (foldl (Mux.longer_prefix path) best rs).
Proof.
  revert best. induction rs as [|r rs IH]; intros best Hbest; [done|].
  cbn [foldl]. apply IH. unfold Mux.longer_prefix.
  destruct (_ && _); [|done]. destruct best as [b|]; [|done]. by destruct (_ <? _)%nat.
Qed.

Lemma longer_prefix_finds {H} path (rs : list (string * H)) r best :
  r ∈ rs → Mux.ends_with_slash r.1 && String.prefix r.1 path = true →
  is_Some (foldl (Mux.longer_prefix path) best rs).
Proof.
  revert best. induction rs as [|r' rs IH]; intros best Hin Hr; [by inversion Hin|].
  cbn [foldl]. apply elem_of_cons in Hin as [<-|Hin]; [|by apply IH].
  apply longer_prefix_keeps. unfold Mux.longer_prefix. rewrite Hr.
  destruct best as [b|]; [|done]. by destruct (_ <? _)%nat.
Qed.

(** Routing a clean path under one of the prefixes. *)
Ltac under_prefix Hclean :=
  unfold Mux.Handler; rewrite Hclean; cbv zeta; rewrite String.eqb_refl; cbn [negb];
  match goal with
  | |- context [?p +:+ ?rest] => destruct rest
  end; vm_compute; reflexivity.

(** X23: no request gets the 404 of the mux itself: every path is
    handled or redirected, since the pattern [/] takes whatever no other
    pattern matches, and leads to the management page.  A clean path
    under [/download/], [/delete/], [/info/] or [/api/] reaches the
    download, the delete, the info lookup or the API dispatcher,
    whatever follows the prefix, nothing included; the paths [/upload],
    [/manage], [/search], [/stats] and [/bulk-delete] reach their
    handlers as they stand; and the four prefixes without their final
    slash are redirected, with 301, to the path with the slash, the
    query going along. *)
Theorem requests_reach_their_handlers sha256_Sum env now uptime r rest :
  Mux.Handler routes (URLPath r) ≠ Mux.NotFound ∧
  (Mux.cleanPath (URLPath r) = URLPath r →
   (URLPath r = "/download/" +:+ rest →
    serve sha256_Sum env now uptime r = downloadFile now r) ∧
   (URLPath r = "/delete/" +:+ rest →
    serve sha256_Sum env now uptime r = deleteFile r) ∧
   (URLPath r = "/info/" +:+ rest →
    serve sha256_Sum env now uptime r = fileInfo r) ∧
   (URLPath r = "/api/" +:+ rest →
    serve sha256_Sum env now uptime r = apiHandler sha256_Sum env now uptime r)) ∧
  (URLPath r = "/upload" → serve sha256_Sum env now uptime r = uploadFile sha256_Sum env r) ∧
  (URLPath r = "/manage" ∨ URLPath r = "/" →
   serve sha256_Sum env now uptime r = manageFiles now r) ∧
  (URLPath r = "/search" → serve sha256_Sum env now uptime r = searchFiles r) ∧
  (URLPath r = "/stats" → serve sha256_Sum env now uptime r = getStats now) ∧
  (URLPath r = "/bulk-delete" → serve sha256_Sum env now uptime r = bulkDelete r) ∧
  (URLPath r = "/download" ∨ URLPath r = "/delete" ∨ URLPath r = "/info" ∨
   URLPath r = "/api" →
   serve sha256_Sum env now uptime r = respond (Redirect 301 (URLPath r +:+ "/"))).
Proof.
  split.
  { unfold Mux.Handler.
    destruct (Mux.shouldRedirect routes (Mux.cleanPath (URLPath r))); [done|].
    destruct (String.eqb_spec (Mux.cleanPath (URLPath r)) (URLPath r)) as [Hclean|_]; [|done].
    cbn [negb]. destruct (cleanPath_rooted (URLPath r)) as [tail Htail].
    rewrite Hclean in Htail. rewrite Htail.
    assert (is_Some (Mux.match_ routes (String "/" tail))) as [[pattern to] ->]; [|done].
    unfold Mux.match_. destruct (Mux.registered routes _) as [p|]; [by eexists|].
    apply (longer_prefix_finds _ _ ("/", ToManage)).
    - unfold routes. do 9 apply list_elem_of_further. apply list_elem_of_here.
    - cbn. by destruct tail. }
  split.
  { intros Hclean. repeat split; intros Hpath; unfold serve; rewrite Hpath in *.
    - assert (Mux.Handler routes ("/download/" +:+ rest) = Mux.Handled "/download/" ToDownload)
        as -> by under_prefix Hclean. done.
    - assert (Mux.Handler routes ("/delete/" +:+ rest) = Mux.Handled "/delete/" ToDelete)
        as -> by under_prefix Hclean. done.
    - assert (Mux.Handler routes ("/info/" +:+ rest) = Mux.Handled "/info/" ToInfo)
        as -> by under_prefix Hclean. done.
    - assert (Mux.Handler routes ("/api/" +:+ rest) = Mux.Handled "/api/" ToApi)
        as -> by under_prefix Hclean. done. }
  repeat split; unfold serve.
  - by intros ->.
  - by intros [-> | ->].
  - by intros ->.
  - by intros ->.
  - by intros ->.
  - by intros [-> | [-> | [-> | ->]]].
Qed.

(** X24: the management page shows every record of the registry,
    newest first, whatever is asked for: the [q] and [tag] of its search
    form are written back into the form and select nothing.  Its
    statistics are those of the statistics handler at the same instant.
    A row is marked expired when the instant is past its expiry, and
    near its limit when it is not expired, has a positive limit and at
    most one download left, so never both; and the two cells the
    template computes, size and checksum, are printed without a panic. *)
Theorem management_page_shows_every_record now w :
  mutex w = Unlocked → valid_ptrs w →
  ∃ l, l ≡ₚ (map_to_list (records w)).*2 ∧ descending UploadTime l ∧
       (∀ r, wants_json r = false →
             ∃ w', manageFiles now r w
                   = Ret (ManagePage (template_row now <$> l)
                            (tally now (map_to_list (records w)).*2)
                            (QueryGet r "q") (QueryGet r "tag")) w' ∧
                   same_state w w') ∧
       (∀ f, f ∈ l →
             row (template_row now f) = f ∧
             IsExpired (template_row now f) = After now (ExpiresAt f) ∧
             (0 < MaxDownloads f < 2 ^ 63 →
              (NearLimit (template_row now f) = true ↔
               After now (ExpiresAt f) = false ∧ MaxDownloads f - 1 ≤ Downloads f)) ∧
             (MaxDownloads f ≤ 0 → NearLimit (template_row now f) = false) ∧
             IsExpired (template_row now f) && NearLimit (template_row now f) = false ∧
             is_Some (checksum_cell (template_row now f)) ∧
             (- 2 ^ 63 ≤ Size f < 2 ^ 63 → is_Some (size_cell (template_row now f)))).
Proof.
  intros Hmu Hv.
  exists (sort_Slice by_upload_time (omap (λ p, heap w !! p) (map_to_list (files w)).*2)).
  split; [rewrite sort_Slice_Permutation; apply omap_map_to_list|].
  split; [by apply (sort_Slice_descending UploadTime)|].
  split.
  - intros r Hjson. unfold manageFiles.
    pose proof (read_all_run w Hmu Hv) as Hread. unfold bind in Hread.
    unfold bind at 1. unfold bind at 1.
    destruct (snapshot w) as [ptrs w1| |]; [|done..].
    rewrite Hread, Hjson.
    unfold bind at 1. unfold RLock at 1. cbn [mutex add_log]. rewrite Hmu.
    unfold bind at 1. unfold range_files at 1.
    unfold bind at 1.
    set (w0 := add_log EvRLock (set_mutex (RLocked 1) _)).
    pose proof (count_stats_fold now (map_to_list (files w)) 0 0 0 0 w0
                  (valid_ptrs_Forall w Hv)) as Hfold.
    change (wrap64 0) with 0 in Hfold. change (files w0) with (files w).
    rewrite Hfold. cbn zeta. rewrite !Z.add_0_l.
    change (heap w0) with (heap w).
    change (mkStats _ _ _ _)
      with (tally now (omap (λ p, heap w !! p) (map_to_list (files w)).*2)).
    rewrite (tally_Permutation now _ _ (omap_map_to_list (λ p, heap w !! p) (files w))).
    eexists. split; [by open_world w|]. by open_world w.
  - intros f _. unfold template_row.
    cbn [row IsExpired NearLimit].
    split; [done|]. split; [done|]. split; [|split; [|split; [|split]]].
    + intros Hmax. rewrite wrap64_small by lia.
      rewrite andb_true_iff, andb_true_iff, negb_true_iff, Z.ltb_lt, Z.leb_le. tauto.
    + intros Hmax. rewrite (proj2 (Z.ltb_ge 0 (MaxDownloads f))) by done. done.
    + destruct (After now (ExpiresAt f)); [by rewrite andb_false_r|done].
    + unfold checksum_cell. cbn [row]. by rewrite substr_in_range by lia.
    + intros Hsize. unfold size_cell. cbn [row].
      destruct (formatBytes_total (Size f) Hsize) as [t ->]. done.
Qed.

Lemma management_page_shows_every_record_witness :
  ∃ l w', manageFiles 25 (html_request "/manage" [("q", "budget")]) two_files
          = Ret (ManagePage (template_row 25 <$> l)
                   (tally 25 (map_to_list (records two_files)).*2)
                   (QueryGet (html_request "/manage" [("q", "budget")]) "q")
                   (QueryGet (html_request "/manage" [("q", "budget")]) "tag")) w' ∧
          l ≡ₚ (map_to_list (records two_files)).*2.
Proof.
  destruct (management_page_shows_every_record 25 two_files eq_refl two_files_valid)
    as (l & Hperm & _ & Hpage & _).
  destruct (Hpage (html_request "/manage" [("q", "budget")]) eq_refl) as (w' & Hrun & _).
  exists l, w'. split; [exact Hrun|exact Hperm].
Defined.

